(** * F1-python: timeline, snapshot lookup, standings and playback clock

    A shallow embedding of [src/telemetry.py], [src/helpers.py],
    [src/viewer.py] and of the caller in [src/selector.py], with the
    properties of the telemetry timeline and playback engine.

    - Numbers.  A Python/NumPy [float] is a [float] below: [NaN] or a finite
      value carried as a rational.  Arithmetic on finite values is exact;
      binary rounding and the infinities are left out, so a computed value
      can differ from the program's in the last place (and a truncated
      pixel by one).  Python [int]s are [Z], arrays and columns are lists,
      a [dict] is its list of items in insertion order.
    - Exceptions.  A function that can raise returns an [option]; [None]
      is the exception (or, where said so, an early [return]).
    - Library calls.  [np.searchsorted] is the bisection NumPy runs;
      [np.nanmin], [Series.min], [unique], [np.sort] and Python's [sorted],
      [min] and [max] are functions with the documented results;
      [DataFrame.sort_values] is an interface ([DataFrameSort]) with what
      pandas promises of its default sort kind: a sorted permutation, the
      order of equal keys left open.
    - Left out: drawing, colours, the fastest-lap text, and time columns of
      dtype [object]. *)

From Stdlib Require Import String Ascii DecimalString.
From Stdlib Require Import QArith Qround ZArith List Bool Lia Lqa.
From Stdlib Require Import Permutation Sorted.
From Equations Require Import Equations.
Import ListNotations.

Local Open Scope Q_scope.

(* ===================================================================== *)
(** ** Floats *)
(* ===================================================================== *)

Inductive float : Type :=
| NaN : float
| Fin (q : Q) : float.

Definition Qltb (a b : Q) : bool := negb (Qle_bool b a).

Definition isnan (a : float) : bool :=
  match a with NaN => true | Fin _ => false end.

Definition fadd (a b : float) : float :=
  match a, b with Fin p, Fin q => Fin (p + q) | _, _ => NaN end.

Definition fsub (a b : float) : float :=
  match a, b with Fin p, Fin q => Fin (p - q) | _, _ => NaN end.

Definition fmul (a b : float) : float :=
  match a, b with Fin p, Fin q => Fin (p * q) | _, _ => NaN end.

(** Float division by a divisor that is not zero (a literal). *)
Definition fdiv (a b : float) : float :=
  match a, b with Fin p, Fin q => Fin (p / q) | _, _ => NaN end.

(** Python's [a / b] on floats: [None] stands for [ZeroDivisionError]. *)
Definition py_div (a b : float) : option float :=
  match a, b with
  | Fin p, Fin q => if Qeq_bool q 0 then None else Some (Fin (p / q))
  | _, _ => Some NaN
  end.

(** IEEE comparisons: every ordered comparison with a NaN is false,
    [!=] with a NaN is true. *)
Definition flt (a b : float) : bool :=
  match a, b with Fin p, Fin q => Qltb p q | _, _ => false end.

Definition fle (a b : float) : bool :=
  match a, b with Fin p, Fin q => Qle_bool p q | _, _ => false end.

Definition fgt (a b : float) : bool := flt b a.

Definition feqb (a b : float) : bool :=
  match a, b with Fin p, Fin q => Qeq_bool p q | _, _ => false end.

Definition fneb (a b : float) : bool := negb (feqb a b).

(** [float(n)] for a Python int. *)
Definition of_int (n : Z) : float := Fin (inject_Z n).

(** Python's two-argument [min] and [max]: the first argument is kept
    unless the second is strictly smaller (larger). *)
Definition py_min (a b : float) : float := if flt b a then b else a.
Definition py_max (a b : float) : float := if fgt b a then b else a.

(** Equality of floats as values (rationals up to [Qeq]). *)
Definition feq (a b : float) : Prop :=
  match a, b with
  | Fin p, Fin q => p == q
  | NaN, NaN => True
  | _, _ => False
  end.

(* ===================================================================== *)
(** ** NumPy and pandas primitives used by the program *)
(* ===================================================================== *)

(** The order NumPy sorts and searches floats by: NaN is larger than every
    number. *)
Definition np_less (a b : float) : bool :=
  match a, b with
  | Fin p, Fin q => Qltb p q
  | Fin _, NaN => true
  | NaN, _ => false
  end.

Definition np_le (a b : float) : Prop := np_less b a = false.

(** [numpy.searchsorted(a, v, side='right')] for a scalar [v]: bisection
    between [lo] and [hi]; the middle element moves [lo] up when it is
    [<= v] and [hi] down otherwise. *)
Equations? bisect_right (a : list float) (v : float) (lo hi : nat) : nat
  by wf (hi - lo)%nat lt :=
  bisect_right a v lo hi with lt_dec lo hi => {
    | right _ := lo;
    | left _ with np_less v (nth (lo + (hi - lo) / 2) a NaN) => {
        | true := bisect_right a v lo (lo + (hi - lo) / 2);
        | false := bisect_right a v (S (lo + (hi - lo) / 2)) hi } }.
Proof.
  all: change (fst (Nat.divmod (hi - lo) 1 0 1)) with ((hi - lo) / 2)%nat;
    pose proof (Nat.div_lt (hi - lo) 2 ltac:(lia) ltac:(lia)); lia.
Qed.

Definition searchsorted_right (a : list float) (v : float) : nat :=
  bisect_right a v 0 (length a).

(** [reduce] over the non-NaN entries, as [np.nanmin], [np.nanmax],
    [Series.min] and [Series.max] do. *)
Fixpoint nan_reduce (pick : float -> float -> float) (l : list float)
  : float :=
  match l with
  | [] => NaN
  | a :: l' =>
      match a, nan_reduce pick l' with
      | NaN, r => r
      | a, NaN => a
      | a, r => pick a r
      end
  end.

Definition fmin2 (a b : float) : float := if flt b a then b else a.
Definition fmax2 (a b : float) : float := if flt a b then b else a.

(** [np.nanmin] / [np.nanmax]: [None] is the [ValueError] raised on an
    empty array; an all-NaN array gives NaN (with a warning). *)
Definition np_nanmin (l : list float) : option float :=
  match l with [] => None | _ => Some (nan_reduce fmin2 l) end.

Definition np_nanmax (l : list float) : option float :=
  match l with [] => None | _ => Some (nan_reduce fmax2 l) end.

(** [Series.min()] (skipna): NaN on an empty or all-NaN column. *)
Definition series_min (l : list float) : float := nan_reduce fmin2 l.

(** [ndarray.min()]: unlike [nanmin], a NaN entry makes the result NaN. *)
Definition ndarray_min (l : list float) : float :=
  if existsb isnan l then NaN else nan_reduce fmin2 l.

Definition notna (a : float) : bool := negb (isnan a).

(** Value equality used by [unique]: numbers by value, NaN equal to NaN. *)
Definition same_value (a b : float) : bool :=
  match a, b with
  | NaN, NaN => true
  | Fin p, Fin q => Qeq_bool p q
  | _, _ => false
  end.

(** [Series.unique()]: distinct values in order of first appearance. *)
Fixpoint unique_by {A : Type} (eqb : A -> A -> bool) (seen l : list A)
  : list A :=
  match l with
  | [] => []
  | a :: l' =>
      if existsb (eqb a) seen then unique_by eqb seen l'
      else a :: unique_by eqb (a :: seen) l'
  end.

Definition unique {A : Type} (eqb : A -> A -> bool) (l : list A) : list A :=
  unique_by eqb [] l.

(** Insertion of [a] in front of the first element that is not smaller. *)
Fixpoint insert_before {A : Type} (less : A -> A -> bool) (a : A)
  (l : list A) : list A :=
  match l with
  | [] => [a]
  | b :: l' => if less b a then b :: insert_before less a l' else a :: l
  end.

(** A stable sort: every element ends up before the later elements that
    are not smaller than it. *)
Definition stable_sort {A : Type} (less : A -> A -> bool) (l : list A)
  : list A :=
  fold_right (insert_before less) [] l.

(** [np.sort] on a float array (values only, NaN last). *)
Definition np_sort (l : list float) : list float := stable_sort np_less l.

(** Python's [sorted(l, key=key)] and [sorted(l, key=key, reverse=True)]:
    stable in both directions.  With NaN among the keys Python's result
    depends on the run structure of the list; the theorems below are about
    keys that are numbers. *)
Definition py_sorted {A : Type} (key : A -> float) (l : list A) : list A :=
  stable_sort (fun a b => flt (key a) (key b)) l.

Definition py_sorted_reverse {A : Type} (key : A -> float) (l : list A)
  : list A :=
  stable_sort (fun a b => flt (key b) (key a)) l.

(** [DataFrame.sort_values(col)] with pandas' default [kind='quicksort']:
    the rows come back as a permutation in ascending order of the column,
    NaN last.  Nothing else is promised (the default kind is not stable), so
    the sort is an interface with exactly this contract. *)
Class DataFrameSort : Type := {
  sort_values : forall {A : Type}, (A -> float) -> list A -> list A;
  sort_values_perm :
    forall (A : Type) (key : A -> float) (l : list A),
      Permutation (sort_values key l) l;
  sort_values_sorted :
    forall (A : Type) (key : A -> float) (l : list A),
      StronglySorted np_le (map key (sort_values key l))
}.

(* ===================================================================== *)
(** ** Data model *)
(* ===================================================================== *)

(** One row of the telemetry frame built by [collect_session_telemetry]:
    columns ['driver', 'time', 'x', 'y', 'lap', 'distance', 'abs_time']. *)
Record Row : Type := mkRow {
  row_driver : string;
  row_time : float;
  row_x : float;
  row_y : float;
  row_lap : Z;
  row_distance : float;
  row_abs_time : float
}.

(** The frame: its rows and whether the optional 'abs_time' column exists. *)
Record Frame : Type := mkFrame {
  rows : list Row;
  has_abs_time : bool
}.

(** dtype of a time column of a lap's telemetry (FastF1 gives typed
    columns; a column of dtype [object] holding [Timedelta] or [Timestamp]
    values is outside the model). *)
Inductive TimeDtype : Type :=
| timedelta64   (* seconds through [.dt.total_seconds()], NaT as NaN *)
| datetime64    (* a timestamp column *)
| numeric       (* [astype(float)] succeeds *)
| other_dtype.  (* [astype(float)] raises *)

(** One sample of a lap's telemetry.  [SessionTime] and [Time] hold the
    column value in seconds (NaN for NaT or a missing value);
    [Time_posix] is what lines 64-76 of telemetry.py turn the 'Time' entry
    into. *)
Record Sample : Type := mkSample {
  X : float;
  Y : float;
  SessionTime : float;
  Time : float;
  Distance : float;
  Time_posix : float
}.

(** A lap's telemetry frame: the samples and which columns it has. *)
Record Telemetry : Type := mkTelemetry {
  samples : list Sample;
  has_X : bool;
  has_Y : bool;
  has_Distance : bool;
  SessionTime_col : option TimeDtype;
  Time_col : option TimeDtype
}.

(** A row of [session.laps].  [LapNumber] and [Position] are [None] / NaN
    when missing; [get_telemetry] is [None] when the call raises or returns
    [None]. *)
Record Lap : Type := mkLap {
  Driver : string;
  LapNumber : option Z;
  Position : float;
  get_telemetry : option Telemetry
}.

(** What the program reads of a session. [status_data] and
    [race_control_messages] are [None] when the attribute is missing;
    their times are the values [to_epoch_seconds] returns. *)
Record Session : Type := mkSession {
  laps : option (list Lap);
  status_data : option (list (float * string));
  race_control_messages : option (list (float * string))
}.

(* ===================================================================== *)
(** ** helpers.get_telemetry_time_seconds *)
(* ===================================================================== *)

Definition tel_empty (tel : Telemetry) : bool :=
  match samples tel with [] => true | _ => false end.

(** The 'Time' fallback (helpers.py lines 52-61). *)
Definition time_column_seconds (tel : Telemetry) : option (list float) :=
  match Time_col tel with
  | Some timedelta64 => Some (map Time (samples tel))
  | Some datetime64 =>
      let base := hd NaN (map Time (samples tel)) in
      Some (map (fun s => fsub (Time s) base) (samples tel))
  | _ => None
  end.

Definition get_telemetry_time_seconds (tel : Telemetry)
  : option (list float) :=
  if tel_empty tel then None
  else
    match SessionTime_col tel with
    | Some timedelta64 => Some (map SessionTime (samples tel))
    | Some numeric => Some (map SessionTime (samples tel))
    | _ => time_column_seconds tel
    end.

(* ===================================================================== *)
(** ** telemetry.collect_session_telemetry *)
(* ===================================================================== *)

(** Boolean-mask selection [arr[mask]]. *)
Definition masked {A : Type} (mask : list bool) (l : list A) : list A :=
  map snd (filter fst (combine mask l)).

Fixpoint filter_map {A B : Type} (f : A -> option B) (l : list A) : list B :=
  match l with
  | [] => []
  | a :: l' =>
      match f a with
      | Some b => b :: filter_map f l'
      | None => filter_map f l'
      end
  end.

(** The frame one lap contributes (the body of the inner loop, lines
    25-97); [None] on each [continue]. *)
Definition lap_frame (drv : string) (lap : Lap) : option Frame :=
  match get_telemetry lap with
  | None => None
  | Some tel =>
      if tel_empty tel then None
      else if negb (has_X tel && has_Y tel) then None
      else
        match get_telemetry_time_seconds tel with
        | None => None
        | Some t_seconds =>
            let mask :=
              map (fun s => notna (X s) && notna (Y s)) (samples tel) in
            if negb (existsb (fun b : bool => b) mask) then None
            else
              let xs := masked mask (map X (samples tel)) in
              let ys := masked mask (map Y (samples tel)) in
              let ts := masked mask t_seconds in
              let lap_num :=
                match LapNumber lap with Some n => n | None => 0%Z end in
              let dists :=
                if has_Distance tel
                then masked mask (map Distance (samples tel))
                else
                  let lap_start :=
                    if (0 <? length ts)%nat then ndarray_min ts else Fin 0 in
                  map (fun t => fsub t lap_start) ts in
              let abs_times :=
                match Time_col tel with
                | Some _ =>
                    let abs_list :=
                      masked mask (map Time_posix (samples tel)) in
                    if forallb isnan abs_list then None else Some abs_list
                | None => None
                end in
              let abs_col :=
                match abs_times with
                | Some a =>
                    if (length a =? length ts)%nat then a
                    else map (fun _ => NaN) ts
                | None => map (fun _ => NaN) ts
                end in
              Some
                (mkFrame
                   (map
                      (fun i =>
                         mkRow drv (nth i ts NaN) (nth i xs NaN)
                           (nth i ys NaN) lap_num (nth i dists NaN)
                           (nth i abs_col NaN))
                      (seq 0 (length ts)))
                   (match abs_times with Some _ => true | None => false end))
        end
  end.

Definition set_time (r : Row) (t : float) : Row :=
  mkRow (row_driver r) t (row_x r) (row_y r) (row_lap r) (row_distance r)
    (row_abs_time r).

(** The frames appended to [rows] by the two nested loops. *)
Definition lap_frames (lps : list Lap) : list Frame :=
  flat_map
    (fun drv =>
       filter_map (lap_frame drv)
         (filter (fun l => String.eqb (Driver l) drv) lps))
    (unique String.eqb (map Driver lps)).

(** [pd.concat(rows, ignore_index=True)]. *)
Definition concat_frames (fs : list Frame) : Frame :=
  mkFrame (flat_map rows fs) (existsb has_abs_time fs).

(** The concatenated frame with the global minimum subtracted (lines
    102-106), before the sort. *)
Definition shift_times (full : Frame) : Frame :=
  let global_min := series_min (map row_time (rows full)) in
  mkFrame (map (fun r => set_time r (fsub (row_time r) global_min))
             (rows full))
    (has_abs_time full).

Definition collect_session_telemetry `{DataFrameSort} (session : Session)
  : option Frame :=
  match laps session with
  | None => None
  | Some [] => None
  | Some lps =>
      match lap_frames lps with
      | [] => None
      | fs =>
          let full := shift_times (concat_frames fs) in
          Some (mkFrame (sort_values row_time (rows full))
                  (has_abs_time full))
      end
  end.

(** The caller, [F1Selector.load_data] (selector.py lines 117-124): the
    outcome is either the error shown in the loading window, after which the
    method returns, or the scheduled [finish_loading], which starts
    [run_viewer] on the frame. *)
Inductive LoadOutcome : Type :=
| ProgressError (message : string)
| FinishLoading (telemetry : Frame).

Definition load_data `{DataFrameSort} (session : Session) : LoadOutcome :=
  match collect_session_telemetry session with
  | None => ProgressError "No telemetry data found"
  | Some telemetry => FinishLoading telemetry
  end.

(* ===================================================================== *)
(** ** helpers.fmt_time and helpers.normalize_coords *)
(* ===================================================================== *)

Definition Qtrunc (q : Q) : Z := Z.quot (Qnum q) (Zpos (Qden q)).

(** [ndarray.astype(int)] on one entry; for NaN NumPy leaves the minimum
    int64 (and warns). *)
Definition astype_int (a : float) : Z :=
  match a with Fin q => Qtrunc q | NaN => (- 2 ^ 63)%Z end.

(** Nearest integer, ties to even: the rounding of the [.3f] format. *)
Definition round_half_even (q : Q) : Z :=
  let f := Qfloor q in
  let r := q - inject_Z f in
  if Qltb r (1 # 2) then f
  else if Qltb (1 # 2) r then (f + 1)%Z
  else if Z.even f then f else (f + 1)%Z.

Definition str_of_Z (n : Z) : string :=
  DecimalString.NilZero.string_of_int (Z.to_int n).

(** Left padding with zeros up to [width] characters. *)
Fixpoint zero_fill (fuel width : nat) (s : string) : string :=
  match fuel with
  | O => s
  | S fuel' =>
      if (String.length s <? width)%nat
      then zero_fill fuel' width (String "0" s) else s
  end.

Definition zero_pad (width : nat) (s : string) : string :=
  zero_fill width width s.

(** The format [f"{seconds:06.3f}"] of a number [seconds >= 0]. *)
Definition format_06_3f (seconds : Q) : string :=
  let millis := round_half_even (seconds * 1000) in
  (zero_pad 2 (str_of_Z (millis / 1000))
   ++ "." ++ zero_pad 3 (str_of_Z (millis mod 1000)))%string.

(** [fmt_time(s)] for a float argument; [None] is the [ValueError] of
    [int(nan)]. *)
Definition fmt_time (s : float) : option string :=
  let ss := if flt s (Fin 0) then Fin 0 else s in
  match ss with
  | NaN => None
  | Fin q =>
      let minutes := Qfloor (q / 60) in
      let seconds := q - 60 * inject_Z minutes in
      Some (str_of_Z minutes ++ ":" ++ format_06_3f seconds)%string
  end.

(** [dx = max_x - min_x if max_x != min_x else 1.0]. *)
Definition span (min_v max_v : float) : float :=
  if fneb max_v min_v then fsub max_v min_v else Fin 1.

(** [normalize_coords(xs, ys, avail_w, avail_h, padding)]; [None] stands
    for an exception: [ValueError] from [nanmin] on an empty array or
    [ZeroDivisionError] from the scale. *)
Definition normalize_coords (xs ys : list float) (avail_w avail_h : Z)
  (padding : Z) : option (list Z * list Z) :=
  match np_nanmin xs, np_nanmax xs, np_nanmin ys, np_nanmax ys with
  | Some min_x, Some max_x, Some min_y, Some max_y =>
      let dx := span min_x max_x in
      let dy := span min_y max_y in
      let effective_w := (avail_w - padding * 2)%Z in
      let effective_h := (avail_h - padding * 2)%Z in
      match py_div (of_int effective_w) dx, py_div (of_int effective_h) dy with
      | Some sw, Some sh =>
          let scale := py_min sw sh in
          let nx :=
            map (fun x => fadd (fmul (fsub x min_x) scale) (of_int padding))
              xs in
          let ny :=
            map (fun y => fadd (fmul (fsub y min_y) scale) (of_int padding))
              ys in
          let ny := map (fun v => fsub (of_int avail_h) v) ny in
          Some (map astype_int nx, map astype_int ny)
      | _, _ => None
      end
  | _, _, _, _ => None
  end.

(* ===================================================================== *)
(** ** viewer.run_viewer: set-up before the loop *)
(* ===================================================================== *)

(** The constants imported from [config]; [src/main.py] defines the same
    names with these values. *)
Definition MAIN_W : Z := 600.
Definition SCREEN_H : Z := 800.
Definition DEFAULT_POINT_SIZE : Z := 6.

(** A telemetry row with the screen coordinates added at lines 83-86. *)
Record ScreenRow : Type := mkScreenRow {
  base : Row;
  row_xn : Z;
  row_yn : Z
}.

Definition screen_time (r : ScreenRow) : float := row_time (base r).

(** The value of [driver_data[drv]]: parallel arrays. *)
Record DriverData : Type := mkDriverData {
  d_time : list float;
  d_xn : list Z;
  d_yn : list Z;
  d_lap : list Z;
  d_distance : list float
}.

(** The value of [driver_stats[drv]]. *)
Record DriverSnapshot : Type := mkDriverSnapshot {
  st_time : float;
  st_lap : Z;
  st_distance : float;
  st_xn : Z;
  st_yn : Z;
  progress_score : float
}.

(** [dict.get(k, default)] on a dict kept as its item list. *)
Fixpoint dict_get {V : Type} (d : list (string * V)) (k : string)
  (default : V) : V :=
  match d with
  | [] => default
  | (k', v) :: d' => if String.eqb k' k then v else dict_get d' k default
  end.

Definition dict_has {V : Type} (d : list (string * V)) (k : string) : bool :=
  existsb (fun kv => String.eqb (fst kv) k) d.

(** Lines 26-32: the position in the driver's last lap row, 99 without
    one. *)
Definition driver_position (lap_df : list Lap) (drv : string) : float :=
  match filter (fun l => String.eqb (Driver l) drv) lap_df with
  | [] => Fin 99
  | pos_df => Position (last pos_df (mkLap drv None NaN None))
  end.

(** [max] of an int column. *)
Definition Z_max_list (l : list Z) : option Z :=
  match l with
  | [] => None
  | a :: l' => Some (fold_left Z.max l' a)
  end.

(** Line 34; [None] is the [ValueError] of [int(nan)] when no lap has a
    number. *)
Definition total_laps_of (lap_df : list Lap) : option Z :=
  match lap_df with
  | [] => Some 0%Z
  | _ => Z_max_list (filter_map LapNumber lap_df)
  end.

(** Lines 50-64 and 67-80: a stream of (epoch seconds, value) brought onto
    the telemetry time base. *)
Definition align_stream (telemetry_abs_min : option float)
  (stream : option (list (float * string))) : list float * list string :=
  match stream with
  | None => ([], [])
  | Some [] => ([], [])
  | Some sd =>
      let sd_epoch := map fst sd in
      let times :=
        match telemetry_abs_min with
        | Some abs_min => map (fun e => fsub e abs_min) sd_epoch
        | None =>
            if forallb isnan sd_epoch then []
            else map (fun e => fsub e (hd NaN sd_epoch)) sd_epoch
        end in
      (times, map snd sd)
  end.

(** Lines 46-47. *)
Definition telemetry_abs_min_of (telemetry : Frame) : option float :=
  if has_abs_time telemetry
     && existsb notna (map row_abs_time (rows telemetry))
  then Some (series_min (map row_abs_time (rows telemetry)))
  else None.

(** Lines 107-115 for one driver. *)
Definition driver_arrays `{DataFrameSort} (telemetry : list ScreenRow)
  (drv : string) : DriverData :=
  let g :=
    sort_values screen_time
      (filter (fun r => String.eqb (row_driver (base r)) drv) telemetry) in
  mkDriverData (map screen_time g) (map row_xn g) (map row_yn g)
    (map (fun r => row_lap (base r)) g)
    (map (fun r => row_distance (base r)) g).

(** Lines 118-120. *)
Definition lap_distance_margin_of (all_distances : list float) : float :=
  let max_dist :=
    match np_nanmax all_distances with
    | Some m => m
    | None => Fin 0
    end in
  py_max (Fin 1000) (fadd max_dist (Fin 100)).

(** Everything the loop reads that is fixed before it starts. *)
Record Viewer : Type := mkViewer {
  drivers : list string;
  driver_positions : list (string * float);
  total_laps : Z;
  status_times : list float;
  status_codes : list string;
  message_times : list float;
  messages : list string;
  telemetry_rows : list ScreenRow;
  times : list float;
  driver_data : list (string * DriverData);
  lap_distance_margin : float
}.

(** Lines 19-120.  [None]: the function does not reach the loop (an
    exception, or the early return when there is no time point). *)
Definition viewer_setup `{DataFrameSort} (telemetry : Frame)
  (session : Session) : option Viewer :=
  match laps session with
  | None => None
  | Some lap_df =>
      let drivers :=
        unique String.eqb (map row_driver (rows telemetry)) in
      let driver_positions :=
        map (fun drv => (drv, driver_position lap_df drv)) drivers in
      match total_laps_of lap_df with
      | None => None
      | Some total_laps =>
          let abs_min := telemetry_abs_min_of telemetry in
          let (status_times, status_codes) :=
            align_stream abs_min (status_data session) in
          let (message_times, messages) :=
            align_stream abs_min (race_control_messages session) in
          match
            normalize_coords (map row_x (rows telemetry))
              (map row_y (rows telemetry)) MAIN_W SCREEN_H 40
          with
          | None => None
          | Some (nx, ny) =>
              let telemetry' :=
                map (fun i =>
                       mkScreenRow
                         (nth i (rows telemetry)
                            (mkRow "" NaN NaN NaN 0 NaN NaN))
                         (nth i nx 0%Z) (nth i ny 0%Z))
                  (seq 0 (length (rows telemetry))) in
              let times :=
                np_sort (unique same_value (map screen_time telemetry')) in
              match times with
              | [] => None
              | _ =>
                  Some
                    (mkViewer drivers driver_positions total_laps
                       status_times status_codes message_times messages
                       telemetry' times
                       (map (fun drv => (drv, driver_arrays telemetry' drv))
                          drivers)
                       (lap_distance_margin_of
                          (map row_distance (rows telemetry))))
              end
          end
      end
  end.

(* ===================================================================== *)
(** ** viewer.run_viewer: the playback state (lines 122-168) *)
(* ===================================================================== *)

Inductive Key : Type :=
| K_SPACE | K_ESCAPE | K_q | K_UP | K_DOWN | K_PLUS | K_EQUALS | K_MINUS
| K_UNDERSCORE | K_l | K_RIGHT | K_LEFT | K_other.

Inductive Event : Type :=
| QUIT
| KEYDOWN (key : Key)
| OtherEvent.

Record Playback : Type := mkPlayback {
  sim_time : float;
  playing : bool;
  speed : float;
  point_size : Z;
  show_labels : bool;
  running : bool
}.

(** [times[0]] and [times[-1]]. *)
Definition first_time (times : list float) : float := hd NaN times.
Definition last_time (times : list float) : float := last times NaN.

Definition initial_playback (times : list float) : Playback :=
  mkPlayback (first_time times) true (Fin 4) DEFAULT_POINT_SIZE true true.

(** The body of [for ev in pygame.event.get()] (lines 138-160). *)
Definition handle_event (times : list float) (s : Playback) (ev : Event)
  : Playback :=
  match ev with
  | QUIT =>
      mkPlayback (sim_time s) (playing s) (speed s) (point_size s)
        (show_labels s) false
  | KEYDOWN K_SPACE =>
      mkPlayback (sim_time s) (negb (playing s)) (speed s) (point_size s)
        (show_labels s) (running s)
  | KEYDOWN K_ESCAPE | KEYDOWN K_q =>
      mkPlayback (sim_time s) (playing s) (speed s) (point_size s)
        (show_labels s) false
  | KEYDOWN K_UP =>
      mkPlayback (sim_time s) (playing s)
        (py_min (Fin 128) (fmul (speed s) (Fin 2))) (point_size s)
        (show_labels s) (running s)
  | KEYDOWN K_DOWN =>
      mkPlayback (sim_time s) (playing s)
        (py_max (Fin (1 # 8)) (fdiv (speed s) (Fin 2))) (point_size s)
        (show_labels s) (running s)
  | KEYDOWN K_PLUS | KEYDOWN K_EQUALS =>
      mkPlayback (sim_time s) (playing s) (speed s)
        (Z.min 30 (point_size s + 1)) (show_labels s) (running s)
  | KEYDOWN K_MINUS | KEYDOWN K_UNDERSCORE =>
      mkPlayback (sim_time s) (playing s) (speed s)
        (Z.max 2 (point_size s - 1)) (show_labels s) (running s)
  | KEYDOWN K_l =>
      mkPlayback (sim_time s) (playing s) (speed s) (point_size s)
        (negb (show_labels s)) (running s)
  | KEYDOWN K_RIGHT =>
      if playing s then s
      else
        mkPlayback (py_min (fadd (sim_time s) (Fin 1)) (last_time times))
          (playing s) (speed s) (point_size s) (show_labels s) (running s)
  | KEYDOWN K_LEFT =>
      if playing s then s
      else
        mkPlayback (py_max (fsub (sim_time s) (Fin 1)) (first_time times))
          (playing s) (speed s) (point_size s) (show_labels s) (running s)
  | KEYDOWN K_other => s
  | OtherEvent => s
  end.

(** Lines 162-168: the advance of a playing clock by [dt] wall seconds. *)
Definition tick (times : list float) (s : Playback) (dt : float)
  : Playback :=
  if playing s then
    let t := fadd (sim_time s) (fmul dt (speed s)) in
    let t := if fgt t (last_time times) then last_time times else t in
    let t := if flt t (first_time times) then first_time times else t in
    mkPlayback t (playing s) (speed s) (point_size s) (show_labels s)
      (running s)
  else s.

(** One iteration of the loop as far as the playback state goes: the
    events of the frame in order, then the tick. *)
Definition frame_step (times : list float) (s : Playback)
  (frame : list Event * float) : Playback :=
  tick times (fold_left (handle_event times) (fst frame) s) (snd frame).

(** The state after the frames run so far.  The loop stops after the first
    frame that clears [running]. *)
Fixpoint run_frames (times : list float) (s : Playback)
  (frames : list (list Event * float)) : Playback :=
  match frames with
  | [] => s
  | f :: frames' =>
      let s' := frame_step times s f in
      if running s' then run_frames times s' frames' else s'
  end.

(* ===================================================================== *)
(** ** viewer.run_viewer: what a frame computes (lines 182-350) *)
(* ===================================================================== *)

(** Lines 192-198: the index of the sample shown at [sim_time]. *)
Definition snapshot_index (t_arr : list float) (sim_time : float) : Z :=
  let idx := (Z.of_nat (searchsorted_right t_arr sim_time) - 1)%Z in
  if (idx <? 0)%Z then 0%Z
  else if (idx >=? Z.of_nat (length t_arr))%Z
       then (Z.of_nat (length t_arr) - 1)%Z
       else idx.

(** Lines 186-215 for one driver; [None] when the driver is put on
    [drivers_no_telemetry] and gets no entry in [driver_stats]. *)
Definition driver_snapshot (lap_distance_margin : float) (data : DriverData)
  (sim_time : float) : option DriverSnapshot :=
  let t_arr := d_time data in
  match t_arr with
  | [] => None
  | _ =>
      let idx := Z.to_nat (snapshot_index t_arr sim_time) in
      let tm := nth idx t_arr NaN in
      let lap := nth idx (d_lap data) 0%Z in
      let dist := nth idx (d_distance data) (Fin 0) in
      let xn := nth idx (d_xn data) 0%Z in
      let yn := nth idx (d_yn data) 0%Z in
      let progress_score :=
        fadd (fmul (of_int lap) lap_distance_margin) dist in
      Some (mkDriverSnapshot tm lap dist xn yn progress_score)
  end.

(** [driver_stats] after the loop at lines 185-215, in insertion order. *)
Definition driver_stats_at (v : Viewer) (sim_time : float)
  : list (string * DriverSnapshot) :=
  filter_map
    (fun item : string * DriverData =>
       match driver_snapshot (lap_distance_margin v) (snd item) sim_time with
       | Some st => Some (fst item, st)
       | None => None
       end)
    (driver_data v).

(** Lines 241-245. *)
Definition current_lap_at (v : Viewer) (sim_time : float) : Z :=
  match
    Z_max_list
      (map (fun r => row_lap (base r))
         (filter (fun r => fle (screen_time r) sim_time) (telemetry_rows v)))
  with
  | Some m => m
  | None => 0%Z
  end.

(** Lines 248-250. *)
Definition current_status_at (status_times : list float)
  (status_codes : list string) (sim_time : float) : string :=
  let current_status_idx :=
    (Z.of_nat (searchsorted_right status_times sim_time) - 1)%Z in
  if (current_status_idx >=? 0)%Z
     && (current_status_idx <? Z.of_nat (length status_codes))%Z
  then nth (Z.to_nat current_status_idx) status_codes "1"%string
  else "1"%string.

(** Lines 252-265. *)
Definition safety_str_of (current_status : string) : string :=
  if String.eqb current_status "3" || String.eqb current_status "3.0"
  then "Safety Car Deployed"
  else if String.eqb current_status "7" || String.eqb current_status "7.0"
  then "VSC Deployed"
  else if String.eqb current_status "2" || String.eqb current_status "2.0"
  then "Safety Car Reported"
  else if String.eqb current_status "5" || String.eqb current_status "5.0"
  then "Yellow Flag"
  else if String.eqb current_status "4" || String.eqb current_status "4.0"
  then "Red Flag"
  else if String.eqb current_status "6" || String.eqb current_status "6.0"
          || String.eqb current_status "8" || String.eqb current_status "8.0"
  then "Safety Car Ending"
  else "Green Flag".

Definition safety_str_at (status_times : list float)
  (status_codes : list string) (sim_time : float) : string :=
  safety_str_of (current_status_at status_times status_codes sim_time).

(** Lines 268-271. *)
Definition last_msg_at (message_times : list float) (messages : list string)
  (sim_time : float) : string :=
  let message_idx :=
    (Z.of_nat (searchsorted_right message_times sim_time) - 1)%Z in
  let last_msg :=
    if (message_idx >=? 0)%Z && (message_idx <? Z.of_nat (length messages))%Z
    then nth (Z.to_nat message_idx) messages ""%string
    else ""%string in
  if (40 <? String.length last_msg)%nat
  then (String.substring 0 37 last_msg ++ "...")%string
  else last_msg.

(** The test of line 298. *)
Definition race_finished (v : Viewer) (sim_time : float) : bool :=
  (current_lap_at v sim_time >=? total_laps v)%Z.

(** Lines 298-308. *)
Definition sorted_drivers_at (v : Viewer) (sim_time : float)
  : list (string * DriverSnapshot) :=
  if race_finished v sim_time
  then
    py_sorted (fun x => dict_get (driver_positions v) (fst x) (Fin 99))
      (driver_stats_at v sim_time)
  else
    py_sorted_reverse (fun x => progress_score (snd x))
      (driver_stats_at v sim_time).

(** Lines 324-340 for the entry at 1-based position [pos]. *)
Definition gap_str (leader_time : float) (leader_lap : Z) (pos : Z)
  (info : DriverSnapshot) : option string :=
  let tm := st_time info in
  let lap_num := st_lap info in
  if (lap_num =? leader_lap)%Z then
    if (pos =? 1)%Z then Some ""%string
    else
      let gap_sec := fsub leader_time tm in
      let gap_sec :=
        if flt gap_sec (Fin 0) && fgt gap_sec (Fin (- (1 # 1000)))
        then Fin 0 else gap_sec in
      let gap_sec := py_max (Fin 0) gap_sec in
      match fmt_time gap_sec with
      | Some t => Some (" +" ++ t)%string
      | None => None
      end
  else
    let lap_diff := (leader_lap - lap_num)%Z in
    if (lap_diff <=? 0)%Z then Some ""%string
    else if (lap_diff =? 1)%Z then Some " +1 lap"%string
    else Some (" +" ++ str_of_Z lap_diff ++ " laps")%string.

(** One line of the leaderboard: position, driver, time and gap text. *)
Record BoardLine : Type := mkBoardLine {
  line_pos : Z;
  line_drv : string;
  line_time_str : string;
  line_gap_str : string
}.

(** Lines 311-344; [None] when [fmt_time] raises on a NaN time. *)
Fixpoint board_lines (leader_time : float) (leader_lap : Z) (pos : Z)
  (entries : list (string * DriverSnapshot)) : option (list BoardLine) :=
  match entries with
  | [] => Some []
  | (drv, info) :: entries' =>
      match fmt_time (st_time info),
            gap_str leader_time leader_lap pos info,
            board_lines leader_time leader_lap (pos + 1) entries'
      with
      | Some time_str, Some gap, Some rest =>
          Some (mkBoardLine pos drv time_str gap :: rest)
      | _, _, _ => None
      end
  end.

Definition leaderboard (v : Viewer) (sim_time : float)
  : option (list BoardLine) :=
  let sorted_drivers := sorted_drivers_at v sim_time in
  let (leader_time, leader_lap) :=
    match sorted_drivers with
    | (_, leader_info) :: _ => (st_time leader_info, st_lap leader_info)
    | [] => (Fin 0, 0%Z)
    end in
  board_lines leader_time leader_lap 1 sorted_drivers.

(** Lines 346-350: the drivers listed as DNF under the board. *)
Definition dnf_drivers (v : Viewer) (sim_time : float) : list string :=
  filter (fun d => negb (dict_has (driver_stats_at v sim_time) d))
    (drivers v).

(** A concrete sort meeting the [sort_values] contract, for the example
    data: it keeps the order of equal keys. *)
Definition stable_sort_values {A : Type} (key : A -> float) (l : list A)
  : list A :=
  stable_sort (fun a b => np_less (key a) (key b)) l.

(* ===================================================================== *)
(** ** Vocabulary of the statements *)
(* ===================================================================== *)

(** A float that is a number. *)
Definition finite (a : float) : Prop := exists q, a = Fin q.

(** The number a float stands for (0 for NaN). *)
Definition qval (a : float) : Q :=
  match a with Fin q => q | NaN => 0 end.

(** The clock invariant: [sim_time] is a number within [lo, hi] and [speed]
    a number within [1/8, 128]. *)
Definition clock_in_bounds (lo hi : Q) (s : Playback) : Prop :=
  exists t sp,
    sim_time s = Fin t /\ speed s = Fin sp
    /\ lo <= t <= hi /\ (1 # 8) <= sp <= 128.

(** The speed is a number within [1/8, 128]. *)
Definition speed_in_bounds (s : Playback) : Prop :=
  exists sp, speed s = Fin sp /\ (1 # 8) <= sp <= 128.

(** A lap that contributes rows: its telemetry is available and not empty,
    has 'X' and 'Y' columns and a time column that converts to seconds, and
    some sample has both coordinates. *)
Definition lap_has_valid_sample (lap : Lap) : Prop :=
  exists tel,
    get_telemetry lap = Some tel
    /\ has_X tel = true /\ has_Y tel = true
    /\ get_telemetry_time_seconds tel <> None
    /\ exists s, In s (samples tel)
                 /\ notna (X s) = true /\ notna (Y s) = true.

(** A lap with a row that has a valid position and a parseable time: a
    sample of its telemetry with both coordinates whose own time in seconds
    is a number. *)
Definition lap_has_timed_position (lap : Lap) : Prop :=
  exists tel t_seconds i s t,
    get_telemetry lap = Some tel
    /\ has_X tel = true /\ has_Y tel = true
    /\ get_telemetry_time_seconds tel = Some t_seconds
    /\ nth_error (samples tel) i = Some s
    /\ nth_error t_seconds i = Some t
    /\ notna (X s) = true /\ notna (Y s) = true
    /\ finite t.

(** The frame handed to [sort_values] at line 109. *)
Definition unsorted_timeline (lps : list Lap) : Frame :=
  shift_times (concat_frames (lap_frames lps)).

(** The sort key of the finished regime. *)
Definition classification (v : Viewer) (x : string * DriverSnapshot) : float :=
  dict_get (driver_positions v) (fst x) (Fin 99).

(* ===================================================================== *)
(** * Properties *)
(* ===================================================================== *)

(** ** Order facts on floats *)

Lemma Qltb_lt (a b : Q) : Qltb a b = true <-> a < b.
Proof.
  unfold Qltb. rewrite negb_true_iff.
  split; intro Hlt.
  - apply Qnot_le_lt. intro Hle. apply Qle_bool_iff in Hle. congruence.
  - destruct (Qle_bool b a) eqn:E; [| reflexivity].
    apply Qle_bool_iff in E. exfalso. apply (Qlt_not_le a b); assumption.
Qed.

Lemma Qltb_ge (a b : Q) : Qltb a b = false <-> b <= a.
Proof.
  unfold Qltb. rewrite negb_false_iff. apply Qle_bool_iff.
Qed.

Lemma np_less_asym (a b : float) : np_less a b = true -> np_less b a = false.
Proof.
  destruct a as [| p], b as [| q]; simpl; try congruence.
  rewrite Qltb_lt, Qltb_ge. apply Qlt_le_weak.
Qed.

Lemma np_le_trans (a b c : float) : np_le a b -> np_le b c -> np_le a c.
Proof.
  unfold np_le.
  destruct a as [| p], b as [| q], c as [| r]; simpl; try congruence.
  rewrite !Qltb_ge. intros H1 H2. eapply Qle_trans; eassumption.
Qed.

Lemma np_less_le_trans (v b c : float) :
  np_less v b = true -> np_le b c -> np_less v c = true.
Proof.
  unfold np_le.
  destruct v as [| p], b as [| q], c as [| r]; simpl; try congruence.
  rewrite !Qltb_lt, Qltb_ge. intros H1 H2. eapply Qlt_le_trans; eassumption.
Qed.

Lemma StronglySorted_nth (l : list float) :
  StronglySorted np_le l ->
  forall i j, (i <= j < length l)%nat -> np_le (nth i l NaN) (nth j l NaN).
Proof.
  induction 1 as [| a l Hs IH Hall]; intros i j Hij; simpl in *.
  - lia.
  - destruct i as [| i], j as [| j]; try lia.
    + unfold np_le. destruct a; [reflexivity |]. simpl.
      apply Qltb_ge. apply Qle_refl.
    + rewrite Forall_forall in Hall. apply Hall. apply nth_In. lia.
    + apply IH. lia.
Qed.

(** ** The bisection of [searchsorted] *)

Lemma bisect_right_spec (a : list float) (v : float) (lo hi : nat) :
  StronglySorted np_le a ->
  (lo <= hi <= length a)%nat ->
  (forall i, (i < lo)%nat -> np_less v (nth i a NaN) = false) ->
  (forall i, (hi <= i < length a)%nat -> np_less v (nth i a NaN) = true) ->
  (lo <= bisect_right a v lo hi <= hi)%nat
  /\ (forall i, (i < bisect_right a v lo hi)%nat ->
                np_less v (nth i a NaN) = false)
  /\ (forall i, (bisect_right a v lo hi <= i < length a)%nat ->
                np_less v (nth i a NaN) = true).
Proof.
  intro Hsorted.
  funelim (bisect_right a v lo hi); intros Hb Hlo Hhi.
  - repeat split; try lia; auto.
    intros i Hi. apply Hhi. lia.
  - match goal with
    | IH : _ -> _ -> _ -> _ -> _ /\ _ |- _ =>
        destruct IH as (Hr & Hbelow & Habove)
    end; auto.
    + pose proof (Nat.div_lt (hi - lo) 2 ltac:(lia) ltac:(lia)). lia.
    + intros i Hi. eapply np_less_le_trans; [eassumption |].
      apply StronglySorted_nth; [assumption | lia].
    + repeat split; try lia; auto.
      pose proof (Nat.div_lt (hi - lo) 2 ltac:(lia) ltac:(lia)). lia.
  - match goal with
    | IH : _ -> _ -> _ -> _ -> _ /\ _ |- _ =>
        destruct IH as (Hr & Hbelow & Habove)
    end; auto.
    + pose proof (Nat.div_lt (hi - lo) 2 ltac:(lia) ltac:(lia)). lia.
    + intros i Hi.
      destruct (np_less v (nth i a NaN)) eqn:E; [| reflexivity].
      match goal with
      | H : np_less v (nth (lo + _) a NaN) = false |- _ =>
          rewrite <- H
      end.
      symmetry. eapply np_less_le_trans; [exact E |].
      apply StronglySorted_nth; [assumption |].
      pose proof (Nat.div_lt (hi - lo) 2 ltac:(lia) ltac:(lia)). lia.
    + repeat split; try lia; auto.
Qed.

Lemma np_less_fle (t : Q) (b : float) :
  np_less (Fin t) b = negb (fle b (Fin t)).
Proof.
  destruct b as [| q]; simpl; [reflexivity |].
  unfold Qltb. reflexivity.
Qed.

Lemma searchsorted_right_spec (a : list float) (t : Q) :
  StronglySorted np_le a ->
  (searchsorted_right a (Fin t) <= length a)%nat
  /\ (forall i, (i < searchsorted_right a (Fin t))%nat ->
                fle (nth i a NaN) (Fin t) = true)
  /\ (forall i, (searchsorted_right a (Fin t) <= i < length a)%nat ->
                fle (nth i a NaN) (Fin t) = false).
Proof.
  intro Hs. unfold searchsorted_right.
  destruct (bisect_right_spec a (Fin t) 0 (length a) Hs) as (Hr & Hlo & Hhi).
  - lia.
  - intros i Hi. lia.
  - intros i Hi. lia.
  - repeat split.
    + lia.
    + intros i Hi. specialize (Hlo i Hi). rewrite np_less_fle in Hlo.
      now apply negb_false_iff in Hlo.
    + intros i Hi. specialize (Hhi i Hi). rewrite np_less_fle in Hhi.
      now apply negb_true_iff in Hhi.
Qed.


(** ** The two sorts meet the [sort_values] contract *)

Lemma insert_before_perm {A : Type} (less : A -> A -> bool) (a : A)
  (l : list A) : Permutation (insert_before less a l) (a :: l).
Proof.
  induction l as [| b l IH]; simpl.
  - apply Permutation_refl.
  - destruct (less b a).
    + eapply perm_trans; [apply perm_skip, IH | apply perm_swap].
    + apply Permutation_refl.
Qed.

Lemma stable_sort_perm {A : Type} (less : A -> A -> bool) (l : list A) :
  Permutation (stable_sort less l) l.
Proof.
  induction l as [| a l IH]; simpl.
  - apply perm_nil.
  - eapply perm_trans; [apply insert_before_perm |].
    apply perm_skip, IH.
Qed.

Lemma insert_before_sorted {A : Type} (key : A -> float) (a : A)
  (l : list A) :
  StronglySorted np_le (map key l) ->
  StronglySorted np_le
    (map key (insert_before (fun x y => np_less (key x) (key y)) a l)).
Proof.
  induction l as [| b l IH]; simpl; intro Hs.
  - constructor; constructor.
  - inversion Hs as [| ? ? Hs' Hall]; subst.
    destruct (np_less (key b) (key a)) eqn:E; simpl.
    + constructor; [apply IH; assumption |].
      rewrite Forall_forall in *. intros k Hk.
      apply in_map_iff in Hk. destruct Hk as (c & <- & Hc).
      apply (Permutation_in _ (insert_before_perm _ a l)) in Hc.
      destruct Hc as [<- | Hc].
      * unfold np_le. apply np_less_asym. exact E.
      * apply Hall. apply in_map. exact Hc.
    + constructor; [assumption |].
      constructor; [exact E |].
      rewrite Forall_forall in *. intros k Hk.
      eapply np_le_trans; [exact E | apply Hall; exact Hk].
Qed.

Lemma stable_sort_values_sorted {A : Type} (key : A -> float) (l : list A) :
  StronglySorted np_le (map key (stable_sort_values key l)).
Proof.
  unfold stable_sort_values, stable_sort.
  induction l as [| a l IH]; simpl.
  - constructor.
  - apply insert_before_sorted. exact IH.
Qed.

(** The stable sort as a [DataFrameSort]. *)
Definition StableSort : DataFrameSort :=
  Build_DataFrameSort (@stable_sort_values)
    (fun A key l => stable_sort_perm _ l)
    (@stable_sort_values_sorted).

(* ===================================================================== *)
(** ** A small session for the examples *)
(* ===================================================================== *)

(** Driver A has samples at t = 0, 10, 20 on laps 0, 1, 1 with distances
    0, 50, 150; driver B has samples at t = 0, 15 on laps 0, 1 with
    distances 0, 80.  Session times start at 100 s. *)
Definition demo_sample (x y t d : Q) : Sample :=
  mkSample (Fin x) (Fin y) (Fin t) NaN (Fin d) NaN.

Definition demo_telemetry (l : list Sample) : Telemetry :=
  mkTelemetry l true true true (Some timedelta64) None.

Definition demo_session : Session :=
  mkSession
    (Some
       [mkLap "A" (Some 0%Z) (Fin 1)
          (Some (demo_telemetry [demo_sample 0 0 100 0]));
        mkLap "B" (Some 0%Z) (Fin 2)
          (Some (demo_telemetry [demo_sample 0 5 100 0]));
        mkLap "A" (Some 1%Z) (Fin 1)
          (Some
             (demo_telemetry
                [demo_sample 10 0 110 50; demo_sample 20 0 120 150]));
        mkLap "B" (Some 1%Z) (Fin 2)
          (Some (demo_telemetry [demo_sample 15 5 115 80]))])
    (Some [(Fin 1000, "1"%string); (Fin 1005, "4"%string)])
    None.

Definition demo_frame : Frame :=
  match @collect_session_telemetry StableSort demo_session with
  | Some f => f
  | None => mkFrame [] false
  end.

Definition demo_viewer : Viewer :=
  match @viewer_setup StableSort demo_frame demo_session with
  | Some v => v
  | None => mkViewer [] [] 0 [] [] [] [] [] [] [] NaN
  end.

Definition demo_rows : list ScreenRow := telemetry_rows demo_viewer.

(** Driver A is on lap 1 with the 'Distance' entry [dist_a], driver B on
    lap 0 with distance 0. *)
Definition backward_session (dist_a : float) : Session :=
  mkSession
    (Some
       [mkLap "A" (Some 1%Z) (Fin 1)
          (Some
             (demo_telemetry
                [mkSample (Fin 0) (Fin 0) (Fin 100) NaN dist_a NaN]));
        mkLap "B" (Some 0%Z) (Fin 2)
          (Some (demo_telemetry [demo_sample 0 5 100 0]))])
    None None.

Definition backward_frame (dist_a : float) : Frame :=
  match @collect_session_telemetry StableSort (backward_session dist_a) with
  | Some f => f
  | None => mkFrame [] false
  end.

Definition backward_viewer (dist_a : float) : Viewer :=
  match
    @viewer_setup StableSort (backward_frame dist_a) (backward_session dist_a)
  with
  | Some v => v
  | None => mkViewer [] [] 0 [] [] [] [] [] [] [] NaN
  end.

(** One driver, one lap, two samples with a position: the first at session
    time 100, the second with NaT as session time. *)
Definition open_ended_session : Session :=
  mkSession
    (Some
       [mkLap "A" (Some 1%Z) (Fin 1)
          (Some
             (demo_telemetry
                [demo_sample 0 0 100 0;
                 mkSample (Fin 10) (Fin 0) NaN NaN (Fin 5) NaN]))])
    None None.

Definition open_ended_frame : Frame :=
  match @collect_session_telemetry StableSort open_ended_session with
  | Some f => f
  | None => mkFrame [] false
  end.

Definition open_ended_viewer : Viewer :=
  match @viewer_setup StableSort open_ended_frame open_ended_session with
  | Some v => v
  | None => mkViewer [] [] 0 [] [] [] [] [] [] [] NaN
  end.

(** Two sessions of two laps in which VER and HAM both sit at distance 0
    of lap 1; they differ only in which of the two has the earlier sample. *)
Definition tie_session (t_ver t_ham : Q) : Session :=
  mkSession
    (Some
       [mkLap "VER" (Some 1%Z) (Fin 1)
          (Some (demo_telemetry [demo_sample 0 0 t_ver 0]));
        mkLap "HAM" (Some 1%Z) (Fin 2)
          (Some (demo_telemetry [demo_sample 0 5 t_ham 0]));
        mkLap "VER" (Some 2%Z) (Fin 1) None])
    None None.

Definition tie_frame (t_ver t_ham : Q) : Frame :=
  match @collect_session_telemetry StableSort (tie_session t_ver t_ham) with
  | Some f => f
  | None => mkFrame [] false
  end.

Definition tie_viewer (t_ver t_ham : Q) : Viewer :=
  match
    @viewer_setup StableSort (tie_frame t_ver t_ham) (tie_session t_ver t_ham)
  with
  | Some v => v
  | None => mkViewer [] [] 0 [] [] [] [] [] [] [] NaN
  end.

(** A race of two laps.  Driver A (classified first) has telemetry for
    lap 1 only, from session time 100; driver B (classified second) has
    telemetry for lap 2 only, from session time 110. *)
Definition late_session : Session :=
  mkSession
    (Some
       [mkLap "A" (Some 1%Z) (Fin 1)
          (Some (demo_telemetry [demo_sample 0 0 100 0]));
        mkLap "B" (Some 1%Z) (Fin 2) None;
        mkLap "A" (Some 2%Z) (Fin 1) None;
        mkLap "B" (Some 2%Z) (Fin 2)
          (Some (demo_telemetry [demo_sample 10 5 110 0]))])
    None None.

Definition late_frame : Frame :=
  match @collect_session_telemetry StableSort late_session with
  | Some f => f
  | None => mkFrame [] false
  end.

Definition late_viewer : Viewer :=
  match @viewer_setup StableSort late_frame late_session with
  | Some v => v
  | None => mkViewer [] [] 0 [] [] [] [] [] [] [] NaN
  end.

(** One lap whose only sample has a position but NaT as session time. *)
Definition missing_time_laps : list Lap :=
  [mkLap "A" (Some 1%Z) (Fin 1)
     (Some (demo_telemetry [mkSample (Fin 0) (Fin 0) NaN NaN (Fin 0) NaN]))].

Definition missing_time_session : Session :=
  mkSession (Some missing_time_laps) None None.

(** The frame the builder returns on it, and the viewer set up on that
    frame. *)
Definition missing_time_frame : Frame :=
  mkFrame [mkRow "A" NaN (Fin 0) (Fin 0) 1 (Fin 0) NaN] false.

Definition missing_time_viewer : Viewer :=
  match @viewer_setup StableSort missing_time_frame missing_time_session with
  | Some v => v
  | None => mkViewer [] [] 0 [] [] [] [] [] [] [] NaN
  end.

(** ** C2: the per-frame snapshot lookup *)

Lemma driver_arrays_sorted `{DataFrameSort} (telemetry : list ScreenRow)
  (drv : string) :
  StronglySorted np_le (d_time (driver_arrays telemetry drv)).
Proof.
  unfold driver_arrays. simpl. apply sort_values_sorted.
Qed.




(** ** C9: the status lookup *)

Lemma searchsorted_right_nil (v : float) : searchsorted_right [] v = 0%nat.
Proof.
  unfold searchsorted_right. simpl. now simp bisect_right.
Qed.

Lemma safety_str_at_no_times (status_codes : list string) (sim_time : float) :
  safety_str_at [] status_codes sim_time = "Green Flag"%string.
Proof.
  unfold safety_str_at, current_status_at.
  rewrite searchsorted_right_nil. reflexivity.
Qed.

Lemma viewer_setup_status_independent `{DataFrameSort} (telemetry : Frame)
  (l : option (list Lap)) (sd sd' rc : option (list (float * string))) :
  viewer_setup telemetry (mkSession l sd rc) = None <->
  viewer_setup telemetry (mkSession l sd' rc) = None.
Proof.
  unfold viewer_setup. simpl.
  destruct l as [lap_df |]; [| tauto].
  destruct (total_laps_of lap_df); [| tauto].
  destruct (align_stream (telemetry_abs_min_of telemetry) sd).
  destruct (align_stream (telemetry_abs_min_of telemetry) sd').
  destruct (align_stream (telemetry_abs_min_of telemetry) rc).
  destruct (normalize_coords _ _ _ _ _) as [[nx ny] |]; [| tauto].
  destruct (np_sort _); [tauto |].
  split; discriminate.
Qed.

(** C9.  The status stream of the example session, first stamped 1000 s
    and 1005 s, is aligned to [(0,'1'), (5,'4')].  Over that stream the
    lookup at 3 gives code '1' and the green-flag label, at 6 code '4' and
    "Red Flag", at -1 no entry (index -1) and the green-flag default.  A
    missing or empty status stream becomes an empty stream whose label is
    the green-flag default at every time, and whether [run_viewer] reaches
    its loop does not depend on the status stream. *)
Theorem status_lookup_green_default :
  (status_times demo_viewer, status_codes demo_viewer)
  = ([Fin 0; Fin 5], ["1"; "4"]%string)
  /\ (current_status_at [Fin 0; Fin 5] ["1"; "4"]%string (Fin 3) = "1"%string
   /\ safety_str_at [Fin 0; Fin 5] ["1"; "4"]%string (Fin 3)
      = "Green Flag"%string)
  /\ (current_status_at [Fin 0; Fin 5] ["1"; "4"]%string (Fin 6) = "4"%string
      /\ safety_str_at [Fin 0; Fin 5] ["1"; "4"]%string (Fin 6)
         = "Red Flag"%string)
  /\ (searchsorted_right [Fin 0; Fin 5] (Fin (-1)) = 0%nat
      /\ safety_str_at [Fin 0; Fin 5] ["1"; "4"]%string (Fin (-1))
         = "Green Flag"%string)
  /\ (forall (abs_min : option float) (sim_time : float),
        align_stream abs_min None = ([], [])
        /\ align_stream abs_min (Some []) = ([], [])
        /\ safety_str_at (fst (align_stream abs_min None))
             (snd (align_stream abs_min None)) sim_time
           = "Green Flag"%string
        /\ safety_str_at (fst (align_stream abs_min (Some [])))
             (snd (align_stream abs_min (Some []))) sim_time
           = "Green Flag"%string)
  /\ (forall (srt : DataFrameSort) (telemetry : Frame) (l : option (list Lap))
             (sd rc : option (list (float * string))),
        (viewer_setup telemetry (mkSession l sd rc) = None <->
         viewer_setup telemetry (mkSession l None rc) = None)
        /\ (viewer_setup telemetry (mkSession l sd rc) = None <->
            viewer_setup telemetry (mkSession l (Some []) rc) = None)).
Proof.
  split; [vm_compute; reflexivity |].
  split; [split; vm_compute; reflexivity |].
  split; [split; vm_compute; reflexivity |].
  split; [split; vm_compute; reflexivity |].
  split.
  - intros abs_min sim_time. simpl.
    repeat split; apply safety_str_at_no_times.
  - intros srt telemetry l sd rc.
    split; apply viewer_setup_status_independent.
Qed.

(** ** C10: [normalize_coords] is total *)

Lemma py_div_span (n min_v max_v : float) :
  py_div n (span min_v max_v) <> None.
Proof.
  unfold span, fneb.
  destruct max_v as [| p], min_v as [| q], n as [| m]; simpl;
    try discriminate.
  destruct (Qeq_bool p q) eqn:E; simpl.
  - discriminate.
  - destruct (Qeq_bool (p - q) 0) eqn:E0; [| discriminate].
    apply Qeq_bool_iff in E0.
    assert (Hpq : p == q) by lra.
    apply Qeq_bool_iff in Hpq. congruence.
Qed.

Lemma span_finite_nonzero (p q : Q) :
  exists d, span (Fin q) (Fin p) = Fin d /\ ~ d == 0.
Proof.
  unfold span, fneb. simpl.
  destruct (Qeq_bool p q) eqn:E; simpl.
  - exists 1. split; [reflexivity | lra].
  - exists (p - q). split; [reflexivity |].
    intro H0. assert (Hpq : p == q) by lra.
    apply Qeq_bool_iff in Hpq. congruence.
Qed.

(** The reduction over a list of numbers all equal to [c] is [c]. *)
Lemma nan_reduce_constant (pick : float -> float -> float) (c : Q)
  (l : list float) :
  (forall p q, p == c -> q == c ->
               exists r, pick (Fin p) (Fin q) = Fin r /\ r == c) ->
  l <> [] ->
  Forall (fun a => feq a (Fin c)) l ->
  exists m, nan_reduce pick l = Fin m /\ m == c.
Proof.
  intros Hpick Hne Hall.
  induction Hall as [| a l Ha Hall IH]; [congruence |].
  destruct a as [| p]; simpl in Ha; [contradiction |].
  destruct l as [| b l'].
  - simpl. exists p. split; [reflexivity | exact Ha].
  - destruct IH as (m & Hm & Hmc); [discriminate |].
    cbn [nan_reduce]. cbn [nan_reduce] in Hm. rewrite Hm.
    apply Hpick; assumption.
Qed.

Lemma nan_reduce_finite (pick : float -> float -> float) (l : list float) :
  (forall p q, exists r, pick (Fin p) (Fin q) = Fin r) ->
  l <> [] ->
  Forall finite l ->
  finite (nan_reduce pick l).
Proof.
  intros Hpick Hne Hall.
  induction Hall as [| a l Ha Hall IH]; [congruence |].
  destruct Ha as (p & ->).
  destruct l as [| b l'].
  - simpl. exists p. reflexivity.
  - destruct IH as (m & Hm); [discriminate |].
    cbn [nan_reduce]. cbn [nan_reduce] in Hm. rewrite Hm.
    apply Hpick.
Qed.

Lemma fmin2_fin (p q : Q) : exists r, fmin2 (Fin p) (Fin q) = Fin r.
Proof. unfold fmin2. destruct (flt _ _); eauto. Qed.

Lemma fmax2_fin (p q : Q) : exists r, fmax2 (Fin p) (Fin q) = Fin r.
Proof. unfold fmax2. destruct (flt _ _); eauto. Qed.

(** C10.  On non-empty arrays of numbers [normalize_coords] returns integer
    arrays of the lengths of its inputs (no exception); the two spans it
    divides by are numbers different from zero, and a span is 1 when all
    values of its axis coincide. *)
Theorem normalize_coords_total (xs ys : list float)
  (avail_w avail_h padding : Z) :
  xs <> [] -> ys <> [] -> Forall finite xs -> Forall finite ys ->
  (exists nx ny,
      normalize_coords xs ys avail_w avail_h padding = Some (nx, ny)
      /\ length nx = length xs /\ length ny = length ys)
  /\ (exists min_x max_x min_y max_y dx dy,
         np_nanmin xs = Some min_x /\ np_nanmax xs = Some max_x
         /\ np_nanmin ys = Some min_y /\ np_nanmax ys = Some max_y
         /\ span min_x max_x = Fin dx /\ ~ dx == 0
         /\ span min_y max_y = Fin dy /\ ~ dy == 0
         /\ ((forall c, Forall (fun x => feq x (Fin c)) xs -> dx = 1)
             /\ (forall c, Forall (fun y => feq y (Fin c)) ys -> dy = 1))).
Proof.
  intros Hx Hy Fx Fy.
  split.
  - unfold normalize_coords.
    destruct xs as [| x0 xs']; [congruence |].
    destruct ys as [| y0 ys']; [congruence |].
    cbn [np_nanmin np_nanmax].
    set (min_x := nan_reduce fmin2 (x0 :: xs')).
    set (max_x := nan_reduce fmax2 (x0 :: xs')).
    set (min_y := nan_reduce fmin2 (y0 :: ys')).
    set (max_y := nan_reduce fmax2 (y0 :: ys')).
    destruct (py_div (of_int (avail_w - padding * 2)) (span min_x max_x))
      as [sw |] eqn:Ew; [| exfalso; eapply py_div_span; eassumption].
    destruct (py_div (of_int (avail_h - padding * 2)) (span min_y max_y))
      as [sh |] eqn:Eh; [| exfalso; eapply py_div_span; eassumption].
    eexists. eexists. split; [reflexivity |].
    rewrite !length_map. split; reflexivity.
  - destruct xs as [| x0 xs']; [congruence |].
    destruct ys as [| y0 ys']; [congruence |].
    cbn [np_nanmin np_nanmax].
    destruct (nan_reduce_finite fmin2 (x0 :: xs') fmin2_fin Hx Fx)
      as (mnx & Emnx).
    destruct (nan_reduce_finite fmax2 (x0 :: xs') fmax2_fin Hx Fx)
      as (mxx & Emxx).
    destruct (nan_reduce_finite fmin2 (y0 :: ys') fmin2_fin Hy Fy)
      as (mny & Emny).
    destruct (nan_reduce_finite fmax2 (y0 :: ys') fmax2_fin Hy Fy)
      as (mxy & Emxy).
    destruct (span_finite_nonzero mxx mnx) as (dx & Edx & Hdx).
    destruct (span_finite_nonzero mxy mny) as (dy & Edy & Hdy).
    exists (Fin mnx), (Fin mxx), (Fin mny), (Fin mxy), dx, dy.
    rewrite Emnx, Emxx, Emny, Emxy.
    repeat split; try assumption.
    + intros c Hc.
      destruct (nan_reduce_constant fmin2 c (x0 :: xs')) as (m1 & E1 & H1);
        [| assumption | assumption |].
      { intros p q Hp Hq. unfold fmin2. destruct (flt _ _); eauto. }
      destruct (nan_reduce_constant fmax2 c (x0 :: xs')) as (m2 & E2 & H2);
        [| assumption | assumption |].
      { intros p q Hp Hq. unfold fmax2. destruct (flt _ _); eauto. }
      rewrite Emnx in E1. rewrite Emxx in E2.
      injection E1 as ->. injection E2 as ->.
      unfold span, fneb in Edx. simpl in Edx.
      assert (Heq : Qeq_bool m2 m1 = true) by (apply Qeq_bool_iff; lra).
      rewrite Heq in Edx. simpl in Edx. congruence.
    + intros c Hc.
      destruct (nan_reduce_constant fmin2 c (y0 :: ys')) as (m1 & E1 & H1);
        [| assumption | assumption |].
      { intros p q Hp Hq. unfold fmin2. destruct (flt _ _); eauto. }
      destruct (nan_reduce_constant fmax2 c (y0 :: ys')) as (m2 & E2 & H2);
        [| assumption | assumption |].
      { intros p q Hp Hq. unfold fmax2. destruct (flt _ _); eauto. }
      rewrite Emny in E1. rewrite Emxy in E2.
      injection E1 as ->. injection E2 as ->.
      unfold span, fneb in Edy. simpl in Edy.
      assert (Heq : Qeq_bool m2 m1 = true) by (apply Qeq_bool_iff; lra).
      rewrite Heq in Edy. simpl in Edy. congruence.
Qed.

Lemma normalize_coords_total_witness :
  exists nx ny,
    normalize_coords [Fin 3; Fin 3] [Fin 0; Fin 10] 600 800 40
    = Some (nx, ny)
    /\ length nx = 2%nat /\ length ny = 2%nat.
Proof.
  refine (proj1 (normalize_coords_total [Fin 3; Fin 3] [Fin 0; Fin 10]
                   600 800 40 _ _ _ _)).
  - discriminate.
  - discriminate.
  - repeat constructor; eexists; reflexivity.
  - repeat constructor; eexists; reflexivity.
Defined.

(** ** C7: the playback clock stays inside its bounds *)

Lemma flt_Fin (p q : Q) : flt (Fin p) (Fin q) = true <-> p < q.
Proof. simpl. apply Qltb_lt. Qed.

Lemma flt_Fin_false (p q : Q) : flt (Fin p) (Fin q) = false <-> q <= p.
Proof. simpl. apply Qltb_ge. Qed.

Section Clock.
Variable times : list float.
Variables lo hi : Q.
Hypothesis first_is_lo : first_time times = Fin lo.
Hypothesis last_is_hi : last_time times = Fin hi.
Hypothesis lo_le_hi : lo <= hi.

Lemma initial_in_bounds : clock_in_bounds lo hi (initial_playback times).
Proof.
  exists lo, 4. simpl. rewrite first_is_lo.
  repeat split; lra.
Qed.

Lemma handle_event_in_bounds (s : Playback) (ev : Event) :
  clock_in_bounds lo hi s -> clock_in_bounds lo hi (handle_event times s ev).
Proof.
  intros (t & sp & Ht & Hsp & Hbt & Hbs).
  destruct ev as [| [] |]; simpl;
    try (exists t, sp; repeat split;
         solve [assumption | apply Hbt | apply Hbs]).
  - (* K_UP *)
    rewrite Hsp. unfold py_min. simpl fmul.
    destruct (flt (Fin (sp * 2)) (Fin 128)) eqn:E.
    + apply flt_Fin in E. exists t, (sp * 2). simpl.
      repeat split; try assumption; try apply Hbt; lra.
    + exists t, 128. simpl. repeat split; try assumption; try apply Hbt; lra.
  - (* K_DOWN *)
    rewrite Hsp. unfold py_max, fgt. simpl fdiv.
    change (sp / 2) with (sp * (1 # 2)).
    destruct (flt (Fin (1 # 8)) (Fin (sp * (1 # 2)))) eqn:E.
    + apply flt_Fin in E. exists t, (sp * (1 # 2)). simpl.
      repeat split; try assumption; try apply Hbt; lra.
    + exists t, (1 # 8). simpl.
      repeat split; try assumption; try apply Hbt; lra.
  - (* K_RIGHT *)
    destruct (playing s).
    + exists t, sp. repeat split; solve [assumption | apply Hbt | apply Hbs].
    + rewrite Ht, last_is_hi. unfold py_min. simpl fadd.
      destruct (flt (Fin hi) (Fin (t + 1))) eqn:E.
      * exists hi, sp. simpl. repeat split; try assumption; try apply Hbs; lra.
      * apply flt_Fin_false in E. exists (t + 1), sp. simpl.
        repeat split; try assumption; try apply Hbs; lra.
  - (* K_LEFT *)
    destruct (playing s).
    + exists t, sp. repeat split; solve [assumption | apply Hbt | apply Hbs].
    + rewrite Ht, first_is_lo. unfold py_max, fgt. simpl fsub.
      destruct (flt (Fin (t - 1)) (Fin lo)) eqn:E.
      * exists lo, sp. simpl. repeat split; try assumption; try apply Hbs; lra.
      * apply flt_Fin_false in E. exists (t - 1), sp. simpl.
        repeat split; try assumption; try apply Hbs; lra.
Qed.

Lemma tick_in_bounds (s : Playback) (dt : Q) :
  clock_in_bounds lo hi s -> clock_in_bounds lo hi (tick times s (Fin dt)).
Proof.
  intros (t & sp & Ht & Hsp & Hbt & Hbs).
  unfold tick. destruct (playing s).
  - rewrite Ht, Hsp, first_is_lo, last_is_hi. unfold fgt. simpl fadd.
    destruct (flt (Fin hi) (Fin (t + dt * sp))) eqn:E1.
    + destruct (flt (Fin hi) (Fin lo)) eqn:E2.
      * apply flt_Fin in E2. lra.
      * exists hi, sp. simpl. repeat split; try assumption; try apply Hbs; lra.
    + apply flt_Fin_false in E1.
      destruct (flt (Fin (t + dt * sp)) (Fin lo)) eqn:E2.
      * exists lo, sp. simpl. repeat split; try assumption; try apply Hbs; lra.
      * apply flt_Fin_false in E2. exists (t + dt * sp), sp. simpl.
        repeat split; try assumption; try apply Hbs; lra.
  - exists t, sp. repeat split; solve [assumption | apply Hbt | apply Hbs].
Qed.

Lemma frame_step_in_bounds (s : Playback) (events : list Event) (dt : Q) :
  clock_in_bounds lo hi s ->
  clock_in_bounds lo hi (frame_step times s (events, Fin dt)).
Proof.
  intro Hs. unfold frame_step. simpl. apply tick_in_bounds.
  revert s Hs. induction events as [| ev events IH]; intros s Hs; simpl.
  - exact Hs.
  - apply IH. apply handle_event_in_bounds. exact Hs.
Qed.
End Clock.

(** The speed bounds do not depend on the timeline. *)
Lemma handle_event_speed (times : list float) (s : Playback) (ev : Event) :
  speed_in_bounds s -> speed_in_bounds (handle_event times s ev).
Proof.
  intros (sp & Hsp & Hbs).
  destruct ev as [| [] |]; simpl;
    try (exists sp; split; assumption);
    try (destruct (playing s); exists sp; split; assumption).
  - rewrite Hsp. unfold py_min. simpl fmul.
    destruct (flt (Fin (sp * 2)) (Fin 128)) eqn:E.
    + apply flt_Fin in E. exists (sp * 2). split; [reflexivity | lra].
    + exists 128. split; [reflexivity | lra].
  - rewrite Hsp. unfold py_max, fgt. simpl fdiv.
    change (sp / 2) with (sp * (1 # 2)).
    destruct (flt (Fin (1 # 8)) (Fin (sp * (1 # 2)))) eqn:E.
    + apply flt_Fin in E. exists (sp * (1 # 2)). split; [reflexivity | lra].
    + exists (1 # 8). split; [reflexivity | lra].
Qed.

Lemma frame_step_speed (times : list float) (s : Playback)
  (frame : list Event * float) :
  speed_in_bounds s -> speed_in_bounds (frame_step times s frame).
Proof.
  intro Hs. unfold frame_step.
  assert (Hev : speed_in_bounds
                  (fold_left (handle_event times) (fst frame) s)).
  { revert s Hs. induction (fst frame) as [| ev events IH]; intros s Hs.
    - exact Hs.
    - simpl. apply IH. apply handle_event_speed. exact Hs. }
  unfold tick. destruct (playing _); exact Hev.
Qed.

Lemma run_frames_speed (times : list float)
  (frames : list (list Event * float)) (s : Playback) :
  speed_in_bounds s -> speed_in_bounds (run_frames times s frames).
Proof.
  revert s. induction frames as [| f frames IH]; intros s Hs; simpl.
  - exact Hs.
  - pose proof (frame_step_speed times s f Hs) as Hstep.
    destruct (running (frame_step times s f)); [apply IH |]; exact Hstep.
Qed.

(** *** What [viewer_setup] fixes *)

Lemma map_nth_seq {A B : Type} (f : A -> B) (d : A) (l : list A) :
  map (fun i => f (nth i l d)) (seq 0 (length l)) = map f l.
Proof.
  induction l as [| a l IH]; simpl; [reflexivity |].
  f_equal. rewrite <- seq_shift, map_map. exact IH.
Qed.

Lemma viewer_setup_inv `{DataFrameSort} (telemetry : Frame)
  (session : Session) (v : Viewer) :
  viewer_setup telemetry session = Some v ->
  exists lap_df,
    laps session = Some lap_df
    /\ total_laps_of lap_df = Some (total_laps v)
    /\ drivers v = unique String.eqb (map row_driver (rows telemetry))
    /\ driver_positions v
       = map (fun drv => (drv, driver_position lap_df drv)) (drivers v)
    /\ map base (telemetry_rows v) = rows telemetry
    /\ times v = np_sort (unique same_value (map row_time (rows telemetry)))
    /\ times v <> []
    /\ driver_data v
       = map (fun drv => (drv, driver_arrays (telemetry_rows v) drv))
           (drivers v)
    /\ lap_distance_margin v
       = lap_distance_margin_of (map row_distance (rows telemetry))
    /\ (status_times v, status_codes v)
       = align_stream (telemetry_abs_min_of telemetry) (status_data session).
Proof.
  unfold viewer_setup. intro Hv.
  destruct (laps session) as [lap_df |]; [| discriminate].
  destruct (total_laps_of lap_df) as [tl |] eqn:Etl; [| discriminate].
  destruct (align_stream (telemetry_abs_min_of telemetry) (status_data session))
    as [sts scs].
  destruct (align_stream (telemetry_abs_min_of telemetry)
              (race_control_messages session)) as [mts mss].
  destruct (normalize_coords _ _ _ _ _) as [[nx ny] |]; [| discriminate].
  set (telemetry' := map _ (seq 0 (length (rows telemetry)))) in Hv.
  assert (Hbase : map base telemetry' = rows telemetry).
  { subst telemetry'. rewrite map_map. simpl.
    rewrite (map_nth_seq (fun r => r)). apply map_id. }
  assert (Htimes : map screen_time telemetry' = map row_time (rows telemetry)).
  { rewrite <- Hbase. rewrite map_map. reflexivity. }
  rewrite Htimes in Hv.
  destruct (np_sort (unique same_value (map row_time (rows telemetry))))
    as [| t0 ts] eqn:Ets; [discriminate |].
  injection Hv as <-. simpl.
  exists lap_df. repeat split; try assumption; try reflexivity.
  discriminate.
Qed.

Lemma unique_by_In {A : Type} (eqb : A -> A -> bool) (seen l : list A)
  (a : A) : In a (unique_by eqb seen l) -> In a l.
Proof.
  revert seen. induction l as [| b l IH]; intros seen; simpl; [tauto |].
  destruct (existsb (eqb b) seen).
  - intro Hin. right. eapply IH. exact Hin.
  - intros [-> | Hin]; [left; reflexivity | right; eapply IH; exact Hin].
Qed.

Lemma np_sort_sorted (l : list float) : StronglySorted np_le (np_sort l).
Proof.
  pose proof (stable_sort_values_sorted (fun a : float => a) l) as Hs.
  rewrite map_id in Hs. exact Hs.
Qed.

Lemma last_nth (l : list float) (d : float) :
  last l d = nth (length l - 1) l d.
Proof.
  induction l as [| a l IH]; [reflexivity |].
  destruct l as [| b l']; [reflexivity |].
  change (last (a :: b :: l') d) with (last (b :: l') d).
  rewrite IH. simpl. rewrite Nat.sub_0_r. reflexivity.
Qed.

(** With numbers only in the 'time' column, [times] starts at a number
    [lo] and ends at a number [hi >= lo]. *)
Lemma times_bounds `{DataFrameSort} (telemetry : Frame) (session : Session)
  (v : Viewer) :
  viewer_setup telemetry session = Some v ->
  Forall (fun r => finite (row_time r)) (rows telemetry) ->
  exists lo hi,
    first_time (times v) = Fin lo /\ last_time (times v) = Fin hi /\ lo <= hi.
Proof.
  intros Hv Hfin.
  destruct (viewer_setup_inv telemetry session v Hv)
    as (lap_df & _ & _ & _ & _ & _ & Htimes & Hne & _).
  assert (Hall : forall a, In a (times v) -> finite a).
  { intros a Ha. rewrite Htimes in Ha.
    apply (Permutation_in _ (stable_sort_perm _ _)) in Ha.
    apply unique_by_In in Ha. apply in_map_iff in Ha.
    destruct Ha as (r & <- & Hr).
    rewrite Forall_forall in Hfin. apply Hfin. exact Hr. }
  assert (Hs : StronglySorted np_le (times v)).
  { rewrite Htimes. apply np_sort_sorted. }
  assert (Hlen : (0 < length (times v))%nat).
  { destruct (times v); [congruence | simpl; lia]. }
  unfold first_time, last_time. rewrite last_nth.
  assert (H0 : hd NaN (times v) = nth 0 (times v) NaN)
    by (destruct (times v); reflexivity).
  rewrite H0.
  destruct (Hall (nth 0 (times v) NaN)) as (lo & Hlo);
    [apply nth_In; lia |].
  destruct (Hall (nth (length (times v) - 1) (times v) NaN)) as (hi & Hhi);
    [apply nth_In; lia |].
  exists lo, hi. repeat split; try assumption.
  pose proof (StronglySorted_nth _ Hs 0 (length (times v) - 1) ltac:(lia))
    as Hle.
  rewrite Hlo, Hhi in Hle. unfold np_le in Hle. simpl in Hle.
  apply Qltb_ge in Hle. exact Hle.
Qed.

(** From the initial playback state, after any sequence of frames (each a
    list of events followed by a tick of [dt] wall seconds) [speed] is a
    number within [0.125, 128]; and for a viewer whose timeline times are
    numbers [sim_time] is a number within [times[0], times[-1]]. *)
Theorem playback_clock_bounded `{DataFrameSort} (telemetry : Frame)
  (session : Session) (v : Viewer) (frames : list (list Event * Q)) :
  viewer_setup telemetry session = Some v ->
  (forall raw_frames : list (list Event * float),
      speed_in_bounds
        (run_frames (times v) (initial_playback (times v)) raw_frames))
  /\ (Forall (fun r => finite (row_time r)) (rows telemetry) ->
      exists lo hi,
        first_time (times v) = Fin lo /\ last_time (times v) = Fin hi
        /\ clock_in_bounds lo hi
             (run_frames (times v) (initial_playback (times v))
                (map (fun f => (fst f, Fin (snd f))) frames))).
Proof.
  intro Hv. split.
  - intro raw_frames. apply run_frames_speed.
    exists 4. split; [reflexivity | lra].
  - intro Hfin.
    destruct (times_bounds telemetry session v Hv Hfin)
      as (lo & hi & Hlo & Hhi & Hle).
    exists lo, hi. repeat split; try assumption.
    pose proof (initial_in_bounds (times v) lo hi Hlo Hle) as Hinit.
    revert Hinit. generalize (initial_playback (times v)) as s.
    induction frames as [| [events dt] frames IH]; intros s Hs; simpl.
    + exact Hs.
    + pose proof (frame_step_in_bounds (times v) lo hi Hlo Hhi Hle s events dt
                    Hs) as Hstep.
      destruct (running (frame_step (times v) s (events, Fin dt))).
      * apply IH. exact Hstep.
      * exact Hstep.
Qed.

Lemma notna_finite {A : Type} (f : A -> float) (l : list A) :
  forallb (fun r => notna (f r)) l = true -> Forall (fun r => finite (f r)) l.
Proof.
  rewrite forallb_forall, Forall_forall. intros Hall r Hr.
  specialize (Hall r Hr). destruct (f r) as [| q]; [discriminate |].
  exists q. reflexivity.
Qed.

Lemma playback_clock_bounded_witness :
  exists lo hi,
    first_time (times demo_viewer) = Fin lo
    /\ last_time (times demo_viewer) = Fin hi
    /\ clock_in_bounds lo hi
         (run_frames (times demo_viewer) (initial_playback (times demo_viewer))
            (map (fun f => (fst f, Fin (snd f)))
               [([KEYDOWN K_UP; KEYDOWN K_UP], 1 # 60);
                ([KEYDOWN K_SPACE; KEYDOWN K_LEFT; KEYDOWN K_LEFT], 1 # 60);
                ([KEYDOWN K_SPACE; KEYDOWN K_DOWN], 5)])).
Proof.
  refine (proj2 (@playback_clock_bounded StableSort demo_frame demo_session
                   demo_viewer _ _) _).
  - vm_compute. reflexivity.
  - apply notna_finite. vm_compute. reflexivity.
Defined.

(** C7.  The clock on the timeline built from [open_ended_session], one
    lap with a sample at session time 100 and a sample with a position but
    NaT as session time: the times are 0 and NaN, [times[-1]] is NaN, no
    comparison with it clamps, and after one playing tick of one second
    [sim_time] is 4, above every time of the timeline that is a number. *)
Theorem clock_leaves_timeline_without_time :
  @collect_session_telemetry StableSort open_ended_session
  = Some open_ended_frame
  /\ @viewer_setup StableSort open_ended_frame open_ended_session
     = Some open_ended_viewer
  /\ map row_time (rows open_ended_frame) = [Fin 0; NaN]
  /\ times open_ended_viewer = [Fin 0; NaN]
  /\ sim_time
       (run_frames (times open_ended_viewer)
          (initial_playback (times open_ended_viewer)) [([], Fin 1)])
     = Fin 4
  /\ fle (Fin 4) (last_time (times open_ended_viewer)) = false
  /\ forall q, In (Fin q) (times open_ended_viewer) -> q < 4.
Proof.
  split; [vm_compute; reflexivity |].
  split; [vm_compute; reflexivity |].
  split; [vm_compute; reflexivity |].
  assert (Htimes : times open_ended_viewer = [Fin 0; NaN])
    by (vm_compute; reflexivity).
  split; [exact Htimes |].
  split; [vm_compute; reflexivity |].
  split; [vm_compute; reflexivity |].
  intros q Hq. rewrite Htimes in Hq.
  destruct Hq as [Hq | [Hq | []]]; [| discriminate].
  injection Hq as <-. lra.
Qed.

(** ** C3: the lap number dominates the progress score *)

Lemma nanmax_upper (l : list float) (d : Q) :
  In (Fin d) l -> exists m, nan_reduce fmax2 l = Fin m /\ d <= m.
Proof.
  induction l as [| a l IH]; simpl; [tauto |].
  intros [-> | Hin].
  - destruct (nan_reduce fmax2 l) as [| r] eqn:E.
    + exists d. split; [reflexivity | lra].
    + unfold fmax2. destruct (flt (Fin d) (Fin r)) eqn:Elt.
      * apply flt_Fin in Elt. exists r. split; [reflexivity | lra].
      * exists d. split; [reflexivity | lra].
  - destruct (IH Hin) as (m & Hm & Hle). rewrite Hm.
    destruct a as [| p].
    + exists m. split; [reflexivity | exact Hle].
    + unfold fmax2. destruct (flt (Fin p) (Fin m)) eqn:Elt.
      * exists m. split; [reflexivity | exact Hle].
      * apply flt_Fin_false in Elt. exists p. split; [reflexivity | lra].
Qed.

(** The margin is a number, at least 1000, and more than 100 above every
    distance of the dataset that is a number. *)
Lemma lap_distance_margin_bounds (all_distances : list float) :
  exists mg,
    lap_distance_margin_of all_distances = Fin mg
    /\ 1000 <= mg
    /\ forall d, In (Fin d) all_distances -> d + 100 <= mg.
Proof.
  unfold lap_distance_margin_of, np_nanmax, py_max, fgt.
  destruct all_distances as [| a l].
  - simpl. exists 1000. repeat split; try lra. intros d [].
  - set (all := a :: l).
    destruct (nan_reduce fmax2 all) as [| m] eqn:E.
    + simpl. exists 1000. repeat split; try lra.
      intros d Hd. destruct (nanmax_upper all d Hd) as (m' & Hm' & _).
      congruence.
    + simpl fadd.
      destruct (flt (Fin 1000) (Fin (m + 100))) eqn:Elt.
      * apply flt_Fin in Elt. exists (m + 100). repeat split; try lra.
        intros d Hd. destruct (nanmax_upper all d Hd) as (m' & Hm' & Hle).
        rewrite E in Hm'. injection Hm' as <-. lra.
      * apply flt_Fin_false in Elt. exists 1000. repeat split; try lra.
        intros d Hd. destruct (nanmax_upper all d Hd) as (m' & Hm' & Hle).
        rewrite E in Hm'. injection Hm' as <-. lra.
Qed.

Lemma snapshot_index_range (t_arr : list float) (t : float) :
  t_arr <> [] ->
  (Z.to_nat (snapshot_index t_arr t) < length t_arr)%nat.
Proof.
  intro Hne.
  assert (Hlen : (0 < length t_arr)%nat).
  { destruct t_arr; [congruence | simpl; lia]. }
  unfold snapshot_index.
  destruct (Z.ltb_spec (Z.of_nat (searchsorted_right t_arr t) - 1) 0).
  - simpl. lia.
  - destruct (Z.geb_spec (Z.of_nat (searchsorted_right t_arr t) - 1)
                (Z.of_nat (length t_arr))); lia.
Qed.

Lemma filter_map_In {A B : Type} (f : A -> option B) (l : list A) (b : B) :
  In b (filter_map f l) <-> exists a, In a l /\ f a = Some b.
Proof.
  induction l as [| a l IH]; simpl.
  - split; [tauto | intros (a & [] & _)].
  - destruct (f a) as [b' |] eqn:E; simpl; rewrite IH; split.
    + intros [<- | (a' & Ha' & Hf)]; eauto.
    + intros (a' & [<- | Ha'] & Hf); [left; congruence | right; eauto].
    + intros (a' & Ha' & Hf). eauto.
    + intros (a' & [<- | Ha'] & Hf); [congruence | eauto].
Qed.

(** An entry of [driver_stats] is the snapshot of that driver's arrays. *)
Lemma driver_stats_at_In `{DataFrameSort} (telemetry : Frame)
  (session : Session) (v : Viewer) (t : float) (drv : string)
  (st : DriverSnapshot) :
  viewer_setup telemetry session = Some v ->
  In (drv, st) (driver_stats_at v t) ->
  In drv (drivers v)
  /\ driver_snapshot (lap_distance_margin v)
       (driver_arrays (telemetry_rows v) drv) t = Some st.
Proof.
  intros Hv Hin.
  destruct (viewer_setup_inv telemetry session v Hv)
    as (lap_df & _ & _ & _ & _ & _ & _ & _ & Hdata & _).
  unfold driver_stats_at in Hin. apply filter_map_In in Hin.
  destruct Hin as ([drv' data] & Hitem & Hsnap). simpl in Hsnap.
  rewrite Hdata in Hitem. apply in_map_iff in Hitem.
  destruct Hitem as (d & Hd & Hdin). injection Hd as <- <-.
  destruct (driver_snapshot _ _ t) as [st' |] eqn:E; [| discriminate].
  injection Hsnap as <- <-. split; assumption.
Qed.

(** A snapshot carries the distance of a row of the dataset, and its
    score is [lap * lap_distance_margin + distance]. *)
Lemma snapshot_from_dataset `{DataFrameSort} (telemetry : Frame)
  (session : Session) (v : Viewer) (t : float) (drv : string)
  (st : DriverSnapshot) :
  viewer_setup telemetry session = Some v ->
  In (drv, st) (driver_stats_at v t) ->
  In (st_distance st) (map row_distance (rows telemetry))
  /\ progress_score st
     = fadd (fmul (of_int (st_lap st)) (lap_distance_margin v))
         (st_distance st).
Proof.
  intros Hv Hin.
  destruct (driver_stats_at_In telemetry session v t drv st Hv Hin)
    as (_ & Hsnap).
  destruct (viewer_setup_inv telemetry session v Hv)
    as (lap_df & _ & _ & _ & _ & Hbase & _).
  unfold driver_snapshot in Hsnap.
  set (data := driver_arrays (telemetry_rows v) drv) in *.
  destruct (d_time data) as [| t0 ts] eqn:Et; [discriminate |].
  injection Hsnap as <-. simpl. split; [| reflexivity].
  assert (Hrange : (Z.to_nat (snapshot_index (t0 :: ts) t)
                    < length (d_distance data))%nat).
  { replace (length (d_distance data)) with (length (d_time data)).
    - rewrite Et. apply snapshot_index_range. discriminate.
    - subst data. unfold driver_arrays. simpl. now rewrite !length_map. }
  pose proof (nth_In (d_distance data) (Fin 0) Hrange) as Hnth.
  subst data. unfold driver_arrays in Hnth. simpl in Hnth.
  apply in_map_iff in Hnth. destruct Hnth as (r & Hr & Hrin).
  apply (Permutation_in _ (sort_values_perm _ _ _)) in Hrin.
  apply filter_In in Hrin. destruct Hrin as (Hrin & _).
  unfold driver_arrays. simpl. rewrite <- Hr.
  rewrite <- Hbase. rewrite map_map.
  apply in_map_iff. exists r. split; [reflexivity | exact Hrin].
Qed.

(** C3 (amended).  For two snapshots of a viewer's dataset whose distances
    are numbers, the first one not negative: a larger lap number gives a
    strictly larger progress score; the margin is a number above both the
    second distance plus 100 and 1000. *)
Theorem lap_dominates_progress `{DataFrameSort} (telemetry : Frame)
  (session : Session) (v : Viewer) (tA tB : float) (a b : string)
  (sa sb : DriverSnapshot) (dA dB : Q) :
  viewer_setup telemetry session = Some v ->
  In (a, sa) (driver_stats_at v tA) ->
  In (b, sb) (driver_stats_at v tB) ->
  st_distance sa = Fin dA ->
  st_distance sb = Fin dB ->
  0 <= dA ->
  (st_lap sa > st_lap sb)%Z ->
  flt (progress_score sb) (progress_score sa) = true
  /\ exists mg, lap_distance_margin v = Fin mg /\ dB + 100 <= mg.
Proof.
  intros Hv HA HB EA EB HdA Hlap.
  destruct (snapshot_from_dataset telemetry session v tA a sa Hv HA)
    as (_ & HsA).
  destruct (snapshot_from_dataset telemetry session v tB b sb Hv HB)
    as (HinB & HsB).
  destruct (viewer_setup_inv telemetry session v Hv)
    as (lap_df & _ & _ & _ & _ & _ & _ & _ & _ & Hmargin & _).
  destruct (lap_distance_margin_bounds (map row_distance (rows telemetry)))
    as (mg & Hmg & H1000 & Habove).
  rewrite <- Hmargin in Hmg.
  rewrite EB in HinB. specialize (Habove dB HinB).
  split; [| exists mg; split; assumption].
  rewrite HsA, HsB, Hmg, EA, EB. unfold of_int. simpl.
  apply Qltb_lt.
  assert (Hl : inject_Z (st_lap sb) + 1 <= inject_Z (st_lap sa)).
  { assert (Hz : inject_Z (st_lap sb + 1) <= inject_Z (st_lap sa))
      by (rewrite <- Zle_Qle; lia).
    rewrite inject_Z_plus in Hz. exact Hz. }
  assert (Hmul : (inject_Z (st_lap sb) + 1) * mg <= inject_Z (st_lap sa) * mg).
  { apply Qmult_le_compat_r; lra. }
  lra.
Qed.

Lemma lap_dominates_progress_witness :
  flt (Fin 0) (Fin 1050) = true
  /\ exists mg, lap_distance_margin demo_viewer = Fin mg /\ 0 + 100 <= mg.
Proof.
  apply (@lap_dominates_progress StableSort demo_frame demo_session
           demo_viewer (Fin 12) (Fin 12) "A" "B"
           (mkDriverSnapshot (Fin 10) 1 (Fin 50) 300 760 (Fin 1050))
           (mkDriverSnapshot (Fin 0) 0 (Fin 0) 40 630 (Fin 0)) 50 0).
  - vm_compute. reflexivity.
  - vm_compute. left. reflexivity.
  - vm_compute. right. left. reflexivity.
  - reflexivity.
  - reflexivity.
  - lra.
  - simpl. lia.
Defined.

(** C3 as stated fails when a distance is negative or NaN.  In the dataset
    built from [backward_session] with distance -1500 driver A is a lap
    ahead of driver B, yet A's score (1 * 1000 - 1500) is below B's (0);
    with a NaN distance A's score is NaN, which is above nothing. *)
Lemma lap_dominates_progress_counterexample :
  (@collect_session_telemetry StableSort (backward_session (Fin (-1500)))
   = Some (backward_frame (Fin (-1500)))
   /\ @viewer_setup StableSort (backward_frame (Fin (-1500)))
        (backward_session (Fin (-1500)))
      = Some (backward_viewer (Fin (-1500)))
   /\ exists sa sb,
       In ("A"%string, sa)
         (driver_stats_at (backward_viewer (Fin (-1500))) (Fin 0))
       /\ In ("B"%string, sb)
            (driver_stats_at (backward_viewer (Fin (-1500))) (Fin 0))
       /\ (st_lap sa > st_lap sb)%Z
       /\ progress_score sa = Fin (-500)
       /\ progress_score sb = Fin 0
       /\ flt (progress_score sb) (progress_score sa) = false)
  /\ (@collect_session_telemetry StableSort (backward_session NaN)
      = Some (backward_frame NaN)
      /\ @viewer_setup StableSort (backward_frame NaN) (backward_session NaN)
         = Some (backward_viewer NaN)
      /\ exists sa sb,
          In ("A"%string, sa) (driver_stats_at (backward_viewer NaN) (Fin 0))
          /\ In ("B"%string, sb)
               (driver_stats_at (backward_viewer NaN) (Fin 0))
          /\ (st_lap sa > st_lap sb)%Z
          /\ progress_score sa = NaN
          /\ flt (progress_score sb) (progress_score sa) = false).
Proof.
  split.
  - split; [vm_compute; reflexivity |].
    split; [vm_compute; reflexivity |].
    exists (mkDriverSnapshot (Fin 0) 1 (Fin (-1500)) 40 760 (Fin (-500))).
    exists (mkDriverSnapshot (Fin 0) 0 (Fin 0) 40 40 (Fin 0)).
    repeat split; try reflexivity.
    + vm_compute. left. reflexivity.
    + vm_compute. right. left. reflexivity.
  - split; [vm_compute; reflexivity |].
    split; [vm_compute; reflexivity |].
    exists (mkDriverSnapshot (Fin 0) 1 NaN 40 760 NaN).
    exists (mkDriverSnapshot (Fin 0) 0 (Fin 0) 40 40 (Fin 0)).
    repeat split; try reflexivity.
    + vm_compute. left. reflexivity.
    + vm_compute. right. left. reflexivity.
Qed.

(** ** C6: the gap labels *)

Lemma fmt_time_Fin (q : Q) : exists s, fmt_time (Fin q) = Some s.
Proof.
  unfold fmt_time. destruct (flt (Fin q) (Fin 0)); eauto.
Qed.

Lemma py_max_zero (a : float) :
  exists g, py_max (Fin 0) a = Fin g /\ 0 <= g.
Proof.
  unfold py_max, fgt. destruct a as [| q]; simpl.
  - exists 0. split; [reflexivity | lra].
  - destruct (Qltb 0 q) eqn:E.
    + apply Qltb_lt in E. exists q. split; [reflexivity | lra].
    + exists 0. split; [reflexivity | lra].
Qed.

(** The special case for differences in (-0.001, 0) changes nothing that
    [max(0.0, gap_sec)] would not do. *)
Lemma gap_jitter_absorbed (gap_sec : float) :
  py_max (Fin 0)
    (if flt gap_sec (Fin 0) && fgt gap_sec (Fin (- (1 # 1000)))
     then Fin 0 else gap_sec)
  = py_max (Fin 0) gap_sec.
Proof.
  destruct gap_sec as [| q]; [reflexivity |].
  destruct (flt (Fin q) (Fin 0)) eqn:E; [| reflexivity].
  destruct (fgt (Fin q) (Fin (- (1 # 1000)))); [| reflexivity].
  cbn [andb]. unfold py_max, fgt.
  apply flt_Fin in E.
  assert (Hq : flt (Fin 0) (Fin q) = false) by (apply flt_Fin_false; lra).
  rewrite Hq.
  assert (H0 : flt (Fin 0) (Fin 0) = false) by (apply flt_Fin_false; lra).
  rewrite H0. reflexivity.
Qed.

Lemma gap_str_same_lap (leader_time : float) (leader_lap pos : Z)
  (info : DriverSnapshot) :
  st_lap info = leader_lap -> pos <> 1%Z ->
  gap_str leader_time leader_lap pos info
  = match fmt_time (py_max (Fin 0) (fsub leader_time (st_time info))) with
    | Some s => Some (" +" ++ s)%string
    | None => None
    end.
Proof.
  intros Hlap Hpos. unfold gap_str.
  rewrite Hlap, Z.eqb_refl.
  destruct (Z.eqb_spec pos 1); [contradiction |].
  rewrite gap_jitter_absorbed. reflexivity.
Qed.

Lemma gap_str_other_lap (leader_time : float) (leader_lap pos : Z)
  (info : DriverSnapshot) :
  st_lap info <> leader_lap ->
  gap_str leader_time leader_lap pos info
  = if (leader_lap - st_lap info <=? 0)%Z then Some ""%string
    else if (leader_lap - st_lap info =? 1)%Z then Some " +1 lap"%string
    else Some (" +" ++ str_of_Z (leader_lap - st_lap info) ++ " laps")%string.
Proof.
  intro Hlap. unfold gap_str.
  destruct (Z.eqb_spec (st_lap info) leader_lap); [contradiction |].
  reflexivity.
Qed.

(** Line [k] of the board is made from entry [k], at position [pos + k]. *)
Lemma board_lines_nth (leader_time : float) (leader_lap : Z)
  (entries : list (string * DriverSnapshot)) :
  forall (pos : Z) (lines : list BoardLine) (k : nat) (drv : string)
         (info : DriverSnapshot),
    board_lines leader_time leader_lap pos entries = Some lines ->
    nth_error entries k = Some (drv, info) ->
    exists line,
      nth_error lines k = Some line
      /\ line_pos line = (pos + Z.of_nat k)%Z
      /\ line_drv line = drv
      /\ fmt_time (st_time info) = Some (line_time_str line)
      /\ gap_str leader_time leader_lap (pos + Z.of_nat k) info
         = Some (line_gap_str line).
Proof.
  induction entries as [| [d i] entries IH]; intros pos lines k drv info Hb Hk.
  - destruct k; discriminate.
  - simpl in Hb.
    destruct (fmt_time (st_time i)) as [time_str |] eqn:Et; [| discriminate].
    destruct (gap_str leader_time leader_lap pos i) as [gap |] eqn:Eg;
      [| discriminate].
    destruct (board_lines leader_time leader_lap (pos + 1) entries)
      as [rest |] eqn:Er; [| discriminate].
    injection Hb as <-.
    destruct k as [| k].
    + simpl in Hk. injection Hk as -> ->.
      eexists. split; [reflexivity |]. simpl.
      rewrite Z.add_0_r. repeat split; assumption.
    + simpl in Hk.
      destruct (IH (pos + 1)%Z rest k drv info Er Hk)
        as (line & Hl & Hp & Hd & Ht & Hg).
      exists line. simpl.
      replace (pos + Z.pos (Pos.of_succ_nat k))%Z
        with (pos + 1 + Z.of_nat k)%Z by lia.
      repeat split; assumption.
Qed.

(** C6.  On the leaderboard of a frame, for the entry at rank [k + 1 > 1]
    with the leader at rank 1: on the leader's lap the gap text is " +"
    followed by the formatted [max(0, leader.time - entry.time)], which is
    the formatted zero whenever the difference is not positive; off the
    leader's lap it is " +1 lap" for a lap difference of 1, " +N laps" for
    a larger one and empty for a difference that is not positive. *)
Theorem gap_labels (v : Viewer) (sim_time : float) (lines : list BoardLine)
  (leader_drv drv : string) (leader info : DriverSnapshot) (k : nat) :
  leaderboard v sim_time = Some lines ->
  nth_error (sorted_drivers_at v sim_time) 0 = Some (leader_drv, leader) ->
  nth_error (sorted_drivers_at v sim_time) k = Some (drv, info) ->
  (0 < k)%nat ->
  exists line,
    nth_error lines k = Some line
    /\ line_drv line = drv
    /\ line_pos line = (Z.of_nat k + 1)%Z
    /\ (st_lap info = st_lap leader ->
        (exists s,
            fmt_time (py_max (Fin 0) (fsub (st_time leader) (st_time info)))
            = Some s
            /\ line_gap_str line = (" +" ++ s)%string)
        /\ (forall d, fsub (st_time leader) (st_time info) = Fin d ->
                      d <= 0 -> line_gap_str line = " +0:00.000"%string))
    /\ (st_lap info <> st_lap leader ->
        ((st_lap leader - st_lap info = 1)%Z ->
         line_gap_str line = " +1 lap"%string)
        /\ ((st_lap leader - st_lap info > 1)%Z ->
            line_gap_str line
            = (" +" ++ str_of_Z (st_lap leader - st_lap info)
                    ++ " laps")%string)
        /\ ((st_lap leader - st_lap info <= 0)%Z ->
            line_gap_str line = ""%string)).
Proof.
  intros Hboard Hleader Hentry Hk.
  unfold leaderboard in Hboard.
  destruct (sorted_drivers_at v sim_time) as [| [d0 i0] rest] eqn:Es;
    [discriminate |].
  simpl in Hleader. injection Hleader as -> ->.
  destruct (board_lines_nth _ _ _ _ _ _ _ _ Hboard Hentry)
    as (line & Hl & Hp & Hd & _ & Hg).
  exists line. repeat split; try assumption; try lia.
  - pose proof (gap_str_same_lap (st_time leader) (st_lap leader)
                  (1 + Z.of_nat k) info H ltac:(lia)) as Hsame.
    rewrite Hg in Hsame.
    destruct (fmt_time _) as [s |]; [| discriminate].
    injection Hsame as ->. exists s. split; reflexivity.
  - intros d Hd0 Hle.
    pose proof (gap_str_same_lap (st_time leader) (st_lap leader)
                  (1 + Z.of_nat k) info H ltac:(lia)) as Hsame.
    rewrite Hg, Hd0 in Hsame.
    assert (Hmax : py_max (Fin 0) (Fin d) = Fin 0).
    { unfold py_max, fgt.
      assert (Hf : flt (Fin 0) (Fin d) = false) by (apply flt_Fin_false; lra).
      rewrite Hf. reflexivity. }
    rewrite Hmax in Hsame.
    assert (Hz : fmt_time (Fin 0) = Some "0:00.000"%string)
      by (vm_compute; reflexivity).
    rewrite Hz in Hsame. simpl in Hsame. congruence.
  - intro Hdiff.
    pose proof (gap_str_other_lap (st_time leader) (st_lap leader)
                  (1 + Z.of_nat k) info H) as Hoth.
    rewrite Hg, Hdiff in Hoth. simpl in Hoth. congruence.
  - intro Hdiff.
    pose proof (gap_str_other_lap (st_time leader) (st_lap leader)
                  (1 + Z.of_nat k) info H) as Hoth.
    rewrite Hg in Hoth.
    destruct (Z.leb_spec (st_lap leader - st_lap info) 0); [lia |].
    destruct (Z.eqb_spec (st_lap leader - st_lap info) 1); [lia |].
    congruence.
  - intro Hdiff.
    pose proof (gap_str_other_lap (st_time leader) (st_lap leader)
                  (1 + Z.of_nat k) info H) as Hoth.
    rewrite Hg in Hoth.
    destruct (Z.leb_spec (st_lap leader - st_lap info) 0); [| lia].
    congruence.
Qed.

Lemma gap_labels_witness :
  exists line,
    nth_error
      [mkBoardLine 1 "A" "0:10.000" ""; mkBoardLine 2 "B" "0:00.000" " +1 lap"]
      1 = Some line
    /\ line_gap_str line = " +1 lap"%string.
Proof.
  destruct (gap_labels demo_viewer (Fin 12)
              [mkBoardLine 1 "A" "0:10.000" "";
               mkBoardLine 2 "B" "0:00.000" " +1 lap"]
              "A" "B"
              (mkDriverSnapshot (Fin 10) 1 (Fin 50) 300 760 (Fin 1050))
              (mkDriverSnapshot (Fin 0) 0 (Fin 0) 40 630 (Fin 0)) 1)
    as (line & Hline & _ & _ & _ & Hother).
  - vm_compute. reflexivity.
  - vm_compute. reflexivity.
  - vm_compute. reflexivity.
  - lia.
  - exists line. split; [exact Hline |].
    apply Hother; [discriminate | reflexivity].
Defined.

(** ** Python's [sorted] on keys that are numbers *)

Lemma StronglySorted_weaken {A : Type} (R R' : A -> A -> Prop) (l : list A) :
  (forall a b, R a b -> R' a b) ->
  StronglySorted R l -> StronglySorted R' l.
Proof.
  intros Himp Hs. induction Hs as [| a l Hs IH Hall]; constructor.
  - exact IH.
  - eapply Forall_impl; [| exact Hall]. intros b. apply Himp.
Qed.

Section KeyedSort.
Context {A : Type}.
Variable rank : A -> Q.
Variable less : A -> A -> bool.

(** [less] compares the ranks of the elements of [l]. *)
Definition ranks_on (l : list A) : Prop :=
  forall a b, In a l -> In b l -> less a b = Qltb (rank a) (rank b).

Definition rank_le (a b : A) : Prop := rank a <= rank b.

Lemma ranks_on_tail (a : A) (l : list A) : ranks_on (a :: l) -> ranks_on l.
Proof.
  intros Hr x y Hx Hy. apply Hr; right; assumption.
Qed.

Lemma insert_before_rank_sorted (a : A) (l : list A) :
  ranks_on (a :: l) ->
  StronglySorted rank_le l ->
  StronglySorted rank_le (insert_before less a l).
Proof.
  intros Hr Hs. induction Hs as [| b l Hs IH Hall]; simpl.
  - constructor; constructor.
  - rewrite (Hr b a) by (simpl; auto).
    destruct (Qltb (rank b) (rank a)) eqn:E.
    + apply Qltb_lt in E.
      constructor.
      * apply IH. intros x y Hx Hy. apply Hr; simpl in *; tauto.
      * rewrite Forall_forall in *. intros c Hc.
        apply (Permutation_in _ (insert_before_perm less a l)) in Hc.
        destruct Hc as [<- | Hc].
        -- unfold rank_le. lra.
        -- apply Hall. exact Hc.
    + apply Qltb_ge in E.
      constructor; [constructor; assumption |].
      constructor; [exact E |].
      rewrite Forall_forall in *. intros c Hc.
      specialize (Hall c Hc). unfold rank_le in *. lra.
Qed.

Lemma stable_sort_rank_sorted (l : list A) :
  ranks_on l -> StronglySorted rank_le (stable_sort less l).
Proof.
  induction l as [| a l IH]; intro Hr; simpl.
  - constructor.
  - apply insert_before_rank_sorted.
    + intros x y Hx Hy. apply Hr.
      * destruct Hx as [<- | Hx]; [left; reflexivity | right].
        apply (Permutation_in _ (stable_sort_perm less l)). exact Hx.
      * destruct Hy as [<- | Hy]; [left; reflexivity | right].
        apply (Permutation_in _ (stable_sort_perm less l)). exact Hy.
    + apply IH. eapply ranks_on_tail. exact Hr.
Qed.

(** Stability: the elements of any one rank keep their order. *)
Lemma insert_before_rank_stable (k : Q) (a : A) (l : list A) :
  ranks_on (a :: l) ->
  filter (fun x => Qeq_bool (rank x) k) (insert_before less a l)
  = filter (fun x => Qeq_bool (rank x) k) (a :: l).
Proof.
  intro Hr. induction l as [| b l IH]; [reflexivity |].
  cbn [insert_before]. rewrite (Hr b a) by (simpl; auto).
  destruct (Qltb (rank b) (rank a)) eqn:E; [| reflexivity].
  apply Qltb_lt in E.
  cbn [filter]. rewrite IH.
  - cbn [filter].
    destruct (Qeq_bool (rank b) k) eqn:Eb, (Qeq_bool (rank a) k) eqn:Ea;
      try reflexivity.
    apply Qeq_bool_iff in Eb. apply Qeq_bool_iff in Ea. lra.
  - intros x y Hx Hy. apply Hr; simpl in *; tauto.
Qed.

Lemma stable_sort_rank_stable (k : Q) (l : list A) :
  ranks_on l ->
  filter (fun x => Qeq_bool (rank x) k) (stable_sort less l)
  = filter (fun x => Qeq_bool (rank x) k) l.
Proof.
  induction l as [| a l IH]; intro Hr; [reflexivity |].
  cbn [stable_sort fold_right].
  change (fold_right (insert_before less) [] l) with (stable_sort less l).
  rewrite insert_before_rank_stable.
  - cbn [filter]. rewrite IH by (eapply ranks_on_tail; exact Hr).
    reflexivity.
  - intros x y Hx Hy. apply Hr.
    + destruct Hx as [<- | Hx]; [left; reflexivity | right].
      apply (Permutation_in _ (stable_sort_perm less l)). exact Hx.
    + destruct Hy as [<- | Hy]; [left; reflexivity | right].
      apply (Permutation_in _ (stable_sort_perm less l)). exact Hy.
Qed.
End KeyedSort.

Lemma finite_qval (a : float) : finite a -> a = Fin (qval a).
Proof. intros (q & ->). reflexivity. Qed.

Lemma py_sorted_ranks {A : Type} (key : A -> float) (l : list A) :
  Forall (fun x => finite (key x)) l ->
  ranks_on (fun x => qval (key x)) (fun a b => flt (key a) (key b)) l.
Proof.
  rewrite Forall_forall. intros Hfin a b Ha Hb.
  rewrite (finite_qval _ (Hfin a Ha)), (finite_qval _ (Hfin b Hb)).
  reflexivity.
Qed.

Lemma py_sorted_reverse_ranks {A : Type} (key : A -> float) (l : list A) :
  Forall (fun x => finite (key x)) l ->
  ranks_on (fun x => - qval (key x)) (fun a b => flt (key b) (key a)) l.
Proof.
  rewrite Forall_forall. intros Hfin a b Ha Hb.
  rewrite (finite_qval _ (Hfin a Ha)), (finite_qval _ (Hfin b Hb)).
  simpl. unfold Qltb. f_equal.
  destruct (Qle_bool (qval (key a)) (qval (key b))) eqn:E1,
           (Qle_bool (- qval (key b)) (- qval (key a))) eqn:E2;
    try reflexivity.
  - apply Qle_bool_iff in E1.
    assert (H2 : - qval (key b) <= - qval (key a)) by lra.
    apply Qle_bool_iff in H2. congruence.
  - apply Qle_bool_iff in E2.
    assert (H1 : qval (key a) <= qval (key b)) by lra.
    apply Qle_bool_iff in H1. congruence.
Qed.

(** [sorted(l, key=key)]: a permutation in ascending key order that keeps
    the order of equal keys. *)
Lemma py_sorted_spec {A : Type} (key : A -> float) (l : list A) :
  Forall (fun x => finite (key x)) l ->
  Permutation (py_sorted key l) l
  /\ StronglySorted (fun a b => qval (key a) <= qval (key b)) (py_sorted key l)
  /\ forall k, filter (fun x => Qeq_bool (qval (key x)) k) (py_sorted key l)
               = filter (fun x => Qeq_bool (qval (key x)) k) l.
Proof.
  intro Hfin. pose proof (py_sorted_ranks key l Hfin) as Hr.
  split; [apply stable_sort_perm |]. split.
  - apply (stable_sort_rank_sorted _ _ l Hr).
  - intro k. apply (stable_sort_rank_stable _ _ k l Hr).
Qed.

(** [sorted(l, key=key, reverse=True)]: a permutation in descending key
    order that keeps the order of equal keys. *)
Lemma py_sorted_reverse_spec {A : Type} (key : A -> float) (l : list A) :
  Forall (fun x => finite (key x)) l ->
  Permutation (py_sorted_reverse key l) l
  /\ StronglySorted (fun a b => qval (key b) <= qval (key a))
       (py_sorted_reverse key l)
  /\ forall k,
      filter (fun x => Qeq_bool (qval (key x)) k) (py_sorted_reverse key l)
      = filter (fun x => Qeq_bool (qval (key x)) k) l.
Proof.
  intro Hfin. pose proof (py_sorted_reverse_ranks key l Hfin) as Hr.
  split; [apply stable_sort_perm |]. split.
  - pose proof (stable_sort_rank_sorted _ _ l Hr) as Hs.
    eapply StronglySorted_weaken; [| exact Hs].
    intros a b Hab. unfold rank_le in Hab. lra.
  - intro k.
    pose proof (stable_sort_rank_stable _ _ (- k) l Hr) as Hst.
    assert (Hfilter :
      forall l' : list A,
        filter (fun x => Qeq_bool (- qval (key x)) (- k)) l'
        = filter (fun x => Qeq_bool (qval (key x)) k) l').
    { intro l'. apply filter_ext. intro x.
      destruct (Qeq_bool (qval (key x)) k) eqn:E1,
               (Qeq_bool (- qval (key x)) (- k)) eqn:E2; try reflexivity.
      - apply Qeq_bool_iff in E1.
        assert (H2 : - qval (key x) == - k) by lra.
        apply Qeq_bool_iff in H2. congruence.
      - apply Qeq_bool_iff in E2.
        assert (H1 : qval (key x) == k) by lra.
        apply Qeq_bool_iff in H1. congruence. }
    rewrite !Hfilter in Hst. exact Hst.
Qed.

(** ** The drivers of a set-up viewer all have samples *)

Lemma unique_by_spec {A : Type} (eqb : A -> A -> bool) (seen l : list A)
  (a : A) :
  In a (unique_by eqb seen l) -> In a l /\ existsb (eqb a) seen = false.
Proof.
  revert seen. induction l as [| b l IH]; intros seen; simpl; [tauto |].
  destruct (existsb (eqb b) seen) eqn:E.
  - intro Hin. destruct (IH _ Hin) as (H1 & H2). auto.
  - intros [-> | Hin]; [auto |].
    destruct (IH _ Hin) as (H1 & H2). simpl in H2.
    apply orb_false_iff in H2. split; [auto | apply H2].
Qed.

Lemma driver_has_samples `{DataFrameSort} (telemetry : Frame)
  (session : Session) (v : Viewer) (drv : string) :
  viewer_setup telemetry session = Some v ->
  In drv (drivers v) ->
  d_time (driver_arrays (telemetry_rows v) drv) <> [].
Proof.
  intros Hv Hdrv.
  destruct (viewer_setup_inv telemetry session v Hv)
    as (lap_df & _ & _ & Hdrivers & _ & Hbase & _).
  rewrite Hdrivers in Hdrv. apply unique_by_In in Hdrv.
  rewrite <- Hbase, map_map in Hdrv. apply in_map_iff in Hdrv.
  destruct Hdrv as (r & Hr & Hrin).
  unfold driver_arrays. simpl.
  set (sel := filter _ (telemetry_rows v)).
  assert (Hsel : In r sel).
  { subst sel. apply filter_In. split; [exact Hrin |].
    rewrite Hr. apply String.eqb_refl. }
  apply (Permutation_in _
           (Permutation_sym (sort_values_perm _ screen_time sel))) in Hsel.
  destruct (sort_values screen_time sel); [contradiction | discriminate].
Qed.

Lemma snapshots_of_drivers `{DataFrameSort} (telemetry : list ScreenRow)
  (margin t : float) (ds : list string) :
  (forall drv, In drv ds -> d_time (driver_arrays telemetry drv) <> []) ->
  map fst
    (filter_map
       (fun item : string * DriverData =>
          match driver_snapshot margin (snd item) t with
          | Some st => Some (fst item, st)
          | None => None
          end)
       (map (fun drv => (drv, driver_arrays telemetry drv)) ds))
  = ds.
Proof.
  induction ds as [| drv ds IH]; intro Hhas; [reflexivity |].
  simpl. unfold driver_snapshot at 1.
  destruct (d_time (driver_arrays telemetry drv)) eqn:E.
  - exfalso. apply (Hhas drv); [left; reflexivity | exact E].
  - simpl. f_equal. apply IH. intros d Hd. apply Hhas. right. exact Hd.
Qed.

(** [driver_stats] has one entry per driver, in the order of [drivers]. *)
Lemma driver_stats_keys `{DataFrameSort} (telemetry : Frame)
  (session : Session) (v : Viewer) (t : float) :
  viewer_setup telemetry session = Some v ->
  map fst (driver_stats_at v t) = drivers v.
Proof.
  intro Hv.
  destruct (viewer_setup_inv telemetry session v Hv)
    as (lap_df & _ & _ & _ & _ & _ & _ & _ & Hdata & _).
  unfold driver_stats_at. rewrite Hdata.
  apply snapshots_of_drivers.
  intros drv Hdrv. eapply driver_has_samples; eassumption.
Qed.

(** ** C5: the ranking while the race is in progress *)

(** C5 (amended).  While the race is in progress, with progress scores
    that are numbers, the ranked list of a frame is a permutation of
    [driver_stats], whose drivers are exactly the drivers of the telemetry
    frame in order of first appearance; it is in descending order of
    progress score, and drivers of equal score keep their order in
    [driver_stats]. *)
Theorem in_progress_ranking `{DataFrameSort} (telemetry : Frame)
  (session : Session) (v : Viewer) (t : float) :
  viewer_setup telemetry session = Some v ->
  race_finished v t = false ->
  Forall (fun x => finite (progress_score (snd x))) (driver_stats_at v t) ->
  map fst (driver_stats_at v t)
  = unique String.eqb (map row_driver (rows telemetry))
  /\ Permutation (sorted_drivers_at v t) (driver_stats_at v t)
  /\ StronglySorted
       (fun a b =>
          qval (progress_score (snd b)) <= qval (progress_score (snd a)))
       (sorted_drivers_at v t)
  /\ forall k,
      filter (fun x => Qeq_bool (qval (progress_score (snd x))) k)
        (sorted_drivers_at v t)
      = filter (fun x => Qeq_bool (qval (progress_score (snd x))) k)
          (driver_stats_at v t).
Proof.
  intros Hv Hprog Hfin.
  split.
  - rewrite (driver_stats_keys telemetry session v t Hv).
    destruct (viewer_setup_inv telemetry session v Hv)
      as (lap_df & _ & _ & Hdrivers & _). exact Hdrivers.
  - unfold sorted_drivers_at. rewrite Hprog.
    apply (py_sorted_reverse_spec (fun x => progress_score (snd x))).
    exact Hfin.
Qed.

Lemma in_progress_ranking_witness :
  map fst (driver_stats_at demo_viewer (Fin 5)) = ["A"; "B"]%string
  /\ Permutation (sorted_drivers_at demo_viewer (Fin 5))
       (driver_stats_at demo_viewer (Fin 5)).
Proof.
  destruct (@in_progress_ranking StableSort demo_frame demo_session
              demo_viewer (Fin 5)) as (Hkeys & Hperm & _).
  - vm_compute. reflexivity.
  - vm_compute. reflexivity.
  - apply (notna_finite (fun x => progress_score (snd x))).
    vm_compute. reflexivity.
  - split; [| exact Hperm].
    rewrite Hkeys. vm_compute. reflexivity.
Defined.

(** C5 as stated fails on ties: in two datasets with the same two drivers
    tied at score 1000 while the race is in progress, the ranking is
    VER, HAM in one and HAM, VER in the other (the order in which the
    drivers first appear in the telemetry), so no order on driver
    identifiers decides ties. *)
Lemma in_progress_ranking_counterexample :
  (@viewer_setup StableSort (tie_frame 100 101) (tie_session 100 101)
   = Some (tie_viewer 100 101)
   /\ @viewer_setup StableSort (tie_frame 101 100) (tie_session 101 100)
      = Some (tie_viewer 101 100))
  /\ (race_finished (tie_viewer 100 101) (Fin 5) = false
      /\ race_finished (tie_viewer 101 100) (Fin 5) = false)
  /\ (map (fun x => progress_score (snd x))
        (sorted_drivers_at (tie_viewer 100 101) (Fin 5))
      = [Fin 1000; Fin 1000]
      /\ map (fun x => progress_score (snd x))
           (sorted_drivers_at (tie_viewer 101 100) (Fin 5))
         = [Fin 1000; Fin 1000])
  /\ map fst (sorted_drivers_at (tie_viewer 100 101) (Fin 5))
     = ["VER"; "HAM"]%string
  /\ map fst (sorted_drivers_at (tie_viewer 101 100) (Fin 5))
     = ["HAM"; "VER"]%string
  /\ forall before : string -> string -> Prop,
      (forall a b, before a b -> ~ before b a) ->
      ~ (before "VER" "HAM" /\ before "HAM" "VER")%string.
Proof.
  split; [split; vm_compute; reflexivity |].
  split; [split; vm_compute; reflexivity |].
  split; [split; vm_compute; reflexivity |].
  split; [vm_compute; reflexivity |].
  split; [vm_compute; reflexivity |].
  intros before Hasym (H1 & H2). exact (Hasym _ _ H1 H2).
Qed.

(** ** C4: which ordering a frame uses *)

Lemma fold_left_max_spec (l : list Z) (a : Z) :
  (a <= fold_left Z.max l a)%Z
  /\ (forall x, In x l -> (x <= fold_left Z.max l a)%Z)
  /\ (fold_left Z.max l a = a \/ In (fold_left Z.max l a) l).
Proof.
  revert a. induction l as [| b l IH]; intro a; simpl.
  - repeat split; [lia | tauto | auto].
  - destruct (IH (Z.max a b)) as (H1 & H2 & H3).
    repeat split.
    + lia.
    + intros x [<- | Hx]; [lia | apply H2; exact Hx].
    + destruct H3 as [H3 | H3]; [| right; right; exact H3].
      destruct (Z.max_spec a b) as [(_ & Hm) | (_ & Hm)];
        rewrite Hm in H3 |- *.
      * right. left. symmetry. exact H3.
      * left. exact H3.
Qed.

Lemma Z_max_list_spec (l : list Z) :
  match Z_max_list l with
  | None => l = []
  | Some m => In m l /\ forall x, In x l -> (x <= m)%Z
  end.
Proof.
  destruct l as [| a l]; simpl; [reflexivity |].
  destruct (fold_left_max_spec l a) as (H1 & H2 & H3).
  split.
  - destruct H3 as [-> | H3]; auto.
  - intros x [<- | Hx]; auto.
Qed.

(** The test of line 298 in terms of the rows of the frame. *)
Lemma race_finished_spec (v : Viewer) (t : float) :
  race_finished v t = true <->
  (exists r, In r (telemetry_rows v) /\ fle (screen_time r) t = true
             /\ (total_laps v <= row_lap (base r))%Z)
  \/ ((forall r, In r (telemetry_rows v) -> fle (screen_time r) t = false)
      /\ (total_laps v <= 0)%Z).
Proof.
  unfold race_finished, current_lap_at.
  set (sel := filter (fun r => fle (screen_time r) t) (telemetry_rows v)).
  pose proof (Z_max_list_spec (map (fun r => row_lap (base r)) sel)) as Hmax.
  rewrite Z.geb_le.
  destruct (Z_max_list (map (fun r => row_lap (base r)) sel)) as [m |].
  - destruct Hmax as (Hin & Hub).
    apply in_map_iff in Hin. destruct Hin as (r & Hr & Hrin).
    subst sel. apply filter_In in Hrin. destruct Hrin as (Hrin & Hle).
    split.
    + intro Hm. left. exists r. repeat split; try assumption. lia.
    + intros [(r' & Hr' & Hle' & Hlap) | (Hnone & _)].
      * specialize (Hub (row_lap (base r'))).
        assert (Hx : (row_lap (base r') <= m)%Z).
        { apply Hub. apply in_map_iff. exists r'. split; [reflexivity |].
          apply filter_In. split; assumption. }
        lia.
      * rewrite (Hnone r Hrin) in Hle. discriminate.
  - apply map_eq_nil in Hmax.
    split.
    + intro Hm. right. split; [| exact Hm].
      intros r Hr. destruct (fle (screen_time r) t) eqn:E; [| reflexivity].
      assert (Hin : In r sel) by (subst sel; apply filter_In; auto).
      rewrite Hmax in Hin. contradiction.
    + intros [(r' & Hr' & Hle' & Hlap) | (_ & Hm)]; [| exact Hm].
      assert (Hin : In r' sel) by (subst sel; apply filter_In; auto).
      rewrite Hmax in Hin. contradiction.
Qed.

Lemma dict_get_absent {V : Type} (d : list (string * V)) (k : string)
  (default : V) : dict_has d k = false -> dict_get d k default = default.
Proof.
  unfold dict_has. induction d as [| [k' x] d IH]; simpl; [reflexivity |].
  intro Hno. apply orb_false_iff in Hno. destruct Hno as (Hk & Hrest).
  rewrite Hk. apply IH. exact Hrest.
Qed.

Lemma dict_get_map {V : Type} (f : string -> V) (ds : list string)
  (k : string) (default : V) :
  In k ds -> dict_get (map (fun d => (d, f d)) ds) k default = f k.
Proof.
  induction ds as [| d ds IH]; simpl; [tauto |].
  intro Hin. destruct (String.eqb_spec d k) as [-> | Hne]; [reflexivity |].
  destruct Hin as [-> | Hin]; [congruence | apply IH; exact Hin].
Qed.

Lemma driver_position_no_lap (lap_df : list Lap) (drv : string) :
  (forall l, In l lap_df -> Driver l <> drv) ->
  driver_position lap_df drv = Fin 99.
Proof.
  intro Hno. unfold driver_position.
  destruct (filter (fun l => String.eqb (Driver l) drv) lap_df)
    as [| l ls] eqn:E; [reflexivity |].
  assert (Hin : In l (filter (fun l => String.eqb (Driver l) drv) lap_df))
    by (rewrite E; left; reflexivity).
  apply filter_In in Hin. destruct Hin as (Hin & Heq).
  apply String.eqb_eq in Heq. exfalso. exact (Hno l Hin Heq).
Qed.

(** C4 (amended).  The finished ordering is used exactly when the largest
    lap number among the rows of the frame with time <= sim_time (0 when
    there is none) reaches [total_laps].  Then the ranked list is
    [driver_stats] in ascending order of the recorded position, 99 for a
    driver without a recorded position; otherwise it is [driver_stats] in
    descending order of progress score (sort keys being numbers in both
    cases). *)
Theorem standings_regime `{DataFrameSort} (telemetry : Frame)
  (session : Session) (v : Viewer) (t : float) :
  viewer_setup telemetry session = Some v ->
  (race_finished v t = true <->
   (exists r, In r (telemetry_rows v) /\ fle (screen_time r) t = true
              /\ (total_laps v <= row_lap (base r))%Z)
   \/ ((forall r, In r (telemetry_rows v) -> fle (screen_time r) t = false)
       /\ (total_laps v <= 0)%Z))
  /\ (race_finished v t = true ->
      Forall (fun x => finite (classification v x)) (driver_stats_at v t) ->
      Permutation (sorted_drivers_at v t) (driver_stats_at v t)
      /\ StronglySorted
           (fun a b => qval (classification v a) <= qval (classification v b))
           (sorted_drivers_at v t))
  /\ (race_finished v t = false ->
      Forall (fun x => finite (progress_score (snd x))) (driver_stats_at v t) ->
      Permutation (sorted_drivers_at v t) (driver_stats_at v t)
      /\ StronglySorted
           (fun a b =>
              qval (progress_score (snd b)) <= qval (progress_score (snd a)))
           (sorted_drivers_at v t))
  /\ (forall x, dict_has (driver_positions v) (fst x) = false ->
                classification v x = Fin 99)
  /\ exists lap_df,
      laps session = Some lap_df
      /\ forall x, In x (driver_stats_at v t) ->
           classification v x = driver_position lap_df (fst x)
           /\ ((forall l, In l lap_df -> Driver l <> fst x) ->
               classification v x = Fin 99).
Proof.
  intro Hv.
  split; [apply race_finished_spec |].
  split.
  { intros Hfin Hkeys. unfold sorted_drivers_at. rewrite Hfin.
    destruct (py_sorted_spec (classification v) (driver_stats_at v t) Hkeys)
      as (Hp & Hs & _).
    split; assumption. }
  split.
  { intros Hprog Hkeys. unfold sorted_drivers_at. rewrite Hprog.
    destruct (py_sorted_reverse_spec (fun x => progress_score (snd x))
                (driver_stats_at v t) Hkeys) as (Hp & Hs & _).
    split; assumption. }
  split.
  { intros x Hx. apply dict_get_absent. exact Hx. }
  destruct (viewer_setup_inv telemetry session v Hv)
    as (lap_df & Hlaps & _ & _ & Hpos & _).
  exists lap_df. split; [exact Hlaps |].
  intros x Hx.
  assert (Hdrv : In (fst x) (drivers v)).
  { rewrite <- (driver_stats_keys telemetry session v t Hv).
    apply in_map. exact Hx. }
  assert (Hget : classification v x = driver_position lap_df (fst x)).
  { unfold classification. rewrite Hpos.
    apply (dict_get_map (driver_position lap_df)). exact Hdrv. }
  split; [exact Hget |].
  intro Hno. rewrite Hget. apply driver_position_no_lap. exact Hno.
Qed.

Lemma standings_regime_witness :
  race_finished demo_viewer (Fin 12) = true <->
  (exists r, In r (telemetry_rows demo_viewer)
             /\ fle (screen_time r) (Fin 12) = true
             /\ (total_laps demo_viewer <= row_lap (base r))%Z)
  \/ ((forall r, In r (telemetry_rows demo_viewer) ->
                 fle (screen_time r) (Fin 12) = false)
      /\ (total_laps demo_viewer <= 0)%Z).
Proof.
  refine (proj1 (@standings_regime StableSort demo_frame demo_session
                   demo_viewer (Fin 12) _)).
  vm_compute. reflexivity.
Defined.

(** C4 as stated fails: in the frame at sim_time 0 of the dataset built
    from [late_session] the leader by progress score is B, shown at its
    first sample on lap 2 = total_laps, yet the frame uses the in-progress
    ordering (B, A) and not the classification order (A, B), because no
    row with time <= 0 is on lap 2. *)
Lemma standings_regime_counterexample :
  @collect_session_telemetry StableSort late_session = Some late_frame
  /\ @viewer_setup StableSort late_frame late_session = Some late_viewer
  /\ total_laps late_viewer = 2%Z
  /\ (exists sb rest,
        py_sorted_reverse (fun x => progress_score (snd x))
          (driver_stats_at late_viewer (Fin 0))
        = ("B"%string, sb) :: rest
        /\ (st_lap sb >= total_laps late_viewer)%Z)
  /\ race_finished late_viewer (Fin 0) = false
  /\ map fst (sorted_drivers_at late_viewer (Fin 0)) = ["B"; "A"]%string
  /\ map fst
       (py_sorted (classification late_viewer)
          (driver_stats_at late_viewer (Fin 0)))
     = ["A"; "B"]%string.
Proof.
  split; [vm_compute; reflexivity |].
  split; [vm_compute; reflexivity |].
  split; [vm_compute; reflexivity |].
  split.
  { exists (mkDriverSnapshot (Fin 10) 2 (Fin 0) 560 500 (Fin 2000)).
    exists [("A"%string, mkDriverSnapshot (Fin 0) 1 (Fin 0) 40 760 (Fin 1000))].
    split; [vm_compute; reflexivity | vm_compute; discriminate]. }
  split; [vm_compute; reflexivity |].
  split; vm_compute; reflexivity.
Qed.

(** ** C8: when the builder returns nothing *)

(** When the time of a lap's telemetry converts: the frame is not empty
    and 'SessionTime' is a timedelta or numeric column, or else 'Time' is a
    timedelta or datetime column. *)
Lemma time_seconds_converts (tel : Telemetry) :
  get_telemetry_time_seconds tel <> None <->
  samples tel <> []
  /\ (SessionTime_col tel = Some timedelta64
      \/ SessionTime_col tel = Some numeric
      \/ Time_col tel = Some timedelta64
      \/ Time_col tel = Some datetime64).
Proof.
  unfold get_telemetry_time_seconds, time_column_seconds, tel_empty.
  destruct (samples tel) as [| s0 ss].
  - split; [congruence | intros (Hne & _); congruence].
  - destruct (SessionTime_col tel) as [[] |], (Time_col tel) as [[] |];
      split; intro Hyp;
      solve
        [ split; [discriminate | auto]
        | discriminate
        | exfalso; apply Hyp; reflexivity
        | destruct Hyp as (_ & [Hc | [Hc | [Hc | Hc]]]); discriminate ].
Qed.

Lemma time_seconds_not_empty (tel : Telemetry) :
  get_telemetry_time_seconds tel <> None -> tel_empty tel = false.
Proof.
  unfold get_telemetry_time_seconds.
  destruct (tel_empty tel); [congruence | reflexivity].
Qed.

Lemma lap_frame_valid (drv : string) (lap : Lap) :
  lap_frame drv lap <> None <-> lap_has_valid_sample lap.
Proof.
  unfold lap_frame, lap_has_valid_sample.
  destruct (get_telemetry lap) as [tel |].
  2: { split; [congruence | intros (tel & Htel & _); discriminate]. }
  destruct (tel_empty tel) eqn:Eempty.
  { split; [congruence |]. intros (tel' & Htel & _ & _ & Hts & _).
    injection Htel as <-. apply time_seconds_not_empty in Hts. congruence. }
  destruct (has_X tel && has_Y tel) eqn:Exy; simpl.
  2: { split; [congruence |]. intros (tel' & Htel & Hx & Hy & _).
       injection Htel as <-. rewrite Hx, Hy in Exy. discriminate. }
  apply andb_true_iff in Exy. destruct Exy as (Hx & Hy).
  destruct (get_telemetry_time_seconds tel) as [t_seconds |] eqn:Ets.
  2: { split; [congruence |]. intros (tel' & Htel & _ & _ & Hts & _).
       injection Htel as <-. congruence. }
  destruct (existsb (fun b : bool => b)
              (map (fun s => notna (X s) && notna (Y s)) (samples tel)))
    eqn:Eany; simpl.
  - split; [| discriminate]. intros _.
    exists tel.
    split; [reflexivity |]. split; [exact Hx |]. split; [exact Hy |].
    split; [congruence |].
    apply existsb_exists in Eany. destruct Eany as (b & Hb & ->).
    apply in_map_iff in Hb. destruct Hb as (s & Hs & Hin).
    apply andb_true_iff in Hs. exists s. tauto.
  - split; [congruence |]. intros (tel' & Htel & _ & _ & _ & s & Hs & HX & HY).
    injection Htel as <-.
    assert (Hex : existsb (fun b : bool => b)
                    (map (fun s => notna (X s) && notna (Y s)) (samples tel))
                  = true).
    { apply existsb_exists. exists true. split; [| reflexivity].
      apply in_map_iff. exists s. rewrite HX, HY. auto. }
    congruence.
Qed.

Lemma unique_by_complete (seen l : list string) (a : string) :
  In a l -> In a seen \/ In a (unique_by String.eqb seen l).
Proof.
  revert seen. induction l as [| b l IH]; intros seen; simpl; [tauto |].
  intros [-> | Hin].
  - destruct (existsb (String.eqb a) seen) eqn:E.
    + left. apply existsb_exists in E. destruct E as (x & Hx & Heq).
      apply String.eqb_eq in Heq. subst. exact Hx.
    + right. left. reflexivity.
  - destruct (existsb (String.eqb b) seen).
    + apply IH. exact Hin.
    + destruct (IH (b :: seen) Hin) as [[-> | Hs] | Hu]; simpl; auto.
Qed.

(** The frames appended to [rows] are the frames of the laps. *)
Lemma lap_frames_In (lps : list Lap) (f : Frame) :
  In f (lap_frames lps) <->
  exists lap, In lap lps /\ lap_frame (Driver lap) lap = Some f.
Proof.
  unfold lap_frames. rewrite in_flat_map. split.
  - intros (drv & _ & Hf). apply filter_map_In in Hf.
    destruct Hf as (lap & Hlap & Hframe).
    apply filter_In in Hlap. destruct Hlap as (Hlap & Heq).
    apply String.eqb_eq in Heq. subst drv. eauto.
  - intros (lap & Hlap & Hframe). exists (Driver lap). split.
    + destruct (unique_by_complete [] (map Driver lps) (Driver lap))
        as [[] | Hu]; [apply in_map; exact Hlap | exact Hu].
    + apply filter_map_In. exists lap. split; [| exact Hframe].
      apply filter_In. split; [exact Hlap | apply String.eqb_refl].
Qed.

Lemma collect_None `{DataFrameSort} (session : Session) :
  collect_session_telemetry session = None <->
  forall lps, laps session = Some lps -> lap_frames lps = [].
Proof.
  unfold collect_session_telemetry.
  destruct (laps session) as [[| l lps] |].
  - split; [| intros _; reflexivity].
    intros _ lps' E. injection E as <-. reflexivity.
  - destruct (lap_frames (l :: lps)) eqn:E.
    + split; [| intros _; reflexivity].
      intros _ lps' E'. injection E' as <-. exact E.
    + split; [discriminate |]. intro Hall. specialize (Hall _ eq_refl).
      congruence.
  - split; [intros _ lps' E; discriminate | intros _; reflexivity].
Qed.

(** The builder returns [None] exactly when no lap of the session passes
    the guards of lines 25-38, and then [load_data] reports the error and
    returns without scheduling [finish_loading] (which would start
    [run_viewer]); with a frame it schedules it on that frame. *)
Theorem no_valid_sample_no_timeline `{DataFrameSort} (session : Session) :
  (collect_session_telemetry session = None <->
   forall lps lap, laps session = Some lps -> In lap lps ->
                   ~ lap_has_valid_sample lap)
  /\ (collect_session_telemetry session = None <->
      load_data session = ProgressError "No telemetry data found")
  /\ (forall telemetry,
         collect_session_telemetry session = Some telemetry <->
         load_data session = FinishLoading telemetry).
Proof.
  split; [| split].
  - rewrite collect_None. split.
    + intros Hnil lps lap Hlps Hlap Hvalid.
      apply (lap_frame_valid (Driver lap)) in Hvalid.
      destruct (lap_frame (Driver lap) lap) as [f |] eqn:E; [| congruence].
      assert (Hin : In f (lap_frames lps))
        by (apply lap_frames_In; eauto).
      rewrite (Hnil lps Hlps) in Hin. contradiction.
    + intros Hno lps Hlps.
      destruct (lap_frames lps) as [| f fs] eqn:E; [reflexivity |].
      assert (Hin : In f (lap_frames lps)) by (rewrite E; left; reflexivity).
      apply lap_frames_In in Hin. destruct Hin as (lap & Hlap & Hframe).
      exfalso. apply (Hno lps lap Hlps Hlap).
      apply (lap_frame_valid (Driver lap)). congruence.
  - unfold load_data.
    destruct (collect_session_telemetry session); split; congruence.
  - intro telemetry. unfold load_data.
    destruct (collect_session_telemetry session); split; congruence.
Qed.

(** ** C1: the timeline starts at 0 and is in time order *)

(** What the NaN-skipping minimum returns. *)
Lemma series_min_spec (l : list float) :
  match series_min l with
  | NaN => forall a, In a l -> a = NaN
  | Fin m => In (Fin m) l /\ forall q, In (Fin q) l -> m <= q
  end.
Proof.
  unfold series_min. induction l as [| a l IH]; simpl.
  - intros a [].
  - destruct a as [| p].
    + destruct (nan_reduce fmin2 l) as [| m].
      * intros a [<- | Ha]; [reflexivity | apply IH; exact Ha].
      * destruct IH as (Hin & Hlb). split; [right; exact Hin |].
        intros q [Hq | Hq]; [discriminate | apply Hlb; exact Hq].
    + destruct (nan_reduce fmin2 l) as [| m].
      * split; [left; reflexivity |].
        intros q [Hq | Hq]; [injection Hq as <-; lra |].
        specialize (IH _ Hq). discriminate.
      * destruct IH as (Hin & Hlb). unfold fmin2.
        destruct (flt (Fin m) (Fin p)) eqn:E.
        -- apply flt_Fin in E. split; [right; exact Hin |].
           intros q [Hq | Hq]; [injection Hq as <-; lra | apply Hlb; exact Hq].
        -- apply flt_Fin_false in E. split; [left; reflexivity |].
           intros q [Hq | Hq]; [injection Hq as <-; lra |].
           specialize (Hlb q Hq). lra.
Qed.

Lemma shift_times_rows (full : Frame) :
  map row_time (rows (shift_times full))
  = map (fun a => fsub a (series_min (map row_time (rows full))))
      (map row_time (rows full)).
Proof.
  unfold shift_times. simpl. rewrite !map_map. reflexivity.
Qed.

(** After the subtraction the smallest number among the times is 0. *)
Lemma shifted_min_zero (l l' : list float) :
  Permutation l' (map (fun a => fsub a (series_min l)) l) ->
  (exists a, In a l' /\ finite a) ->
  exists m, series_min l' = Fin m /\ m == 0.
Proof.
  intros Hperm (a & Ha & q & ->).
  pose proof (series_min_spec l) as Hl.
  pose proof (series_min_spec l') as Hl'.
  apply (Permutation_in _ Hperm) in Ha. apply in_map_iff in Ha.
  destruct Ha as (a0 & Ha0 & Hin0).
  destruct (series_min l) as [| m0].
  { destruct a0; discriminate. }
  destruct Hl as (Hm0 & Hlb0).
  assert (Hzero : In (Fin (m0 - m0)) l').
  { apply (Permutation_in _ (Permutation_sym Hperm)).
    apply in_map_iff. exists (Fin m0). split; [reflexivity | exact Hm0]. }
  destruct (series_min l') as [| m].
  { specialize (Hl' _ Hzero). discriminate. }
  destruct Hl' as (Hm & Hlb).
  exists m. split; [reflexivity |].
  specialize (Hlb _ Hzero).
  apply (Permutation_in _ Hperm) in Hm. apply in_map_iff in Hm.
  destruct Hm as (b & Hb & Hbin).
  destruct b as [| qb]; [discriminate |].
  simpl in Hb. injection Hb as Hb.
  specialize (Hlb0 qb Hbin). subst m. lra.
Qed.

Lemma collect_Some `{DataFrameSort} (session : Session) (tl : Frame) :
  collect_session_telemetry session = Some tl ->
  exists lps,
    laps session = Some lps
    /\ lap_frames lps <> []
    /\ tl = mkFrame (sort_values row_time (rows (unsorted_timeline lps)))
              (has_abs_time (unsorted_timeline lps)).
Proof.
  unfold collect_session_telemetry.
  destruct (laps session) as [[| l lps] |]; try discriminate.
  destruct (lap_frames (l :: lps)) as [| f fs] eqn:E; [discriminate |].
  intro Hs. injection Hs as <-.
  exists (l :: lps). unfold unsorted_timeline. rewrite E.
  repeat split. discriminate.
Qed.

(** A timeline returned by the builder holds the rows of the concatenated
    frame with the global minimum time subtracted, in the order [np_le] of
    their times; when some row has a time that is a number, the minimum
    time is 0. *)
Theorem timeline_sorted_from_zero `{DataFrameSort} (session : Session)
  (tl : Frame) :
  collect_session_telemetry session = Some tl ->
  (exists lps,
      laps session = Some lps
      /\ Permutation (rows tl) (rows (unsorted_timeline lps)))
  /\ StronglySorted np_le (map row_time (rows tl))
  /\ ((exists r, In r (rows tl) /\ finite (row_time r)) ->
      exists m, series_min (map row_time (rows tl)) = Fin m /\ m == 0).
Proof.
  intro Hc.
  destruct (collect_Some session tl Hc) as (lps & Hlps & Hne & ->).
  simpl. split; [| split].
  - exists lps. split; [exact Hlps | apply sort_values_perm].
  - apply sort_values_sorted.
  - intros (r & Hr & Hfin).
    apply (shifted_min_zero
             (map row_time (rows (concat_frames (lap_frames lps))))).
    + unfold unsorted_timeline. rewrite <- shift_times_rows.
      apply Permutation_map. apply sort_values_perm.
    + exists (row_time r). split; [apply in_map; exact Hr | exact Hfin].
Qed.

Lemma collect_of_frames `{DataFrameSort} (session : Session)
  (lps : list Lap) :
  laps session = Some lps ->
  lap_frames lps <> [] ->
  collect_session_telemetry session
  = Some (mkFrame (sort_values row_time (rows (unsorted_timeline lps)))
            (has_abs_time (unsorted_timeline lps))).
Proof.
  intros Hlps Hne. unfold collect_session_telemetry. rewrite Hlps.
  destruct lps as [| l lps]; [exfalso; apply Hne; reflexivity |].
  unfold unsorted_timeline.
  destruct (lap_frames (l :: lps)); [congruence | reflexivity].
Qed.

Lemma timeline_sorted_from_zero_witness :
  StronglySorted np_le (map row_time (rows demo_frame))
  /\ exists m, series_min (map row_time (rows demo_frame)) = Fin m /\ m == 0.
Proof.
  destruct (@timeline_sorted_from_zero StableSort demo_session demo_frame)
    as (_ & Hsorted & Hmin).
  - vm_compute. reflexivity.
  - split; [exact Hsorted |].
    apply Hmin.
    exists (mkRow "A" (Fin 0) (Fin 0) (Fin 0) 0 (Fin 0) NaN).
    split; [vm_compute; left; reflexivity | eexists; reflexivity].
Defined.

(** The sort of a frame with one row returns that row. *)
Lemma sort_values_one `{DataFrameSort} {A : Type} (key : A -> float)
  (a : A) : sort_values key [a] = [a].
Proof.
  pose proof (sort_values_perm _ key [a]) as Hperm.
  apply Permutation_sym, Permutation_length_1_inv in Hperm. exact Hperm.
Qed.

(** The builder on [missing_time_session], whatever the sort: the sample
    has both coordinates, so its row is kept with the time NaN. *)
Lemma collect_missing_time `{DataFrameSort} :
  collect_session_telemetry missing_time_session = Some missing_time_frame.
Proof.
  rewrite (collect_of_frames missing_time_session missing_time_laps).
  - assert (Hrows : rows (unsorted_timeline missing_time_laps)
                    = [mkRow "A" NaN (Fin 0) (Fin 0) 1 (Fin 0) NaN])
      by (vm_compute; reflexivity).
    assert (Habs : has_abs_time (unsorted_timeline missing_time_laps) = false)
      by (vm_compute; reflexivity).
    rewrite Hrows, Habs, sort_values_one. reflexivity.
  - reflexivity.
  - vm_compute. discriminate.
Qed.

(** C1.  The builder on a session whose only sample has a position but
    NaT as session time ([missing_time_session]), whatever the sort: it
    returns a timeline, the sample's row is in it with time NaN, and the
    minimum time of the timeline is NaN, not 0.  The viewer set up on that
    timeline starts its clock at NaN and the first leaderboard raises. *)
Theorem timeline_minimum_lost_without_time :
  (forall srt : DataFrameSort,
      @collect_session_telemetry srt missing_time_session
      = Some missing_time_frame)
  /\ map row_time (rows missing_time_frame) = [NaN]
  /\ series_min (map row_time (rows missing_time_frame)) = NaN
  /\ @viewer_setup StableSort missing_time_frame missing_time_session
     = Some missing_time_viewer
  /\ sim_time (initial_playback (times missing_time_viewer)) = NaN
  /\ leaderboard missing_time_viewer
       (sim_time (initial_playback (times missing_time_viewer)))
     = None.
Proof.
  split; [intro srt; apply collect_missing_time |].
  repeat split; vm_compute; reflexivity.
Qed.

(** ** C8: a timeline without a timed position *)

Lemma timed_position_valid (lap : Lap) :
  lap_has_timed_position lap -> lap_has_valid_sample lap.
Proof.
  intros (tel & ts & i & s & t & Htel & Hx & Hy & Hts & Hs & _ & HX & HY & _).
  exists tel. split; [exact Htel |]. split; [exact Hx |].
  split; [exact Hy |]. split; [congruence |].
  exists s. split; [| split; assumption].
  eapply nth_error_In. exact Hs.
Qed.

(** C8.  No lap of [missing_time_session] has a row with a valid position
    and a parseable time: its only sample has NaT as session time.  Yet
    the builder returns a timeline on it, whatever the sort, and
    [load_data] schedules [finish_loading] on that timeline instead of
    reporting the error.  The other direction holds on every session: the
    builder returns [None] only when no lap has such a row. *)
Theorem timeline_without_timed_position :
  (forall lap, In lap missing_time_laps -> ~ lap_has_timed_position lap)
  /\ (forall srt : DataFrameSort,
        @collect_session_telemetry srt missing_time_session
        = Some missing_time_frame
        /\ @load_data srt missing_time_session
           = FinishLoading missing_time_frame)
  /\ (forall (srt : DataFrameSort) (session : Session)
             (lps : list Lap) (lap : Lap),
        @collect_session_telemetry srt session = None ->
        laps session = Some lps -> In lap lps ->
        ~ lap_has_timed_position lap).
Proof.
  split; [| split].
  - intros lap [<- | []]
      (tel & ts & i & s & t & Htel & _ & _ & Hts & Hs & Ht & _ & _ & q & Hq).
    simpl in Htel. injection Htel as <-.
    vm_compute in Hts. injection Hts as <-.
    destruct i as [| i].
    + simpl in Ht. congruence.
    + destruct i; discriminate.
  - intro srt.
    pose proof (@collect_missing_time srt) as Hc.
    split; [exact Hc |]. unfold load_data. rewrite Hc. reflexivity.
  - intros srt session lps lap Hnone Hlps Hlap Htimed.
    apply timed_position_valid in Htimed.
    apply (lap_frame_valid (Driver lap)) in Htimed.
    destruct (lap_frame (Driver lap) lap) as [f |] eqn:E; [| congruence].
    assert (Hin : In f (lap_frames lps)) by (apply lap_frames_In; eauto).
    rewrite (proj1 (@collect_None srt session) Hnone lps Hlps) in Hin.
    contradiction.
Qed.

(* ===================================================================== *)
(** * Further code: the rest of the loop and of the helpers *)
(* ===================================================================== *)

(** [int(a)] of a Python float: [None] is the [ValueError] on NaN. *)
Definition py_int (a : float) : option Z :=
  match a with Fin q => Some (Qtrunc q) | NaN => None end.

(** The width of the progress bar (viewer.py lines 234-238): [bar_w] is
    [MAIN_W - 260]; the fraction is 0 when the timeline has one time only.
    [None] stands for an exception. *)
Definition bar_w : Z := MAIN_W - 260.

Definition progress_frac (times : list float) (sim_time : float)
  : option float :=
  if fgt (last_time times) (first_time times)
  then py_div (fsub sim_time (first_time times))
         (fsub (last_time times) (first_time times))
  else Some (Fin 0).

Definition progress_bar_width (times : list float) (sim_time : float)
  : option Z :=
  match progress_frac times sim_time with
  | Some frac => py_int (fmul (of_int bar_w) frac)
  | None => None
  end.

(** The speeds the two speed keys can reach from 4.0. *)
Definition speed_steps : list Q :=
  [1 # 8; 1 # 4; 1 # 2; 1; 2; 4; 8; 16; 32; 64; 128].

Definition speed_on_step (s : Playback) : Prop :=
  exists sp c, speed s = Fin sp /\ In c speed_steps /\ sp == c.

(** The events that end the loop. *)
Definition quits (ev : Event) : bool :=
  match ev with
  | QUIT | KEYDOWN K_ESCAPE | KEYDOWN K_q => true
  | _ => false
  end.

(** ** The playback state beyond the clock bounds *)

Lemma handle_event_point_size (times : list float) (s : Playback)
  (ev : Event) :
  (2 <= point_size s <= 30)%Z ->
  (2 <= point_size (handle_event times s ev) <= 30)%Z.
Proof.
  intro Hps.
  destruct ev as [| [] |]; simpl; try lia;
    destruct (playing s); simpl; lia.
Qed.

Lemma frame_step_point_size (times : list float) (s : Playback)
  (frame : list Event * float) :
  (2 <= point_size s <= 30)%Z ->
  (2 <= point_size (frame_step times s frame) <= 30)%Z.
Proof.
  intro Hs. unfold frame_step.
  assert (Hev : (2 <= point_size
                        (fold_left (handle_event times) (fst frame) s)
                 <= 30)%Z).
  { revert s Hs. induction (fst frame) as [| ev events IH]; intros s Hs.
    - exact Hs.
    - simpl. apply IH. apply handle_event_point_size. exact Hs. }
  unfold tick. destruct (playing _); exact Hev.
Qed.

(** X1.  The point size stays within [2, 30] whatever the keys pressed. *)
Theorem point_size_bounded (times : list float)
  (frames : list (list Event * float)) :
  (2 <= point_size (run_frames times (initial_playback times) frames)
   <= 30)%Z.
Proof.
  assert (Hinit : (2 <= point_size (initial_playback times) <= 30)%Z)
    by (simpl; unfold DEFAULT_POINT_SIZE; lia).
  revert Hinit. generalize (initial_playback times) as s.
  induction frames as [| f frames IH]; intros s Hs; simpl.
  - exact Hs.
  - pose proof (frame_step_point_size times s f Hs) as Hstep.
    destruct (running (frame_step times s f)); [apply IH |]; exact Hstep.
Qed.

Ltac step_cases H :=
  unfold speed_steps in H; simpl in H;
  repeat (destruct H as [H | H]; [subst |]); try contradiction.

Ltac in_steps :=
  unfold speed_steps; simpl;
  solve [repeat (first [left; reflexivity | right])].

Ltac pick_step :=
  first
    [ exists (1 # 8); split; [in_steps | lra]
    | exists (1 # 4); split; [in_steps | lra]
    | exists (1 # 2); split; [in_steps | lra]
    | exists 1; split; [in_steps | lra]
    | exists 2; split; [in_steps | lra]
    | exists 4; split; [in_steps | lra]
    | exists 8; split; [in_steps | lra]
    | exists 16; split; [in_steps | lra]
    | exists 32; split; [in_steps | lra]
    | exists 64; split; [in_steps | lra]
    | exists 128; split; [in_steps | lra] ].

Lemma handle_event_speed_step (times : list float) (s : Playback)
  (ev : Event) :
  speed_on_step s -> speed_on_step (handle_event times s ev).
Proof.
  intros (sp & c & Hsp & Hc & Heq).
  destruct ev as [| [] |]; simpl;
    try (exists sp, c; repeat split; assumption);
    try (destruct (playing s); exists sp, c; repeat split; assumption).
  - (* K_UP *)
    rewrite Hsp. unfold py_min. simpl fmul.
    destruct (flt (Fin (sp * 2)) (Fin 128)) eqn:E.
    + apply flt_Fin in E. exists (sp * 2).
      assert (Hpick : exists c', In c' speed_steps /\ sp * 2 == c').
      { step_cases Hc; try (exfalso; lra); pick_step. }
      destruct Hpick as (c' & Hc' & Heq').
      exists c'. repeat split; assumption.
    + exists 128, 128.
      split; [reflexivity |]. split; [in_steps | reflexivity].
  - (* K_DOWN *)
    rewrite Hsp. unfold py_max, fgt. simpl fdiv.
    change (sp / 2) with (sp * (1 # 2)).
    destruct (flt (Fin (1 # 8)) (Fin (sp * (1 # 2)))) eqn:E.
    + apply flt_Fin in E. exists (sp * (1 # 2)).
      assert (Hpick : exists c', In c' speed_steps /\ sp * (1 # 2) == c').
      { step_cases Hc; try (exfalso; lra); pick_step. }
      destruct Hpick as (c' & Hc' & Heq').
      exists c'. repeat split; assumption.
    + exists (1 # 8), (1 # 8).
      split; [reflexivity |]. split; [in_steps | reflexivity].
Qed.

(** X2.  The speed is always one of the eleven values 0.125, 0.25, ..., 128:
    doubling and halving from 4.0 never leave that grid. *)
Theorem speed_stays_on_steps (times : list float)
  (frames : list (list Event * float)) :
  speed_on_step (run_frames times (initial_playback times) frames).
Proof.
  assert (Hinit : speed_on_step (initial_playback times)).
  { exists 4, 4. split; [reflexivity |]. split; [in_steps | reflexivity]. }
  revert Hinit. generalize (initial_playback times) as s.
  induction frames as [| f frames IH]; intros s Hs; simpl.
  - exact Hs.
  - assert (Hstep : speed_on_step (frame_step times s f)).
    { unfold frame_step.
      assert (Hev : speed_on_step
                      (fold_left (handle_event times) (fst f) s)).
      { clear IH. revert s Hs.
        induction (fst f) as [| ev events IHe]; intros s Hs.
        - exact Hs.
        - simpl. apply IHe. apply handle_event_speed_step. exact Hs. }
      unfold tick. destruct (playing _); exact Hev. }
    destruct (running (frame_step times s f)); [apply IH |]; exact Hstep.
Qed.

Lemma handle_event_stays_stopped (times : list float) (s : Playback)
  (ev : Event) :
  running s = false -> running (handle_event times s ev) = false.
Proof.
  intro Hr. destruct ev as [| [] |]; simpl; try assumption; try reflexivity;
    destruct (playing s); assumption.
Qed.

Lemma handle_event_quits (times : list float) (s : Playback) (ev : Event) :
  quits ev = true -> running (handle_event times s ev) = false.
Proof.
  destruct ev as [| [] |]; simpl; intro Hq; try discriminate; reflexivity.
Qed.

Lemma events_stay_stopped (times : list float) (events : list Event)
  (s : Playback) :
  running s = false ->
  running (fold_left (handle_event times) events s) = false.
Proof.
  revert s. induction events as [| ev events IH]; intros s Hs; simpl.
  - exact Hs.
  - apply IH. apply handle_event_stays_stopped. exact Hs.
Qed.

Lemma tick_running (times : list float) (s : Playback) (dt : float) :
  running (tick times s dt) = running s.
Proof.
  unfold tick. destruct (playing s); reflexivity.
Qed.

(** Without such an event a frame never clears [running]. *)
Lemma frame_without_quit (times : list float) (events : list Event)
  (s : Playback) (dt : float) :
  existsb quits events = false ->
  running (frame_step times s (events, dt)) = running s.
Proof.
  intro Hq. unfold frame_step. rewrite tick_running. simpl.
  revert s. induction events as [| ev events IH]; intro s; [reflexivity |].
  simpl in Hq |- *. apply orb_false_iff in Hq. destruct Hq as (Hev & Hrest).
  rewrite (IH Hrest).
  destruct ev as [| [] |]; simpl in *; try discriminate; try reflexivity;
    destruct (playing s); reflexivity.
Qed.

Lemma frame_with_quit (times : list float) (events : list Event)
  (s : Playback) (dt : float) :
  existsb quits events = true ->
  running (frame_step times s (events, dt)) = false.
Proof.
  intro Hq. unfold frame_step. rewrite tick_running. simpl.
  revert s. induction events as [| ev events IH]; intro s; [discriminate |].
  simpl in Hq |- *. destruct (quits ev) eqn:Eq.
  - apply events_stay_stopped. apply handle_event_quits. exact Eq.
  - apply IH. exact Hq.
Qed.

(** X3.  Quitting is terminal. After a frame [running] holds exactly when it
    held before and the frame has no QUIT event, ESC or q (whatever else the
    frame holds, before or after it); and once such an event came, no later
    frame changes the state. *)
Theorem quit_is_terminal (times : list float) (s : Playback)
  (events : list Event) (dt : float) (later : list (list Event * float)) :
  running (frame_step times s (events, dt))
  = running s && negb (existsb quits events)
  /\ (existsb quits events = true ->
      run_frames times s ((events, dt) :: later)
      = frame_step times s (events, dt)).
Proof.
  split.
  - destruct (existsb quits events) eqn:Eq.
    + rewrite (frame_with_quit times events s dt Eq).
      now rewrite andb_false_r.
    + rewrite (frame_without_quit times events s dt Eq).
      now rewrite andb_true_r.
  - intro Hq. simpl.
    rewrite (frame_with_quit times events s dt Hq). reflexivity.
Qed.

(** X4.  Keys that undo each other, and keys that saturate.  Doubling then
    halving gives the speed back unless the doubling saturated (speed
    above 64), and then gives 64.  A paused scrub to the right that would
    reach or pass the end of the timeline stops at the end, one to the left
    at the start; while playing the two scrub keys change nothing. *)
Theorem key_round_trips (times : list float) (s : Playback) (lo hi t sp : Q) :
  first_time times = Fin lo -> last_time times = Fin hi ->
  sim_time s = Fin t -> speed s = Fin sp ->
  ((1 # 8) <= sp <= 64 ->
   feq (speed (handle_event times (handle_event times s (KEYDOWN K_UP))
                 (KEYDOWN K_DOWN)))
     (Fin sp))
  /\ (64 < sp ->
      speed (handle_event times (handle_event times s (KEYDOWN K_UP))
               (KEYDOWN K_DOWN))
      = Fin (128 / 2))
  /\ (playing s = false -> hi <= t + 1 ->
      feq (sim_time (handle_event times s (KEYDOWN K_RIGHT))) (Fin hi))
  /\ (playing s = false -> t - 1 <= lo ->
      feq (sim_time (handle_event times s (KEYDOWN K_LEFT))) (Fin lo))
  /\ (playing s = true ->
      handle_event times (handle_event times s (KEYDOWN K_RIGHT))
        (KEYDOWN K_LEFT) = s).
Proof.
  intros Hlo Hhi Ht Hsp.
  split; [| split; [| split; [| split]]].
  - intros Hb. simpl. rewrite Hsp. unfold py_min, py_max, fgt. simpl fmul.
    destruct (flt (Fin (sp * 2)) (Fin 128)) eqn:E1; simpl fdiv.
    + change (sp * 2 / 2) with (sp * 2 * (1 # 2)).
      destruct (flt (Fin (1 # 8)) (Fin (sp * 2 * (1 # 2)))) eqn:E2; simpl.
      * lra.
      * apply flt_Fin_false in E2. lra.
    + apply flt_Fin_false in E1.
      change (128 / 2) with (128 * (1 # 2)).
      destruct (flt (Fin (1 # 8)) (Fin (128 * (1 # 2)))) eqn:E2; simpl.
      * lra.
      * apply flt_Fin_false in E2. lra.
  - intros Hb. simpl. rewrite Hsp. unfold py_min, py_max, fgt. simpl fmul.
    destruct (flt (Fin (sp * 2)) (Fin 128)) eqn:E1.
    + apply flt_Fin in E1. lra.
    + simpl fdiv. reflexivity.
  - intros Hp Hend. simpl. rewrite Hp. simpl.
    rewrite Ht, Hhi. unfold py_min. simpl fadd.
    destruct (flt (Fin hi) (Fin (t + 1))) eqn:E1; simpl.
    + lra.
    + apply flt_Fin_false in E1. lra.
  - intros Hp Hstart. simpl. rewrite Hp. simpl.
    rewrite Ht, Hlo. unfold py_max, fgt. simpl fsub.
    destruct (flt (Fin (t - 1)) (Fin lo)) eqn:E1; simpl.
    + lra.
    + apply flt_Fin_false in E1. lra.
  - intros Hp. simpl. rewrite Hp. simpl. rewrite ?Hp. reflexivity.
Qed.

Lemma key_round_trips_witness :
  feq (speed
         (handle_event (times demo_viewer)
            (handle_event (times demo_viewer)
               (initial_playback (times demo_viewer)) (KEYDOWN K_UP))
            (KEYDOWN K_DOWN)))
    (Fin 4).
Proof.
  refine (proj1 (key_round_trips (times demo_viewer)
                   (initial_playback (times demo_viewer)) 0 20 0 4 _ _ _ _)
            _).
  - vm_compute. reflexivity.
  - vm_compute. reflexivity.
  - vm_compute. reflexivity.
  - reflexivity.
  - lra.
Defined.

(** X5.  Reaching an end of the timeline freezes the clock there and leaves it
    playing: a playing tick that would pass [times[-1]] (or fall below
    [times[0]]) sets [sim_time] to that bound and does not pause. *)
Theorem clock_freezes_at_bounds (times : list float) (s : Playback)
  (lo hi t sp dt : Q) :
  first_time times = Fin lo -> last_time times = Fin hi -> lo <= hi ->
  sim_time s = Fin t -> speed s = Fin sp -> playing s = true ->
  (hi <= t + dt * sp -> feq (sim_time (tick times s (Fin dt))) (Fin hi))
  /\ (t + dt * sp <= lo -> feq (sim_time (tick times s (Fin dt))) (Fin lo))
  /\ playing (tick times s (Fin dt)) = true.
Proof.
  intros Hlo Hhi Hle Ht Hsp Hp.
  unfold tick. rewrite Hp, Ht, Hsp, Hlo, Hhi. unfold fgt. simpl fadd.
  destruct (flt (Fin hi) (Fin (t + dt * sp))) eqn:E1.
  - apply flt_Fin in E1.
    destruct (flt (Fin hi) (Fin lo)) eqn:E2.
    + apply flt_Fin in E2. lra.
    + simpl. repeat split; try assumption; intros; lra.
  - apply flt_Fin_false in E1.
    destruct (flt (Fin (t + dt * sp)) (Fin lo)) eqn:E2.
    + apply flt_Fin in E2. simpl. repeat split; try assumption; intros; lra.
    + apply flt_Fin_false in E2. simpl.
      repeat split; try assumption; intros; lra.
Qed.

Lemma clock_freezes_at_bounds_witness :
  feq (sim_time
         (tick (times demo_viewer) (initial_playback (times demo_viewer))
            (Fin 10)))
    (Fin 20).
Proof.
  refine (proj1 (clock_freezes_at_bounds (times demo_viewer)
                   (initial_playback (times demo_viewer)) 0 20 0 4 10
                   _ _ _ _ _ _) _).
  - vm_compute. reflexivity.
  - vm_compute. reflexivity.
  - lra.
  - vm_compute. reflexivity.
  - reflexivity.
  - reflexivity.
  - lra.
Defined.

(** ** The progress bar *)

Lemma Qtrunc_floor (q : Q) : 0 <= q -> Qtrunc q = Qfloor q.
Proof.
  intro Hq. destruct q as [n d]. unfold Qtrunc, Qfloor. simpl.
  apply Z.quot_div_nonneg; [| reflexivity].
  unfold Qle in Hq. simpl in Hq. lia.
Qed.

Lemma Qtrunc_between (q : Q) (a b : Z) :
  (0 <= a)%Z -> inject_Z a <= q <= inject_Z b -> (a <= Qtrunc q <= b)%Z.
Proof.
  intros Ha (Hlo & Hhi).
  assert (Hq : 0 <= q).
  { eapply Qle_trans; [| exact Hlo].
    change 0 with (inject_Z 0). rewrite <- Zle_Qle. exact Ha. }
  rewrite (Qtrunc_floor q Hq).
  split.
  - rewrite <- (Qfloor_Z a). apply Qfloor_resp_le. exact Hlo.
  - rewrite <- (Qfloor_Z b). apply Qfloor_resp_le. exact Hhi.
Qed.

(** X6.  For a clock within its bounds the fraction of the progress bar is a
    number in [0, 1] and the bar is between 0 and [bar_w] pixels wide; the
    division cannot raise, also when the timeline has a single time. *)
Theorem progress_bar_in_range (times : list float) (s : Playback)
  (lo hi : Q) :
  first_time times = Fin lo -> last_time times = Fin hi ->
  clock_in_bounds lo hi s ->
  exists frac width,
    progress_frac times (sim_time s) = Some (Fin frac)
    /\ 0 <= frac <= 1
    /\ progress_bar_width times (sim_time s) = Some width
    /\ (0 <= width <= bar_w)%Z.
Proof.
  intros Hlo Hhi (t & sp & Ht & _ & (Htlo & Hthi) & _).
  assert (Hfrac : exists frac,
             progress_frac times (sim_time s) = Some (Fin frac)
             /\ 0 <= frac <= 1).
  { unfold progress_frac, fgt. rewrite Hlo, Hhi, Ht.
    destruct (flt (Fin lo) (Fin hi)) eqn:E.
    - apply flt_Fin in E. simpl.
      destruct (Qeq_bool (hi - lo) 0) eqn:E0.
      + apply Qeq_bool_iff in E0. lra.
      + exists ((t - lo) / (hi - lo)). split; [reflexivity |].
        assert (Hpos : 0 < hi - lo) by lra.
        split.
        * apply Qle_shift_div_l; [exact Hpos | lra].
        * apply Qle_shift_div_r; [exact Hpos | lra].
    - exists 0. split; [reflexivity | lra]. }
  destruct Hfrac as (frac & Hfrac & Hf0 & Hf1).
  exists frac, (Qtrunc (inject_Z bar_w * frac)).
  split; [exact Hfrac |]. split; [split; assumption |].
  unfold progress_bar_width. rewrite Hfrac. split; [reflexivity |].
  apply Qtrunc_between; [lia |].
  change (inject_Z bar_w) with 340. change (inject_Z 0) with 0.
  split; nra.
Qed.

Lemma progress_bar_in_range_witness :
  exists frac width,
    progress_frac (times demo_viewer) (Fin 5) = Some (Fin frac)
    /\ 0 <= frac <= 1
    /\ progress_bar_width (times demo_viewer) (Fin 5) = Some width
    /\ (0 <= width <= bar_w)%Z.
Proof.
  apply (progress_bar_in_range (times demo_viewer)
           (mkPlayback (Fin 5) false (Fin 4) 6 true true) 0 20).
  - vm_compute. reflexivity.
  - vm_compute. reflexivity.
  - exists 5, 4. simpl. repeat split; lra.
Defined.

(** ** Snapshots and lap count as the clock advances *)

Lemma fle_mono (a : float) (t1 t2 : Q) :
  t1 <= t2 -> fle a (Fin t1) = true -> fle a (Fin t2) = true.
Proof.
  intros Ht. destruct a as [| q]; simpl; [discriminate |].
  rewrite !Qle_bool_iff. intro H1. lra.
Qed.

Lemma searchsorted_right_mono (a : list float) (t1 t2 : Q) :
  StronglySorted np_le a -> t1 <= t2 ->
  (searchsorted_right a (Fin t1) <= searchsorted_right a (Fin t2))%nat.
Proof.
  intros Hs Ht.
  destruct (searchsorted_right_spec a t1 Hs) as (Hr1 & Hlo1 & _).
  destruct (searchsorted_right_spec a t2 Hs) as (Hr2 & _ & Hhi2).
  destruct (Nat.le_gt_cases (searchsorted_right a (Fin t1))
              (searchsorted_right a (Fin t2))) as [Hle | Hgt];
    [exact Hle |].
  exfalso.
  pose proof (Hlo1 (searchsorted_right a (Fin t2)) Hgt) as H1.
  apply (fle_mono _ t1 t2 Ht) in H1.
  rewrite Hhi2 in H1 by lia. discriminate.
Qed.

(** X7.  As the query time grows the lookup never steps back in a driver's
    samples: the index, and with it the time of the sample shown, does not
    decrease. *)
Theorem snapshot_never_steps_back `{DataFrameSort}
  (telemetry : list ScreenRow) (drv : string) (t1 t2 : Q) :
  t1 <= t2 ->
  let t_arr := d_time (driver_arrays telemetry drv) in
  (snapshot_index t_arr (Fin t1) <= snapshot_index t_arr (Fin t2))%Z
  /\ (t_arr <> [] ->
      np_le (nth (Z.to_nat (snapshot_index t_arr (Fin t1))) t_arr NaN)
        (nth (Z.to_nat (snapshot_index t_arr (Fin t2))) t_arr NaN)).
Proof.
  intros Ht t_arr.
  pose proof (driver_arrays_sorted telemetry drv) as Hs. fold t_arr in Hs.
  pose proof (searchsorted_right_mono t_arr t1 t2 Hs Ht) as Hmono.
  destruct (searchsorted_right_spec t_arr t1 Hs) as (Hr1 & _).
  destruct (searchsorted_right_spec t_arr t2 Hs) as (Hr2 & _).
  assert (Hidx : (snapshot_index t_arr (Fin t1)
                  <= snapshot_index t_arr (Fin t2))%Z).
  { unfold snapshot_index.
    repeat match goal with
           | |- context [Z.ltb ?a ?b] => destruct (Z.ltb_spec a b)
           | |- context [Z.geb ?a ?b] => destruct (Z.geb_spec a b)
           end; lia. }
  split; [exact Hidx |].
  intro Hne. apply StronglySorted_nth; [exact Hs |].
  pose proof (snapshot_index_range t_arr (Fin t2) Hne) as Hrange.
  assert (H0 : (0 <= snapshot_index t_arr (Fin t1))%Z).
  { unfold snapshot_index.
    repeat match goal with
           | |- context [Z.ltb ?a ?b] => destruct (Z.ltb_spec a b)
           | |- context [Z.geb ?a ?b] => destruct (Z.geb_spec a b)
           end; lia. }
  lia.
Qed.

Lemma snapshot_never_steps_back_witness :
  (snapshot_index (d_time (@driver_arrays StableSort demo_rows "A")) (Fin 5)
   <= snapshot_index (d_time (@driver_arrays StableSort demo_rows "A"))
        (Fin 12))%Z.
Proof.
  refine (proj1 (@snapshot_never_steps_back StableSort demo_rows "A" 5 12 _)).
  lra.
Defined.

(** X8.  With lap numbers that are not negative the lap count of a frame never
    decreases as [sim_time] grows, so once the finished ordering is in use it
    stays in use for every later time. *)
Theorem lap_count_never_decreases (v : Viewer) (t1 t2 : Q) :
  Forall (fun r => (0 <= row_lap (base r))%Z) (telemetry_rows v) ->
  t1 <= t2 ->
  (current_lap_at v (Fin t1) <= current_lap_at v (Fin t2))%Z
  /\ (race_finished v (Fin t1) = true -> race_finished v (Fin t2) = true).
Proof.
  intros Hlaps Ht.
  assert (Hmono : (current_lap_at v (Fin t1) <= current_lap_at v (Fin t2))%Z).
  { unfold current_lap_at.
    set (sel1 := filter (fun r => fle (screen_time r) (Fin t1))
                   (telemetry_rows v)).
    set (sel2 := filter (fun r => fle (screen_time r) (Fin t2))
                   (telemetry_rows v)).
    pose proof (Z_max_list_spec (map (fun r => row_lap (base r)) sel1)) as H1.
    pose proof (Z_max_list_spec (map (fun r => row_lap (base r)) sel2)) as H2.
    assert (Hsub : forall r, In r sel1 -> In r sel2).
    { intros r Hr. subst sel1 sel2. apply filter_In in Hr.
      destruct Hr as (Hr & Hle). apply filter_In. split; [exact Hr |].
      eapply fle_mono; eassumption. }
    rewrite Forall_forall in Hlaps.
    destruct (Z_max_list (map (fun r => row_lap (base r)) sel1)) as [m1 |].
    - destruct H1 as (Hin1 & _).
      apply in_map_iff in Hin1. destruct Hin1 as (r & <- & Hr).
      destruct (Z_max_list (map (fun r => row_lap (base r)) sel2)) as [m2 |].
      + destruct H2 as (_ & Hub). apply Hub.
        apply (in_map (fun r => row_lap (base r))). apply Hsub. exact Hr.
      + apply map_eq_nil in H2. specialize (Hsub r Hr). rewrite H2 in Hsub.
        contradiction.
    - destruct (Z_max_list (map (fun r => row_lap (base r)) sel2)) as [m2 |];
        [| lia].
      destruct H2 as (Hin2 & _).
      apply in_map_iff in Hin2. destruct Hin2 as (r & <- & Hr).
      apply Hlaps. subst sel2. apply filter_In in Hr. apply Hr. }
  split; [exact Hmono |].
  unfold race_finished. rewrite !Z.geb_le. lia.
Qed.

Lemma lap_count_never_decreases_witness :
  (current_lap_at demo_viewer (Fin 5) <= current_lap_at demo_viewer (Fin 12))%Z.
Proof.
  refine (proj1 (lap_count_never_decreases demo_viewer 5 12 _ _)).
  - apply Forall_forall. intros r Hr. vm_compute in Hr.
    repeat (destruct Hr as [<- | Hr]; [simpl; lia |]). contradiction.
  - lra.
Defined.

(** ** The leaderboard as a whole *)

Lemma fmt_time_None (a : float) : fmt_time a = None <-> a = NaN.
Proof.
  destruct a as [| q].
  - split; reflexivity.
  - destruct (fmt_time_Fin q) as (s & Hs). rewrite Hs.
    split; discriminate.
Qed.

Lemma gap_str_total (leader_time : float) (leader_lap pos : Z)
  (info : DriverSnapshot) :
  exists g, gap_str leader_time leader_lap pos info = Some g.
Proof.
  unfold gap_str.
  destruct (st_lap info =? leader_lap)%Z.
  - destruct (pos =? 1)%Z; [eauto |].
    rewrite gap_jitter_absorbed.
    destruct (py_max_zero (fsub leader_time (st_time info))) as (g & Hg & _).
    rewrite Hg. destruct (fmt_time_Fin g) as (s & Hs). rewrite Hs. eauto.
  - destruct (leader_lap - st_lap info <=? 0)%Z; [eauto |].
    destruct (leader_lap - st_lap info =? 1)%Z; eauto.
Qed.

Lemma board_lines_None (leader_time : float) (leader_lap : Z)
  (entries : list (string * DriverSnapshot)) (pos : Z) :
  board_lines leader_time leader_lap pos entries = None <->
  exists x, In x entries /\ st_time (snd x) = NaN.
Proof.
  revert pos. induction entries as [| [drv info] entries IH]; intro pos.
  - simpl. split; [discriminate | intros (x & [] & _)].
  - simpl.
    destruct (gap_str_total leader_time leader_lap pos info) as (g & Hg).
    rewrite Hg.
    destruct (fmt_time (st_time info)) as [ts |] eqn:Et.
    + specialize (IH (pos + 1)%Z).
      destruct (board_lines leader_time leader_lap (pos + 1) entries).
      * split; [discriminate |].
        intros (x & [<- | Hx] & Hnan).
        -- simpl in Hnan. rewrite Hnan in Et. discriminate.
        -- destruct IH as (_ & IH). discriminate IH. eauto.
      * split; [| reflexivity]. intros _.
        destruct IH as (IH & _). destruct (IH eq_refl) as (x & Hx & Hnan).
        exists x. split; [right; exact Hx | exact Hnan].
    + split; [| reflexivity]. intros _.
      exists (drv, info). split; [left; reflexivity |].
      apply fmt_time_None. exact Et.
Qed.

Lemma board_lines_shape (leader_time : float) (leader_lap : Z)
  (entries : list (string * DriverSnapshot)) :
  forall (pos : Z) (lines : list BoardLine),
    board_lines leader_time leader_lap pos entries = Some lines ->
    map line_drv lines = map fst entries
    /\ map line_pos lines
       = map (fun i => (pos + Z.of_nat i)%Z) (seq 0 (length entries)).
Proof.
  induction entries as [| [drv info] entries IH]; intros pos lines Hb.
  - simpl in Hb. injection Hb as <-. split; reflexivity.
  - simpl in Hb.
    destruct (fmt_time (st_time info)) as [ts |]; [| discriminate].
    destruct (gap_str leader_time leader_lap pos info) as [g |];
      [| discriminate].
    destruct (board_lines leader_time leader_lap (pos + 1) entries)
      as [rest |] eqn:Er; [| discriminate].
    injection Hb as <-.
    destruct (IH (pos + 1)%Z rest Er) as (Hd & Hp).
    split.
    + simpl. f_equal. exact Hd.
    + cbn [map length seq]. f_equal; [simpl; lia |].
      rewrite Hp, <- seq_shift, map_map.
      apply map_ext. intro i. lia.
Qed.

Lemma sorted_drivers_perm (v : Viewer) (t : float) :
  Permutation (sorted_drivers_at v t) (driver_stats_at v t).
Proof.
  unfold sorted_drivers_at.
  destruct (race_finished v t); apply stable_sort_perm.
Qed.

Lemma unique_by_NoDup (seen l : list string) :
  NoDup (unique_by String.eqb seen l).
Proof.
  revert seen. induction l as [| a l IH]; intro seen; simpl.
  - constructor.
  - destruct (existsb (String.eqb a) seen); [apply IH |].
    constructor; [| apply IH].
    intro Hin. apply unique_by_spec in Hin. destruct Hin as (_ & Hseen).
    simpl in Hseen. rewrite String.eqb_refl in Hseen. discriminate.
Qed.

(** X9.  The board of a frame. Drawing it raises exactly when the snapshot of
    some driver has a NaN time; otherwise it lists every driver of the
    telemetry exactly once, at positions 1, 2, ... in ranking order, and the
    first line has no gap text. *)
Theorem leaderboard_lists_every_driver `{DataFrameSort} (telemetry : Frame)
  (session : Session) (v : Viewer) (t : float) :
  viewer_setup telemetry session = Some v ->
  (leaderboard v t = None <->
   exists x, In x (driver_stats_at v t) /\ st_time (snd x) = NaN)
  /\ NoDup (drivers v)
  /\ forall lines,
      leaderboard v t = Some lines ->
      map line_drv lines = map fst (sorted_drivers_at v t)
      /\ Permutation (map line_drv lines) (drivers v)
      /\ map line_pos lines
         = map (fun i => (1 + Z.of_nat i)%Z) (seq 0 (length (drivers v)))
      /\ forall first, nth_error lines 0 = Some first ->
                       line_gap_str first = ""%string.
Proof.
  intro Hv.
  pose proof (driver_stats_keys telemetry session v t Hv) as Hkeys.
  pose proof (sorted_drivers_perm v t) as Hperm.
  split; [| split].
  - unfold leaderboard.
    destruct (sorted_drivers_at v t) as [| [d0 i0] rest] eqn:Es.
    + simpl. split; [discriminate |].
      intros (x & Hx & _).
      apply (Permutation_in _ (Permutation_sym Hperm)) in Hx. contradiction.
    + rewrite board_lines_None. split.
      * intros (x & Hx & Hnan). exists x. split; [| exact Hnan].
        apply (Permutation_in _ Hperm). exact Hx.
      * intros (x & Hx & Hnan). exists x. split; [| exact Hnan].
        apply (Permutation_in _ (Permutation_sym Hperm)). exact Hx.
  - destruct (viewer_setup_inv telemetry session v Hv)
      as (lap_df & _ & _ & Hdrivers & _).
    rewrite Hdrivers. apply unique_by_NoDup.
  - intros lines Hboard. unfold leaderboard in Hboard.
    assert (Hlen : length (sorted_drivers_at v t) = length (drivers v)).
    { rewrite <- Hkeys, length_map. apply Permutation_length. exact Hperm. }
    destruct (sorted_drivers_at v t) as [| [d0 i0] rest] eqn:Es.
    + simpl in Hboard. injection Hboard as <-.
      rewrite <- Hlen. split; [reflexivity |]. split; [| split].
      * rewrite <- Hkeys. apply (Permutation_map fst) in Hperm. exact Hperm.
      * reflexivity.
      * intros first Hf. discriminate.
    + destruct (board_lines_shape _ _ _ _ _ Hboard) as (Hd & Hp).
      split; [exact Hd |]. split; [| split].
      * rewrite Hd, <- Hkeys. apply Permutation_map. exact Hperm.
      * rewrite Hp, Hlen. reflexivity.
      * intros first Hf.
        destruct (board_lines_nth _ _ _ _ _ 0%nat d0 i0 Hboard eq_refl)
          as (line & Hl & _ & _ & _ & Hg).
        rewrite Hf in Hl. injection Hl as ->.
        unfold gap_str in Hg. rewrite Z.eqb_refl in Hg. simpl in Hg.
        congruence.
Qed.

Lemma leaderboard_lists_every_driver_witness :
  NoDup (drivers demo_viewer).
Proof.
  refine (proj1 (proj2 (@leaderboard_lists_every_driver StableSort demo_frame
                          demo_session demo_viewer (Fin 12) _))).
  vm_compute. reflexivity.
Defined.

(** X10.  The drivers come from the telemetry frame, so each of them has
    samples: the arrays of a driver are not empty and of one length, and the
    list of drivers without telemetry (drawn as DNF under the board) is empty
    in every frame. *)
Theorem no_driver_without_telemetry `{DataFrameSort} (telemetry : Frame)
  (session : Session) (v : Viewer) :
  viewer_setup telemetry session = Some v ->
  (forall t, dnf_drivers v t = [])
  /\ (forall t, map fst (driver_stats_at v t) = drivers v)
  /\ map fst (driver_data v) = drivers v
  /\ forall drv data,
      In (drv, data) (driver_data v) ->
      d_time data <> []
      /\ length (d_xn data) = length (d_time data)
      /\ length (d_yn data) = length (d_time data)
      /\ length (d_lap data) = length (d_time data)
      /\ length (d_distance data) = length (d_time data).
Proof.
  intro Hv.
  destruct (viewer_setup_inv telemetry session v Hv)
    as (lap_df & _ & _ & _ & _ & _ & _ & _ & Hdata & _).
  split; [| split; [| split]].
  - intro t. unfold dnf_drivers.
    pose proof (driver_stats_keys telemetry session v t Hv) as Hkeys.
    assert (Hall : forall d, In d (drivers v) ->
                     negb (dict_has (driver_stats_at v t) d) = false).
    { intros d Hd. rewrite <- Hkeys in Hd. apply in_map_iff in Hd.
      destruct Hd as (x & Hx & Hin).
      apply negb_false_iff. unfold dict_has. apply existsb_exists.
      exists x. split; [exact Hin |]. rewrite Hx. apply String.eqb_refl. }
    revert Hall. generalize (drivers v) as ds.
    induction ds as [| d ds IH]; intro Hall; [reflexivity |].
    simpl. rewrite (Hall d) by (left; reflexivity).
    apply IH. intros d' Hd'. apply Hall. right. exact Hd'.
  - intro t. eapply driver_stats_keys. exact Hv.
  - rewrite Hdata, map_map. apply map_id.
  - intros drv data Hin. rewrite Hdata in Hin. apply in_map_iff in Hin.
    destruct Hin as (d & Hd & Hdin). injection Hd as <- <-.
    split; [eapply driver_has_samples; eassumption |].
    unfold driver_arrays. simpl. rewrite !length_map. repeat split.
Qed.

Lemma no_driver_without_telemetry_witness :
  dnf_drivers demo_viewer (Fin 12) = []
  /\ map fst (driver_data demo_viewer) = drivers demo_viewer.
Proof.
  destruct (@no_driver_without_telemetry StableSort demo_frame
              demo_session demo_viewer)
    as (Hdnf & _ & Hkeys & _).
  - vm_compute. reflexivity.
  - split; [apply Hdnf | exact Hkeys].
Defined.

(** ** Status codes and race-control messages *)

(** X11.  Over a stream in time order with one code per time, the status of a
    frame is the code of the last entry whose time is <= sim_time, and the
    default '1' when there is none. *)
Theorem status_is_latest_entry (status_times : list float)
  (status_codes : list string) (t : Q) :
  StronglySorted np_le status_times ->
  length status_codes = length status_times ->
  ((forall j, (j < length status_times)%nat ->
              fle (nth j status_times NaN) (Fin t) = false) ->
   current_status_at status_times status_codes (Fin t) = "1"%string)
  /\ ((exists j, (j < length status_times)%nat
                 /\ fle (nth j status_times NaN) (Fin t) = true) ->
      exists i,
        (i < length status_times)%nat
        /\ current_status_at status_times status_codes (Fin t)
           = nth i status_codes "1"%string
        /\ fle (nth i status_times NaN) (Fin t) = true
        /\ forall j, (i < j < length status_times)%nat ->
                     fle (nth j status_times NaN) (Fin t) = false).
Proof.
  intros Hs Hlen.
  destruct (searchsorted_right_spec status_times t Hs) as (Hr & Hlo & Hhi).
  unfold current_status_at. rewrite Hlen.
  set (r := searchsorted_right status_times (Fin t)) in *.
  split.
  - intro Hnone.
    assert (Hr0 : r = 0%nat).
    { destruct r as [| r']; [reflexivity |].
      specialize (Hlo 0%nat ltac:(lia)).
      rewrite Hnone in Hlo by lia. discriminate. }
    rewrite Hr0. reflexivity.
  - intros (j & Hj & Hle).
    assert (Hpos : (0 < r)%nat).
    { destruct (Nat.lt_ge_cases j r); [lia |].
      rewrite Hhi in Hle by lia. discriminate. }
    exists (r - 1)%nat.
    split; [lia |]. split; [| split].
    + destruct (Z.geb_spec (Z.of_nat r - 1) 0); [| lia].
      destruct (Z.ltb_spec (Z.of_nat r - 1) (Z.of_nat (length status_times)));
        [| lia].
      simpl. f_equal. lia.
    + apply Hlo. lia.
    + intros k Hk. apply Hhi. lia.
Qed.

Lemma status_is_latest_entry_witness :
  exists i,
    (i < 2)%nat
    /\ current_status_at [Fin 0; Fin 5] ["1"; "4"]%string (Fin 7)
       = nth i ["1"; "4"]%string "1"%string.
Proof.
  destruct (status_is_latest_entry [Fin 0; Fin 5] ["1"; "4"]%string 7)
    as (_ & Hlatest).
  - repeat constructor.
  - reflexivity.
  - destruct Hlatest as (i & Hi & Hcode & _).
    + exists 1%nat. split; [simpl; lia | reflexivity].
    + exists i. split; assumption.
Defined.

Lemma string_length_append (a b : string) :
  String.length (a ++ b) = (String.length a + String.length b)%nat.
Proof.
  induction a as [| c a IH]; simpl; [reflexivity | now rewrite IH].
Qed.

Lemma substring_prefix_length (n : nat) (s : string) :
  (n <= String.length s)%nat -> String.length (substring 0 n s) = n.
Proof.
  revert s. induction n as [| n IH]; intros s Hn.
  - destruct s; reflexivity.
  - destruct s as [| c s]; simpl in *; [lia |].
    rewrite IH by lia. reflexivity.
Qed.

(** X12.  The race-control text of a frame is at most 40 characters long: it
    is the empty text or one of the messages, unchanged when that has at most
    40 characters and cut to its first 37 characters followed by "..."
    otherwise. *)
Theorem last_msg_fits (message_times : list float) (messages : list string)
  (sim_time : float) :
  (String.length (last_msg_at message_times messages sim_time) <= 40)%nat
  /\ exists raw,
      (raw = ""%string \/ In raw messages)
      /\ ((String.length raw <= 40)%nat ->
          last_msg_at message_times messages sim_time = raw)
      /\ ((40 < String.length raw)%nat ->
          last_msg_at message_times messages sim_time
          = (substring 0 37 raw ++ "...")%string
          /\ String.length (last_msg_at message_times messages sim_time)
             = 40%nat).
Proof.
  unfold last_msg_at.
  set (message_idx :=
         (Z.of_nat (searchsorted_right message_times sim_time) - 1)%Z).
  set (raw :=
         if (message_idx >=? 0)%Z
            && (message_idx <? Z.of_nat (length messages))%Z
         then nth (Z.to_nat message_idx) messages ""%string
         else ""%string).
  assert (Hraw : raw = ""%string \/ In raw messages).
  { subst raw.
    destruct ((message_idx >=? 0)%Z
              && (message_idx <? Z.of_nat (length messages))%Z) eqn:E;
      [| left; reflexivity].
    apply andb_true_iff in E. destruct E as (E1 & E2).
    apply Z.geb_le in E1. apply Z.ltb_lt in E2.
    right. apply nth_In. lia. }
  assert (Hcut : (40 < String.length raw)%nat ->
                 String.length (substring 0 37 raw ++ "...") = 40%nat).
  { intro Hlong. rewrite string_length_append.
    rewrite substring_prefix_length by lia. reflexivity. }
  split.
  - destruct (Nat.ltb_spec 40 (String.length raw)) as [Hlong | Hshort].
    + rewrite (Hcut Hlong). lia.
    + exact Hshort.
  - exists raw. split; [exact Hraw |]. split.
    + intro Hshort.
      destruct (Nat.ltb_spec 40 (String.length raw)); [lia | reflexivity].
    + intro Hlong.
      destruct (Nat.ltb_spec 40 (String.length raw)); [| lia].
      split; [reflexivity | exact (Hcut Hlong)].
Qed.

(** ** Screen coordinates *)

Lemma nanmin_lower (l : list float) (d : Q) :
  In (Fin d) l -> exists m, nan_reduce fmin2 l = Fin m /\ m <= d.
Proof.
  intro Hin. pose proof (series_min_spec l) as Hspec.
  unfold series_min in Hspec.
  destruct (nan_reduce fmin2 l) as [| m].
  - specialize (Hspec _ Hin). discriminate.
  - exists m. split; [reflexivity | apply Hspec; exact Hin].
Qed.

(** The span of an axis is positive and covers every offset from the
    minimum. *)
Lemma span_covers (mn mx : Q) :
  mn <= mx ->
  exists d, span (Fin mn) (Fin mx) = Fin d /\ 0 < d
            /\ forall x, mn <= x <= mx -> 0 <= x - mn <= d.
Proof.
  intro Hle. unfold span, fneb. simpl.
  destruct (Qeq_bool mx mn) eqn:E; simpl.
  - apply Qeq_bool_iff in E. exists 1.
    split; [reflexivity |]. split; [lra |]. intros x Hx. lra.
  - exists (mx - mn). split; [reflexivity |].
    assert (Hne : ~ mx == mn).
    { intro Heq. apply Qeq_bool_iff in Heq. congruence. }
    split; [lra |]. intros x Hx. lra.
Qed.

(** The common scale fits both axes into the effective area. *)
Lemma py_min_scale (ew eh dx dy : Q) :
  0 <= ew -> 0 <= eh -> 0 < dx -> 0 < dy ->
  exists sc, py_min (Fin (ew / dx)) (Fin (eh / dy)) = Fin sc
             /\ 0 <= sc /\ sc * dx <= ew /\ sc * dy <= eh.
Proof.
  intros Hew Heh Hdx Hdy.
  assert (Hx : (ew / dx) * dx == ew) by (field; lra).
  assert (Hy : (eh / dy) * dy == eh) by (field; lra).
  assert (Hx0 : 0 <= ew / dx) by (apply Qle_shift_div_l; lra).
  assert (Hy0 : 0 <= eh / dy) by (apply Qle_shift_div_l; lra).
  unfold py_min.
  destruct (flt (Fin (eh / dy)) (Fin (ew / dx))) eqn:E.
  - apply flt_Fin in E. exists (eh / dy).
    split; [reflexivity |]. split; [exact Hy0 |]. split; [| lra].
    apply Qle_trans with ((ew / dx) * dx); [| lra].
    apply Qmult_le_compat_r; lra.
  - apply flt_Fin_false in E. exists (ew / dx).
    split; [reflexivity |]. split; [exact Hx0 |]. split; [lra |].
    apply Qle_trans with ((eh / dy) * dy); [| lra].
    apply Qmult_le_compat_r; lra.
Qed.

Lemma scaled_offset_bounds (o d sc e : Q) :
  0 <= o <= d -> 0 <= sc -> sc * d <= e -> 0 <= o * sc <= e.
Proof.
  intros (Ho & Hod) Hsc He. split.
  - apply Qmult_le_0_compat; assumption.
  - apply Qle_trans with (sc * d); [| exact He].
    rewrite (Qmult_comm o sc).
    rewrite !(Qmult_comm sc). apply Qmult_le_compat_r; assumption.
Qed.

Lemma inject_Z_sub (a b : Z) : inject_Z (a - b) == inject_Z a - inject_Z b.
Proof.
  unfold Z.sub. rewrite inject_Z_plus, inject_Z_opp. ring.
Qed.

(** Both axes of [normalize_coords], for arrays of numbers. *)
Lemma normalize_coords_range (xs ys : list float)
  (avail_w avail_h padding : Z) (nx ny : list Z) :
  Forall finite xs -> Forall finite ys ->
  (0 <= padding)%Z -> (2 * padding <= avail_w)%Z ->
  (2 * padding <= avail_h)%Z ->
  normalize_coords xs ys avail_w avail_h padding = Some (nx, ny) ->
  Forall (fun v => (padding <= v <= avail_w - padding)%Z) nx
  /\ Forall (fun v => (padding <= v <= avail_h - padding)%Z) ny
  /\ exists mnx mny sc,
      0 <= sc
      /\ nx = map (fun x =>
                     astype_int
                       (fadd (fmul (fsub x (Fin mnx)) (Fin sc))
                          (of_int padding))) xs
      /\ ny = map (fun y =>
                     astype_int
                       (fsub (of_int avail_h)
                          (fadd (fmul (fsub y (Fin mny)) (Fin sc))
                             (of_int padding)))) ys.
Proof.
  intros Fx Fy Hp Hw Hh Hn. unfold normalize_coords in Hn.
  destruct xs as [| x0 xs']; [discriminate |].
  destruct ys as [| y0 ys']; [discriminate |].
  cbn [np_nanmin np_nanmax] in Hn.
  set (xs := x0 :: xs') in *. set (ys := y0 :: ys') in *.
  assert (Hx0 : In x0 xs) by (left; reflexivity).
  assert (Hy0 : In y0 ys) by (left; reflexivity).
  clearbody xs ys.
  pose proof (proj1 (Forall_forall _ _) Fx) as Ax.
  pose proof (proj1 (Forall_forall _ _) Fy) as Ay.
  destruct (Ax _ Hx0) as (qx0 & Eqx0). destruct (Ay _ Hy0) as (qy0 & Eqy0).
  rewrite Eqx0 in Hx0. rewrite Eqy0 in Hy0.
  destruct (nanmin_lower xs qx0 Hx0) as (mnx & Emnx & Hmnx0).
  destruct (nanmax_upper xs qx0 Hx0) as (mxx & Emxx & Hmxx0).
  destruct (nanmin_lower ys qy0 Hy0) as (mny & Emny & Hmny0).
  destruct (nanmax_upper ys qy0 Hy0) as (mxy & Emxy & Hmxy0).
  destruct (span_covers mnx mxx ltac:(lra)) as (dx & Edx & Hdx & Hcx).
  destruct (span_covers mny mxy ltac:(lra)) as (dy & Edy & Hdy & Hcy).
  rewrite Emnx, Emxx, Emny, Emxy, Edx, Edy in Hn.
  unfold py_div, of_int in Hn.
  assert (Edx0 : Qeq_bool dx 0 = false).
  { destruct (Qeq_bool dx 0) eqn:E; [| reflexivity].
    apply Qeq_bool_iff in E. lra. }
  assert (Edy0 : Qeq_bool dy 0 = false).
  { destruct (Qeq_bool dy 0) eqn:E; [| reflexivity].
    apply Qeq_bool_iff in E. lra. }
  rewrite Edx0, Edy0 in Hn.
  assert (Hew : inject_Z (avail_w - padding * 2)
                == inject_Z avail_w - 2 * inject_Z padding).
  { rewrite inject_Z_sub, inject_Z_mult.
    change (inject_Z 2) with 2. ring. }
  assert (Heh : inject_Z (avail_h - padding * 2)
                == inject_Z avail_h - 2 * inject_Z padding).
  { rewrite inject_Z_sub, inject_Z_mult.
    change (inject_Z 2) with 2. ring. }
  assert (Hp' : 0 <= inject_Z padding).
  { change 0 with (inject_Z 0). rewrite <- Zle_Qle. exact Hp. }
  assert (Hw' : 2 * inject_Z padding <= inject_Z avail_w).
  { change 2 with (inject_Z 2). rewrite <- inject_Z_mult, <- Zle_Qle.
    exact Hw. }
  assert (Hh' : 2 * inject_Z padding <= inject_Z avail_h).
  { change 2 with (inject_Z 2). rewrite <- inject_Z_mult, <- Zle_Qle.
    exact Hh. }
  destruct (py_min_scale (inject_Z (avail_w - padding * 2))
              (inject_Z (avail_h - padding * 2)) dx dy
              ltac:(lra) ltac:(lra) Hdx Hdy)
    as (sc & Esc & Hsc & Hscx & Hscy).
  rewrite Esc in Hn. injection Hn as <- <-.
  split; [| split].
  3: { exists mnx, mny, sc. split; [exact Hsc |].
       rewrite !map_map. split; reflexivity. }
  - rewrite map_map. apply Forall_map. apply Forall_forall. intros x Hx.
    destruct (Ax _ Hx) as (q & ->). simpl.
    destruct (nanmin_lower xs q Hx) as (m1 & E1 & H1).
    destruct (nanmax_upper xs q Hx) as (m2 & E2 & H2).
    assert (m1 = mnx) by congruence. assert (m2 = mxx) by congruence.
    subst m1 m2.
    pose proof (scaled_offset_bounds (q - mnx) dx sc _
                  (Hcx q (conj H1 H2)) Hsc Hscx) as (Hlo & Hhi).
    apply Qtrunc_between; [exact Hp |].
    rewrite inject_Z_sub. lra.
  - rewrite !map_map. apply Forall_map. apply Forall_forall. intros y Hy.
    destruct (Ay _ Hy) as (q & ->). simpl.
    destruct (nanmin_lower ys q Hy) as (m1 & E1 & H1).
    destruct (nanmax_upper ys q Hy) as (m2 & E2 & H2).
    assert (m1 = mny) by congruence. assert (m2 = mxy) by congruence.
    subst m1 m2.
    pose proof (scaled_offset_bounds (q - mny) dy sc _
                  (Hcy q (conj H1 H2)) Hsc Hscy) as (Hlo & Hhi).
    apply Qtrunc_between; [exact Hp |].
    rewrite inject_Z_sub. lra.
Qed.

Lemma Qtrunc_ceiling (q : Q) : q <= 0 -> Qtrunc q = Qceiling q.
Proof.
  intro Hq. destruct q as [n d].
  unfold Qtrunc, Qceiling, Qfloor, Qopp. simpl.
  assert (Hn : (n <= 0)%Z) by (unfold Qle in Hq; simpl in Hq; lia).
  rewrite <- (Z.quot_div_nonneg (- n) (Zpos d)) by lia.
  rewrite Z.quot_opp_l by discriminate. lia.
Qed.

(** Truncation toward zero never reverses an order. *)
Lemma Qtrunc_mono (p q : Q) : p <= q -> (Qtrunc p <= Qtrunc q)%Z.
Proof.
  intro Hpq.
  destruct (Qlt_le_dec p 0) as [Hp | Hp], (Qlt_le_dec q 0) as [Hq | Hq].
  - rewrite !Qtrunc_ceiling by lra. apply Qceiling_resp_le. exact Hpq.
  - rewrite (Qtrunc_ceiling p) by lra. rewrite (Qtrunc_floor q Hq).
    apply Z.le_trans with 0%Z.
    + change 0%Z with (Qceiling (inject_Z 0)).
      apply Qceiling_resp_le. change (inject_Z 0) with 0. lra.
    + change 0%Z with (Qfloor (inject_Z 0)).
      apply Qfloor_resp_le. exact Hq.
  - lra.
  - rewrite !Qtrunc_floor by lra. apply Qfloor_resp_le. exact Hpq.
Qed.

(** X13.  For arrays of numbers, a padding that is not negative and an
    area at least two paddings wide and high, [normalize_coords] puts
    every x within [padding, avail_w - padding] and every y within
    [padding - 1, avail_h - padding]; a point further right in the data is
    never further left on the screen, and a point further up in the data
    is never further down (the y axis is inverted).  The pixel below the
    padding is left to y because of the last step, [avail_h - ny]: in
    floating point its result for the topmost point can fall a rounding
    error below the padding, which the truncation turns into the pixel
    before (ys = [0, 169] in a height of 800 with padding 40 gives 39).
    The other three bounds do not move: a value is never below the padding
    before it is truncated, and a rounding error above [avail - padding]
    is truncated away. *)
Theorem normalize_coords_in_window (xs ys : list float)
  (avail_w avail_h padding : Z) (nx ny : list Z) :
  Forall finite xs -> Forall finite ys ->
  (0 <= padding)%Z -> (2 * padding <= avail_w)%Z ->
  (2 * padding <= avail_h)%Z ->
  normalize_coords xs ys avail_w avail_h padding = Some (nx, ny) ->
  Forall (fun v => (padding <= v <= avail_w - padding)%Z) nx
  /\ Forall (fun v => (padding - 1 <= v <= avail_h - padding)%Z) ny
  /\ exists fx fy,
      nx = map fx xs /\ ny = map fy ys
      /\ (forall p q, p <= q -> (fx (Fin p) <= fx (Fin q))%Z)
      /\ (forall p q, p <= q -> (fy (Fin q) <= fy (Fin p))%Z).
Proof.
  intros Fx Fy Hp Hw Hh Hn.
  destruct (normalize_coords_range xs ys avail_w avail_h padding nx ny
              Fx Fy Hp Hw Hh Hn)
    as (Hnx & Hny & mnx & mny & sc & Hsc & Enx & Eny).
  split; [exact Hnx |]. split.
  { eapply Forall_impl; [| exact Hny]. intros v Hv. simpl in Hv. lia. }
  eexists. eexists. split; [exact Enx |]. split; [exact Eny |].
  split; intros p q Hpq; simpl; apply Qtrunc_mono.
  - assert (Hm : (p - mnx) * sc <= (q - mnx) * sc)
      by (apply Qmult_le_compat_r; lra).
    lra.
  - assert (Hm : (p - mny) * sc <= (q - mny) * sc)
      by (apply Qmult_le_compat_r; lra).
    lra.
Qed.

Lemma normalize_coords_in_window_witness :
  Forall (fun v => (40 <= v <= 600 - 40)%Z) [40; 560]%Z
  /\ Forall (fun v => (40 - 1 <= v <= 800 - 40)%Z) [760; 240]%Z.
Proof.
  destruct (normalize_coords_in_window [Fin 0; Fin 10] [Fin 0; Fin 10]
              600 800 40 [40; 560]%Z [760; 240]%Z)
    as (Hnx & Hny & _).
  - repeat constructor; eexists; reflexivity.
  - repeat constructor; eexists; reflexivity.
  - lia.
  - lia.
  - lia.
  - vm_compute. reflexivity.
  - split; assumption.
Defined.

(** ** The rows one lap contributes *)

(** The samples of a lap that end up as rows: those with both coordinates,
    when the telemetry has the columns and a time that converts. *)
Definition positioned_samples (lap : Lap) : list Sample :=
  match get_telemetry lap with
  | None => []
  | Some tel =>
      if has_X tel && has_Y tel then
        match get_telemetry_time_seconds tel with
        | Some _ =>
            filter (fun s => notna (X s) && notna (Y s)) (samples tel)
        | None => []
        end
      else []
  end.

(** The lap number written to the rows of a lap (lines 42-49). *)
Definition lap_num_of (lap : Lap) : Z :=
  match LapNumber lap with Some n => n | None => 0%Z end.

Lemma masked_map {A B : Type} (p : A -> bool) (g : A -> B) (l : list A) :
  masked (map p l) (map g l) = map g (filter p l).
Proof.
  unfold masked. induction l as [| a l IH]; simpl; [reflexivity |].
  destruct (p a); simpl; [f_equal |]; exact IH.
Qed.

Lemma mask_any {A : Type} (p : A -> bool) (l : list A) :
  existsb (fun b : bool => b) (map p l) = true <-> filter p l <> [].
Proof.
  induction l as [| a l IH]; simpl.
  - split; [discriminate | congruence].
  - destruct (p a); simpl.
    + split; [discriminate | reflexivity].
    + exact IH.
Qed.

Lemma time_seconds_map (tel : Telemetry) (ts : list float) :
  get_telemetry_time_seconds tel = Some ts ->
  exists g, ts = map g (samples tel).
Proof.
  unfold get_telemetry_time_seconds, time_column_seconds.
  destruct (tel_empty tel); [discriminate |].
  destruct (SessionTime_col tel) as [[] |], (Time_col tel) as [[] |];
    intro Hts; try discriminate; injection Hts as <-; eauto.
Qed.

Lemma nth_map_in {A B : Type} (g : A -> B) (l : list A) (i : nat) (d : A)
  (db : B) : (i < length l)%nat -> nth i (map g l) db = g (nth i l d).
Proof.
  intro Hi. rewrite (nth_indep _ db (g d)) by (rewrite length_map; exact Hi).
  apply map_nth.
Qed.

Lemma map_seq_rows {A B : Type} (vs : list A) (d : A) (h : nat -> B)
  (k : A -> B) :
  (forall i, (i < length vs)%nat -> h i = k (nth i vs d)) ->
  map h (seq 0 (length vs)) = map k vs.
Proof.
  intro Hh. rewrite <- (map_nth_seq k d vs).
  apply map_ext_in. intros i Hi. apply in_seq in Hi. apply Hh. lia.
Qed.

(** The frame of a lap has one row per positioned sample, in their order:
    the sample's time in seconds and coordinates, the lap's number, and as
    distance the 'Distance' entry or the time since the smallest time of
    the lap's rows. *)
Lemma lap_frame_rows (drv : string) (lap : Lap) (f : Frame) :
  lap_frame drv lap = Some f ->
  exists tel g abs_of,
    get_telemetry lap = Some tel
    /\ get_telemetry_time_seconds tel = Some (map g (samples tel))
    /\ positioned_samples lap <> []
    /\ rows f
       = map (fun s =>
                mkRow drv (g s) (X s) (Y s) (lap_num_of lap)
                  (if has_Distance tel then Distance s
                   else fsub (g s)
                          (ndarray_min (map g (positioned_samples lap))))
                  (abs_of s))
           (positioned_samples lap).
Proof.
  unfold lap_frame, positioned_samples, lap_num_of.
  destruct (get_telemetry lap) as [tel |]; [| discriminate].
  destruct (tel_empty tel); [discriminate |].
  destruct (has_X tel && has_Y tel); simpl; [| discriminate].
  destruct (get_telemetry_time_seconds tel) as [t_seconds |] eqn:Ets;
    [| discriminate].
  destruct (time_seconds_map tel t_seconds Ets) as (g & ->).
  set (p := fun s => notna (X s) && notna (Y s)).
  destruct (existsb (fun b : bool => b) (map p (samples tel))) eqn:Eany;
    simpl; [| discriminate].
  apply mask_any in Eany.
  rewrite !masked_map.
  set (vs := filter p (samples tel)) in *.
  assert (Hlen : (0 <? length (map g vs))%nat = true).
  { rewrite length_map. apply Nat.ltb_lt.
    destruct vs; [congruence | simpl; lia]. }
  rewrite Hlen. intro Hf. injection Hf as <-.
  pose (d := mkSample NaN NaN NaN NaN NaN NaN).
  set (abs_times :=
         match Time_col tel with
         | Some _ =>
             if forallb isnan (map Time_posix vs) then None
             else Some (map Time_posix vs)
         | None => None
         end).
  exists tel, g,
    (match abs_times with
     | Some _ => Time_posix
     | None => fun _ => NaN
     end).
  split; [reflexivity |]. split; [exact Ets |]. split; [exact Eany |].
  cbn [rows]. rewrite length_map.
  apply (map_seq_rows vs d). intros i Hi.
  rewrite (nth_map_in g vs i d) by exact Hi.
  rewrite (nth_map_in X vs i d) by exact Hi.
  rewrite (nth_map_in Y vs i d) by exact Hi.
  f_equal.
  - destruct (has_Distance tel).
    + apply (nth_map_in Distance vs i d). exact Hi.
    + rewrite map_map.
      apply (nth_map_in
               (fun s => fsub (g s) (ndarray_min (map g vs))) vs i d).
      exact Hi.
  - subst abs_times.
    destruct (Time_col tel) as [c |].
    + destruct (forallb isnan (map Time_posix vs)).
      * rewrite map_map. apply (nth_map_in (fun _ => NaN) vs i d). exact Hi.
      * rewrite !length_map, Nat.eqb_refl.
        apply (nth_map_in Time_posix vs i d). exact Hi.
    + rewrite map_map. apply (nth_map_in (fun _ => NaN) vs i d). exact Hi.
Qed.

Lemma positioned_samples_spec (lap : Lap) (s : Sample) :
  In s (positioned_samples lap) ->
  finite (X s) /\ finite (Y s) /\ lap_has_valid_sample lap.
Proof.
  unfold positioned_samples, lap_has_valid_sample.
  destruct (get_telemetry lap) as [tel |]; [| intros []].
  destruct (has_X tel && has_Y tel) eqn:Exy; [| intros []].
  apply andb_true_iff in Exy. destruct Exy as (Hx & Hy).
  destruct (get_telemetry_time_seconds tel) as [ts |] eqn:Ets; [| intros []].
  intro Hin. apply filter_In in Hin. destruct Hin as (Hin & Hp).
  apply andb_true_iff in Hp. destruct Hp as (HX & HY).
  split; [| split].
  - destruct (X s) as [| q]; [discriminate | eexists; reflexivity].
  - destruct (Y s) as [| q]; [discriminate | eexists; reflexivity].
  - exists tel. split; [reflexivity |]. split; [exact Hx |].
    split; [exact Hy |]. split; [congruence |]. exists s. tauto.
Qed.

(** ** Where the rows of the timeline come from *)

Lemma collect_row_origin `{DataFrameSort} (session : Session) (tl : Frame)
  (lps : list Lap) (r : Row) :
  collect_session_telemetry session = Some tl ->
  laps session = Some lps ->
  In r (rows tl) ->
  exists lap s,
    In lap lps /\ In s (positioned_samples lap)
    /\ row_driver r = Driver lap /\ row_x r = X s /\ row_y r = Y s
    /\ row_lap r = lap_num_of lap.
Proof.
  intros Hc Hlps Hr.
  destruct (collect_Some session tl Hc) as (lps' & Hlps' & _ & ->).
  assert (lps' = lps) by congruence. subst lps'.
  cbn [rows] in Hr.
  apply (Permutation_in _ (sort_values_perm _ _ _)) in Hr.
  unfold unsorted_timeline, shift_times in Hr. cbn [rows] in Hr.
  apply in_map_iff in Hr. destruct Hr as (r0 & <- & Hr0).
  unfold concat_frames in Hr0. cbn [rows] in Hr0.
  apply in_flat_map in Hr0. destruct Hr0 as (f & Hf & Hr0).
  apply lap_frames_In in Hf. destruct Hf as (lap & Hlap & Hframe).
  destruct (lap_frame_rows _ _ _ Hframe) as (tel & g & abs_of & _ & _ & _ & E).
  rewrite E in Hr0. apply in_map_iff in Hr0.
  destruct Hr0 as (s & <- & Hs).
  exists lap, s. simpl. repeat split; assumption.
Qed.

Lemma collect_rows_finite `{DataFrameSort} (session : Session) (tl : Frame) :
  collect_session_telemetry session = Some tl ->
  Forall (fun r => finite (row_x r) /\ finite (row_y r)) (rows tl).
Proof.
  intro Hc. destruct (collect_Some session tl Hc) as (lps & Hlps & _ & _).
  apply Forall_forall. intros r Hr.
  destruct (collect_row_origin session tl lps r Hc Hlps Hr)
    as (lap & s & _ & Hs & _ & -> & -> & _).
  destruct (positioned_samples_spec lap s Hs) as (HX & HY & _).
  split; assumption.
Qed.

Lemma collect_rows_nonempty `{DataFrameSort} (session : Session)
  (tl : Frame) :
  collect_session_telemetry session = Some tl -> rows tl <> [].
Proof.
  intro Hc. destruct (collect_Some session tl Hc) as (lps & _ & Hne & ->).
  cbn [rows]. intro Hnil.
  pose proof (sort_values_perm _ row_time (rows (unsorted_timeline lps)))
    as Hperm.
  rewrite Hnil in Hperm. apply Permutation_nil in Hperm.
  unfold unsorted_timeline, shift_times in Hperm. cbn [rows] in Hperm.
  apply map_eq_nil in Hperm. unfold concat_frames in Hperm.
  cbn [rows] in Hperm.
  destruct (lap_frames lps) as [| f fs] eqn:Efs; [congruence |].
  assert (Hf : In f (lap_frames lps)) by (rewrite Efs; left; reflexivity).
  apply lap_frames_In in Hf. destruct Hf as (lap & _ & Hframe).
  destruct (lap_frame_rows _ _ _ Hframe)
    as (tel & g & abs_of & _ & _ & Hpos & E).
  simpl in Hperm. apply app_eq_nil in Hperm. destruct Hperm as (Hrows & _).
  rewrite E in Hrows. apply map_eq_nil in Hrows. congruence.
Qed.

(** X14.  Every row of a timeline returned by the builder has both coordinates
    and stems from a sample of a lap of the session: it carries that lap's
    driver and lap number (0 when the lap has none), and the coordinates of
    that sample; the timeline has at least one row. *)
Theorem timeline_rows_have_positions `{DataFrameSort} (session : Session)
  (tl : Frame) :
  collect_session_telemetry session = Some tl ->
  rows tl <> []
  /\ exists lps,
      laps session = Some lps
      /\ forall r, In r (rows tl) ->
           finite (row_x r) /\ finite (row_y r)
           /\ exists lap s,
               In lap lps /\ lap_has_valid_sample lap
               /\ get_telemetry lap <> None
               /\ In s (positioned_samples lap)
               /\ row_driver r = Driver lap
               /\ row_lap r = lap_num_of lap
               /\ row_x r = X s /\ row_y r = Y s.
Proof.
  intro Hc. split; [exact (collect_rows_nonempty session tl Hc) |].
  destruct (collect_Some session tl Hc) as (lps & Hlps & _ & _).
  exists lps. split; [exact Hlps |]. intros r Hr.
  destruct (collect_row_origin session tl lps r Hc Hlps Hr)
    as (lap & s & Hlap & Hs & Hd & Hx & Hy & Hl).
  destruct (positioned_samples_spec lap s Hs) as (HX & HY & Hvalid).
  rewrite Hx, Hy. split; [exact HX |]. split; [exact HY |].
  exists lap, s.
  split; [exact Hlap |]. split; [exact Hvalid |]. split.
  - destruct Hvalid as (tel & -> & _). discriminate.
  - repeat split; assumption.
Qed.

Lemma timeline_rows_have_positions_witness :
  rows demo_frame <> [].
Proof.
  exact (proj1 (@timeline_rows_have_positions StableSort demo_session
                  demo_frame ltac:(vm_compute; reflexivity))).
Defined.

(** ** From the built timeline to the picture *)

Lemma normalize_coords_Some (xs ys : list float)
  (avail_w avail_h padding : Z) :
  xs <> [] -> ys <> [] ->
  exists nx ny,
    normalize_coords xs ys avail_w avail_h padding = Some (nx, ny)
    /\ length nx = length xs /\ length ny = length ys.
Proof.
  intros Hx Hy. unfold normalize_coords.
  destruct xs as [| x0 xs']; [congruence |].
  destruct ys as [| y0 ys']; [congruence |].
  cbn [np_nanmin np_nanmax].
  destruct (py_div (of_int (avail_w - padding * 2)) _) as [sw |] eqn:Ew;
    [| exfalso; eapply py_div_span; eassumption].
  destruct (py_div (of_int (avail_h - padding * 2)) _) as [sh |] eqn:Eh;
    [| exfalso; eapply py_div_span; eassumption].
  eexists. eexists. split; [reflexivity |].
  rewrite !length_map. split; reflexivity.
Qed.

Lemma normalize_coords_length (xs ys : list float)
  (avail_w avail_h padding : Z) (nx ny : list Z) :
  normalize_coords xs ys avail_w avail_h padding = Some (nx, ny) ->
  length nx = length xs /\ length ny = length ys.
Proof.
  intro Hn.
  destruct xs as [| x0 xs']; [discriminate |].
  destruct ys as [| y0 ys'].
  { unfold normalize_coords in Hn. cbn [np_nanmin np_nanmax] in Hn.
    discriminate. }
  destruct (normalize_coords_Some (x0 :: xs') (y0 :: ys') avail_w avail_h
              padding ltac:(discriminate) ltac:(discriminate))
    as (nx' & ny' & E & Hlx & Hly).
  rewrite E in Hn. injection Hn as <- <-. split; assumption.
Qed.

(** The columns 'xn' and 'yn' of the viewer's frame are the arrays
    [normalize_coords] returned. *)
Lemma viewer_setup_coords `{DataFrameSort} (telemetry : Frame)
  (session : Session) (v : Viewer) :
  viewer_setup telemetry session = Some v ->
  exists nx ny,
    normalize_coords (map row_x (rows telemetry))
      (map row_y (rows telemetry)) MAIN_W SCREEN_H 40 = Some (nx, ny)
    /\ map row_xn (telemetry_rows v) = nx
    /\ map row_yn (telemetry_rows v) = ny.
Proof.
  unfold viewer_setup. intro Hv.
  destruct (laps session) as [lap_df |]; [| discriminate].
  destruct (total_laps_of lap_df) as [tl |]; [| discriminate].
  destruct (align_stream (telemetry_abs_min_of telemetry) (status_data session))
    as [sts scs].
  destruct (align_stream (telemetry_abs_min_of telemetry)
              (race_control_messages session)) as [mts mss].
  destruct (normalize_coords _ _ _ _ _) as [[nx ny] |] eqn:En;
    [| discriminate].
  destruct (normalize_coords_length _ _ _ _ _ _ _ En) as (Hlx & Hly).
  rewrite length_map in Hlx, Hly.
  destruct (np_sort _) as [| t0 ts]; [discriminate |].
  injection Hv as <-. cbn [telemetry_rows].
  exists nx, ny. split; [reflexivity |].
  rewrite !map_map. cbn [row_xn row_yn]. split.
  - rewrite <- Hlx. rewrite (map_nth_seq (fun z => z)). apply map_id.
  - rewrite <- Hly. rewrite (map_nth_seq (fun z => z)). apply map_id.
Qed.

(** The snapshot of a driver is one row of that driver: time, lap,
    distance and both screen coordinates are taken from the same row. *)
Lemma snapshot_is_row `{DataFrameSort} (telemetry : Frame)
  (session : Session) (v : Viewer) (t : float) (drv : string)
  (st : DriverSnapshot) :
  viewer_setup telemetry session = Some v ->
  In (drv, st) (driver_stats_at v t) ->
  exists r,
    In r (telemetry_rows v)
    /\ row_driver (base r) = drv
    /\ st_time st = screen_time r
    /\ st_lap st = row_lap (base r)
    /\ st_distance st = row_distance (base r)
    /\ st_xn st = row_xn r /\ st_yn st = row_yn r.
Proof.
  intros Hv Hin.
  destruct (driver_stats_at_In telemetry session v t drv st Hv Hin)
    as (_ & Hsnap).
  unfold driver_snapshot, driver_arrays in Hsnap.
  cbn [d_time d_xn d_yn d_lap d_distance] in Hsnap.
  set (g := sort_values screen_time
              (filter (fun r => String.eqb (row_driver (base r)) drv)
                 (telemetry_rows v))) in *.
  destruct (map screen_time g) as [| t0 ts] eqn:Et; [discriminate |].
  injection Hsnap as <-.
  cbn [st_time st_lap st_distance st_xn st_yn].
  set (idx := Z.to_nat (snapshot_index (t0 :: ts) t)).
  assert (Hidx : (idx < length g)%nat).
  { rewrite <- (length_map screen_time g), Et.
    apply snapshot_index_range. discriminate. }
  pose (d := mkScreenRow (mkRow "" NaN NaN NaN 0 NaN NaN) 0 0).
  exists (nth idx g d).
  assert (Hg : In (nth idx g d) g) by (apply nth_In; exact Hidx).
  apply (Permutation_in _ (sort_values_perm _ _ _)) in Hg.
  apply filter_In in Hg. destruct Hg as (Hg & Hdrv).
  apply String.eqb_eq in Hdrv.
  split; [exact Hg |]. split; [exact Hdrv |].
  assert (Htm : nth idx (t0 :: ts) NaN = screen_time (nth idx g d)).
  { rewrite <- Et. apply nth_map_in. exact Hidx. }
  split; [exact Htm |].
  rewrite (nth_map_in (fun r => row_lap (base r)) g idx d) by exact Hidx.
  rewrite (nth_map_in (fun r => row_distance (base r)) g idx d)
    by exact Hidx.
  rewrite (nth_map_in row_xn g idx d) by exact Hidx.
  rewrite (nth_map_in row_yn g idx d) by exact Hidx.
  repeat split; reflexivity.
Qed.

Lemma filter_map_nil {A B : Type} (f : A -> option B) (l : list A) :
  filter_map f l = [] <-> forall a, In a l -> f a = None.
Proof.
  induction l as [| a l IH]; simpl.
  - split; [intros _ a [] | reflexivity].
  - destruct (f a) as [b |] eqn:E.
    + split; [discriminate |]. intro Hall.
      specialize (Hall a (or_introl eq_refl)). congruence.
    + rewrite IH. split.
      * intros Hall a' [<- | Ha']; [exact E | apply Hall; exact Ha'].
      * intros Hall a' Ha'. apply Hall. right. exact Ha'.
Qed.

Lemma total_laps_of_None (lap_df : list Lap) :
  total_laps_of lap_df = None <->
  lap_df <> [] /\ forall lap, In lap lap_df -> LapNumber lap = None.
Proof.
  unfold total_laps_of. destruct lap_df as [| l0 ls].
  - split; [discriminate | intros (Hne & _); congruence].
  - set (lap_df := l0 :: ls).
    pose proof (Z_max_list_spec (filter_map LapNumber lap_df)) as Hspec.
    destruct (Z_max_list (filter_map LapNumber lap_df)) as [m |].
    + split; [discriminate |]. intros (_ & Hall).
      apply filter_map_nil in Hall. rewrite Hall in Hspec.
      destruct Hspec as ([] & _).
    + split; [| reflexivity]. intros _.
      split; [discriminate |]. apply filter_map_nil. exact Hspec.
Qed.

Lemma np_sort_nonempty (l : list float) : l <> [] -> np_sort l <> [].
Proof.
  intros Hne Hnil. unfold np_sort in Hnil.
  pose proof (stable_sort_perm np_less l) as Hperm.
  rewrite Hnil in Hperm. apply Permutation_nil in Hperm. congruence.
Qed.

Lemma viewer_setup_None `{DataFrameSort} (telemetry : Frame)
  (session : Session) :
  viewer_setup telemetry session = None <->
  laps session = None
  \/ rows telemetry = []
  \/ exists lap_df,
       laps session = Some lap_df /\ total_laps_of lap_df = None.
Proof.
  unfold viewer_setup.
  destruct (laps session) as [lap_df |]; [| split; auto].
  destruct (total_laps_of lap_df) as [tl |] eqn:Etl.
  2: { split; [| reflexivity]. intros _. right. right. eauto. }
  destruct (align_stream (telemetry_abs_min_of telemetry) (status_data session))
    as [sts scs].
  destruct (align_stream (telemetry_abs_min_of telemetry)
              (race_control_messages session)) as [mts mss].
  destruct (rows telemetry) as [| r0 rs] eqn:Erows.
  { simpl. split; [auto | reflexivity]. }
  destruct (normalize_coords_Some (map row_x (r0 :: rs))
              (map row_y (r0 :: rs)) MAIN_W SCREEN_H 40
              ltac:(discriminate) ltac:(discriminate))
    as (nx & ny & En & _).
  rewrite En.
  set (telemetry' := map _ (seq 0 (length (r0 :: rs)))).
  assert (Hne : np_sort (unique same_value (map screen_time telemetry'))
                <> []).
  { apply np_sort_nonempty. subst telemetry'. simpl. discriminate. }
  destruct (np_sort (unique same_value (map screen_time telemetry')));
    [congruence |].
  split; [discriminate |].
  intros [Hc | [Hc | (df & Hl & Hc)]]; try discriminate.
  injection Hl as <-. congruence.
Qed.

(** X15.  The set-up in front of the loop (the window and the fastest-lap text
    apart) fails in three cases only: the session has no laps table, the
    telemetry frame has no row, or the laps table has rows but no lap has a
    number. On a timeline returned by the builder for the same session only
    the last case is left. *)
Theorem viewer_setup_reaches_loop `{DataFrameSort} (telemetry : Frame)
  (session : Session) :
  (viewer_setup telemetry session = None <->
   laps session = None
   \/ rows telemetry = []
   \/ exists lap_df,
        laps session = Some lap_df /\ lap_df <> []
        /\ forall lap, In lap lap_df -> LapNumber lap = None)
  /\ (collect_session_telemetry session = Some telemetry ->
      (viewer_setup telemetry session = None <->
       forall lap_df lap,
         laps session = Some lap_df -> In lap lap_df ->
         LapNumber lap = None)).
Proof.
  assert (Hgen : viewer_setup telemetry session = None <->
                 laps session = None
                 \/ rows telemetry = []
                 \/ exists lap_df,
                      laps session = Some lap_df /\ lap_df <> []
                      /\ forall lap, In lap lap_df -> LapNumber lap = None).
  { rewrite viewer_setup_None. split.
    - intros [Hc | [Hc | (l & Hl & Hc)]]; auto.
      apply total_laps_of_None in Hc. right. right. exists l. tauto.
    - intros [Hc | [Hc | (l & Hl & Hc)]]; auto.
      right. right. exists l. split; [exact Hl |].
      apply total_laps_of_None. exact Hc. }
  split; [exact Hgen |].
  intro Hc. rewrite Hgen.
  pose proof (collect_rows_nonempty session telemetry Hc) as Hrows.
  destruct (collect_Some session telemetry Hc) as (lps & Hlps & Hfs & _).
  assert (Hne : lps <> []).
  { intro Hnil. subst lps. apply Hfs. reflexivity. }
  split.
  - intros [Hn | [Hn | (l & Hl & _ & Hall)]]; [congruence | congruence |].
    intros lap_df lap Hdf Hin. apply Hall. congruence.
  - intro Hall. right. right. exists lps.
    split; [exact Hlps |]. split; [exact Hne |].
    intros lap Hin. exact (Hall lps lap Hlps Hin).
Qed.

(** X16.  What is drawn for a driver is one of that driver's own
    telemetry rows, all fields from the same row; when every row of the
    frame has both coordinates the point lies within [40, 560] x [39, 760]
    of the 600 x 800 track area: 40 pixels inside its border, but for the
    pixel that the rounding of [normalize_coords]' last step can take off
    the upper edge. *)
Theorem cars_drawn_inside_window `{DataFrameSort} (telemetry : Frame)
  (session : Session) (v : Viewer) (t : float) (drv : string)
  (st : DriverSnapshot) :
  viewer_setup telemetry session = Some v ->
  In (drv, st) (driver_stats_at v t) ->
  (exists r,
      In r (telemetry_rows v)
      /\ In (base r) (rows telemetry)
      /\ row_driver (base r) = drv
      /\ st_time st = row_time (base r)
      /\ st_lap st = row_lap (base r)
      /\ st_distance st = row_distance (base r)
      /\ st_xn st = row_xn r /\ st_yn st = row_yn r)
  /\ (Forall (fun r => finite (row_x r) /\ finite (row_y r))
        (rows telemetry) ->
      (40 <= st_xn st <= MAIN_W - 40)%Z
      /\ (39 <= st_yn st <= SCREEN_H - 40)%Z).
Proof.
  intros Hv Hin.
  destruct (snapshot_is_row telemetry session v t drv st Hv Hin)
    as (r & Hr & Hdrv & Ht & Hl & Hd & Hx & Hy).
  destruct (viewer_setup_inv telemetry session v Hv)
    as (lap_df & _ & _ & _ & _ & Hbase & _).
  split.
  - exists r. split; [exact Hr |]. split.
    + rewrite <- Hbase. apply in_map. exact Hr.
    + repeat split; assumption.
  - intro Hfin.
    destruct (viewer_setup_coords telemetry session v Hv)
      as (nx & ny & En & Hnx & Hny).
    destruct (normalize_coords_range (map row_x (rows telemetry))
                (map row_y (rows telemetry)) MAIN_W SCREEN_H 40 nx ny)
      as (Rx & Ry & _); try exact En.
    + apply Forall_map. eapply Forall_impl; [| exact Hfin].
      intros a (Ha & _). exact Ha.
    + apply Forall_map. eapply Forall_impl; [| exact Hfin].
      intros a (_ & Ha). exact Ha.
    + lia.
    + unfold MAIN_W. lia.
    + unfold SCREEN_H. lia.
    + rewrite Hx, Hy. split.
      * apply (proj1 (Forall_forall _ _) Rx). rewrite <- Hnx.
        apply in_map. exact Hr.
      * assert (Hy40 : (40 <= row_yn r <= SCREEN_H - 40)%Z).
        { apply (proj1 (Forall_forall _ _) Ry). rewrite <- Hny.
          apply in_map. exact Hr. }
        lia.
Qed.

Lemma cars_drawn_inside_window_witness :
  exists st,
    In ("A"%string, st) (driver_stats_at demo_viewer (Fin 12))
    /\ (40 <= st_xn st <= MAIN_W - 40)%Z
    /\ (39 <= st_yn st <= SCREEN_H - 40)%Z.
Proof.
  assert (Hin : exists st,
             In ("A"%string, st) (driver_stats_at demo_viewer (Fin 12))).
  { vm_compute. eexists. left. reflexivity. }
  destruct Hin as (st & Hin). exists st. split; [exact Hin |].
  refine (proj2 (@cars_drawn_inside_window StableSort demo_frame
                   demo_session demo_viewer (Fin 12) "A"%string st _ Hin) _).
  - vm_compute. reflexivity.
  - vm_compute. repeat constructor; eexists; reflexivity.
Defined.

(** ** Distances derived from the time *)

Lemma existsb_isnan_false (l : list float) :
  existsb isnan l = false <-> Forall finite l.
Proof.
  induction l as [| a l IH]; simpl.
  - split; [constructor | reflexivity].
  - destruct a as [| q]; simpl.
    + split; [discriminate |]. intro Hall. inversion Hall as [| ? ? Ha _].
      destruct Ha as (q & Hq). discriminate.
    + rewrite IH. split.
      * intro Hall. constructor; [eexists; reflexivity | exact Hall].
      * intro Hall. inversion Hall. assumption.
Qed.

(** X17.  A lap with a 'Distance' column keeps the entries of that column.
    Without the column the distance of a row is the time since the lap's
    earliest row: with times that are numbers it is never negative and 0 for
    the earliest row; one missing time among the lap's rows makes the distance
    of every row of the lap NaN. *)
Theorem derived_distance_from_lap_start (drv : string) (lap : Lap)
  (f : Frame) (tel : Telemetry) :
  lap_frame drv lap = Some f ->
  get_telemetry lap = Some tel ->
  length (rows f) = length (positioned_samples lap)
  /\ (has_Distance tel = true ->
      map row_distance (rows f) = map Distance (positioned_samples lap))
  /\ (has_Distance tel = false ->
      (Forall (fun r => finite (row_time r)) (rows f) ->
       Forall (fun r => exists d, row_distance r = Fin d /\ 0 <= d) (rows f)
       /\ exists r, In r (rows f) /\ feq (row_distance r) (Fin 0))
      /\ ((exists r, In r (rows f) /\ row_time r = NaN) ->
          Forall (fun r => row_distance r = NaN) (rows f))).
Proof.
  intros Hf Htel.
  destruct (lap_frame_rows drv lap f Hf)
    as (tel' & g & abs_of & Htel' & _ & Hne & E).
  assert (tel' = tel) by congruence. subst tel'.
  set (vs := positioned_samples lap) in *.
  split; [rewrite E; apply length_map |].
  split.
  - intro Hd. rewrite E, map_map. rewrite Hd. reflexivity.
  - intro Hd. rewrite Hd in E.
    assert (Htimes : map row_time (rows f) = map g vs)
      by (rewrite E, map_map; reflexivity).
    split.
    + intro Hfin.
      assert (Hfin' : Forall finite (map g vs)).
      { rewrite <- Htimes. apply Forall_map. exact Hfin. }
      unfold ndarray_min in E.
      rewrite (proj2 (existsb_isnan_false _) Hfin') in E.
      pose proof (series_min_spec (map g vs)) as Hspec.
      unfold series_min in Hspec.
      destruct (nan_reduce fmin2 (map g vs)) as [| m].
      { destruct vs as [| s0 vs']; [congruence |].
        specialize (Hspec (g s0) (or_introl eq_refl)).
        inversion Hfin' as [| ? ? (q & Hq) _]. congruence. }
      destruct Hspec as (Hm & Hlb). split.
      * rewrite E. apply Forall_map. apply Forall_forall. intros s Hs.
        cbn [row_distance].
        assert (Hg : In (g s) (map g vs)) by (apply in_map; exact Hs).
        destruct (proj1 (Forall_forall _ _) Hfin' _ Hg) as (q & Hq).
        rewrite Hq in Hg |- *. simpl. exists (q - m).
        split; [reflexivity |]. specialize (Hlb q Hg). lra.
      * apply in_map_iff in Hm. destruct Hm as (s & Hs & Hin).
        exists (mkRow drv (g s) (X s) (Y s) (lap_num_of lap)
                  (fsub (g s) (Fin m)) (abs_of s)).
        split.
        -- rewrite E. apply in_map_iff. exists s. split; [reflexivity |].
           exact Hin.
        -- cbn [row_distance]. rewrite Hs. simpl. lra.
    + intros (r & Hr & Hnan).
      assert (Hex : existsb isnan (map g vs) = true).
      { apply existsb_exists. exists (row_time r). rewrite Hnan.
        split; [| reflexivity]. rewrite <- Htimes, <- Hnan.
        apply in_map. exact Hr. }
      unfold ndarray_min in E. rewrite Hex in E.
      rewrite E. apply Forall_map. apply Forall_forall. intros s _.
      cbn [row_distance]. destruct (g s); reflexivity.
Qed.

(** A lap without a 'Distance' column: samples at session times 105 and
    100, and a third sample without coordinates. *)
Definition timed_telemetry : Telemetry :=
  mkTelemetry
    [demo_sample 7 0 105 0; demo_sample 3 0 100 0;
     mkSample NaN NaN (Fin 101) NaN NaN NaN]
    true true false (Some timedelta64) None.

Definition timed_lap : Lap :=
  mkLap "A" (Some 3%Z) (Fin 1) (Some timed_telemetry).

Definition timed_frame : Frame :=
  match lap_frame "A" timed_lap with
  | Some f => f
  | None => mkFrame [] false
  end.

Lemma derived_distance_from_lap_start_witness :
  length (rows timed_frame) = 2%nat
  /\ Forall (fun r => exists d, row_distance r = Fin d /\ 0 <= d)
       (rows timed_frame).
Proof.
  destruct (derived_distance_from_lap_start "A" timed_lap timed_frame
              timed_telemetry)
    as (Hlen & _ & Hderived).
  - vm_compute. reflexivity.
  - reflexivity.
  - split; [exact Hlen |].
    destruct (Hderived eq_refl) as (Hfin & _).
    apply Hfin. vm_compute. repeat constructor; eexists; reflexivity.
Defined.

(** ** No sample is lost or doubled *)

Lemma flat_map_filter_skip {A : Type} (key : A -> string) (a : A)
  (l : list A) (ds : list string) :
  ~ In (key a) ds ->
  flat_map (fun d => filter (fun x => String.eqb (key x) d) (a :: l)) ds
  = flat_map (fun d => filter (fun x => String.eqb (key x) d) l) ds.
Proof.
  intro Hnot. induction ds as [| d ds IH]; [reflexivity |].
  simpl. destruct (String.eqb_spec (key a) d) as [Heq | Hneq].
  - exfalso. apply Hnot. left. symmetry. exact Heq.
  - f_equal. apply IH. intro Hin. apply Hnot. right. exact Hin.
Qed.

(** Selecting the rows of each key in turn, for keys without repetition
    that cover the list, yields every row exactly once. *)
Lemma group_by_perm {A : Type} (key : A -> string) (l : list A)
  (ds : list string) :
  NoDup ds -> (forall a, In a l -> In (key a) ds) ->
  Permutation
    (flat_map (fun d => filter (fun x => String.eqb (key x) d) l) ds) l.
Proof.
  intros Hnd. induction l as [| a l IH]; intro Hcov.
  - clear. induction ds as [| d ds IH]; [constructor | exact IH].
  - destruct (in_split _ _ (Hcov a (or_introl eq_refl))) as (d1 & d2 & Eds).
    subst ds. apply NoDup_remove_2 in Hnd.
    assert (H1 : ~ In (key a) d1)
      by (intro; apply Hnd; apply in_or_app; auto).
    assert (H2 : ~ In (key a) d2)
      by (intro; apply Hnd; apply in_or_app; auto).
    assert (IH' := IH (fun x Hx => Hcov x (or_intror Hx))).
    assert (Hk : filter (fun x => String.eqb (key x) (key a)) (a :: l)
                 = a :: filter (fun x => String.eqb (key x) (key a)) l)
      by (simpl; rewrite String.eqb_refl; reflexivity).
    rewrite flat_map_app in IH' |- *.
    cbn [flat_map] in IH' |- *.
    rewrite (flat_map_filter_skip key a l d1 H1).
    rewrite (flat_map_filter_skip key a l d2 H2).
    rewrite Hk. cbn [app]. apply Permutation_sym.
    eapply perm_trans; [| apply Permutation_middle].
    apply perm_skip. apply Permutation_sym. exact IH'.
Qed.

Lemma flat_map_flat_map {A B C : Type} (f : B -> list C) (g : A -> list B)
  (l : list A) :
  flat_map f (flat_map g l) = flat_map (fun a => flat_map f (g a)) l.
Proof.
  induction l as [| a l IH]; simpl; [reflexivity |].
  rewrite flat_map_app, IH. reflexivity.
Qed.

Lemma lap_frame_None (drv : string) (lap : Lap) :
  lap_frame drv lap = None -> positioned_samples lap = [].
Proof.
  unfold lap_frame, positioned_samples.
  destruct (get_telemetry lap) as [tel |]; [| reflexivity].
  destruct (tel_empty tel) eqn:Eempty.
  { intros _. unfold tel_empty in Eempty.
    destruct (samples tel); [| discriminate].
    destruct (has_X tel && has_Y tel); [| reflexivity].
    destruct (get_telemetry_time_seconds tel); reflexivity. }
  destruct (has_X tel && has_Y tel); simpl; [| reflexivity].
  destruct (get_telemetry_time_seconds tel) as [ts |]; [| reflexivity].
  destruct (existsb _ _) eqn:Eany; simpl; [discriminate |].
  intros _.
  destruct (filter _ (samples tel)) as [| s0 vs] eqn:Ef; [reflexivity |].
  assert (Hany : existsb (fun b : bool => b)
                   (map (fun s => notna (X s) && notna (Y s)) (samples tel))
                 = true).
  { apply mask_any. rewrite Ef. discriminate. }
  congruence.
Qed.

(** What identifies a row apart from its time and distance. *)
Definition row_origin (r : Row) : string * Z * float * float :=
  (row_driver r, row_lap r, row_x r, row_y r).

(** The rows a lap is due: one per positioned sample. *)
Definition lap_origins (lap : Lap) : list (string * Z * float * float) :=
  map (fun s => (Driver lap, lap_num_of lap, X s, Y s))
    (positioned_samples lap).

Lemma map_flat_map {A B C : Type} (f : B -> C) (g : A -> list B)
  (l : list A) :
  map f (flat_map g l) = flat_map (fun a => map f (g a)) l.
Proof.
  induction l as [| a l IH]; simpl; [reflexivity |].
  rewrite map_app, IH. reflexivity.
Qed.

Lemma flat_map_ext_in {A B : Type} (f g : A -> list B) (l : list A) :
  (forall a, In a l -> f a = g a) -> flat_map f l = flat_map g l.
Proof.
  induction l as [| a l IH]; intro Hext; simpl; [reflexivity |].
  rewrite (Hext a (or_introl eq_refl)). f_equal.
  apply IH. intros x Hx. apply Hext. right. exact Hx.
Qed.

Lemma group_origins (drv : string) (ls : list Lap) :
  (forall lap, In lap ls -> Driver lap = drv) ->
  map row_origin (flat_map rows (filter_map (lap_frame drv) ls))
  = flat_map lap_origins ls.
Proof.
  induction ls as [| lap ls IH]; intro Hdrv; [reflexivity |].
  assert (IH' := IH (fun x Hx => Hdrv x (or_intror Hx))).
  assert (Hlap := Hdrv lap (or_introl eq_refl)).
  cbn [filter_map flat_map].
  destruct (lap_frame drv lap) as [f |] eqn:Ef.
  - cbn [flat_map]. rewrite map_app, IH'. f_equal.
    destruct (lap_frame_rows drv lap f Ef)
      as (tel & g & abs_of & _ & _ & _ & E).
    rewrite E, map_map. unfold lap_origins, row_origin. simpl.
    rewrite Hlap. reflexivity.
  - rewrite IH'. unfold lap_origins at 2.
    rewrite (lap_frame_None drv lap Ef). reflexivity.
Qed.

Lemma lap_frames_origins (lps : list Lap) :
  Permutation (map row_origin (flat_map rows (lap_frames lps)))
    (flat_map lap_origins lps).
Proof.
  unfold lap_frames.
  rewrite flat_map_flat_map, map_flat_map.
  rewrite (flat_map_ext_in _
             (fun drv =>
                flat_map lap_origins
                  (filter (fun l => String.eqb (Driver l) drv) lps))).
  - rewrite <- flat_map_flat_map. apply Permutation_flat_map.
    apply group_by_perm.
    + apply unique_by_NoDup.
    + intros lap Hlap.
      destruct (unique_by_complete [] (map Driver lps) (Driver lap))
        as [[] | Hu]; [apply in_map; exact Hlap | exact Hu].
  - intros drv _. apply group_origins.
    intros lap Hlap. apply filter_In in Hlap. destruct Hlap as (_ & Heq).
    apply String.eqb_eq. exact Heq.
Qed.

(** X18.  The timeline has exactly one row for each positioned sample of each
    lap of the session, with that lap's driver and number and the sample's
    coordinates: the builder drops no such sample and doubles none. *)
Theorem timeline_keeps_every_positioned_sample `{DataFrameSort}
  (session : Session) (tl : Frame) :
  collect_session_telemetry session = Some tl ->
  exists lps,
    laps session = Some lps
    /\ Permutation (map row_origin (rows tl)) (flat_map lap_origins lps)
    /\ length (rows tl)
       = list_sum (map (fun lap => length (positioned_samples lap)) lps).
Proof.
  intro Hc. destruct (collect_Some session tl Hc) as (lps & Hlps & _ & ->).
  exists lps. split; [exact Hlps |].
  assert (Hperm : Permutation
                    (map row_origin
                       (sort_values row_time (rows (unsorted_timeline lps))))
                    (flat_map lap_origins lps)).
  { eapply perm_trans.
    - apply Permutation_map. apply sort_values_perm.
    - unfold unsorted_timeline, shift_times, concat_frames. cbn [rows].
      rewrite map_map.
      rewrite (map_ext _ row_origin) by reflexivity.
      apply lap_frames_origins. }
  cbn [rows]. split; [exact Hperm |].
  rewrite <- (length_map row_origin).
  rewrite (Permutation_length Hperm).
  rewrite length_flat_map. f_equal. apply map_ext.
  intro lap. unfold lap_origins. apply length_map.
Qed.

Lemma timeline_keeps_every_positioned_sample_witness :
  exists lps,
    laps demo_session = Some lps
    /\ length (rows demo_frame)
       = list_sum (map (fun lap => length (positioned_samples lap)) lps).
Proof.
  destruct (@timeline_keeps_every_positioned_sample StableSort demo_session
              demo_frame ltac:(vm_compute; reflexivity))
    as (lps & Hlps & _ & Hlen).
  exists lps. split; assumption.
Defined.

(** ** The per-driver arrays *)

(** Row [i] of the five parallel arrays of a driver. *)
Definition data_rows (data : DriverData)
  : list (float * Z * Z * Z * float) :=
  map (fun i =>
         (nth i (d_time data) NaN, nth i (d_xn data) 0%Z,
          nth i (d_yn data) 0%Z, nth i (d_lap data) 0%Z,
          nth i (d_distance data) NaN))
    (seq 0 (length (d_time data))).

Definition screen_row_fields (r : ScreenRow) : float * Z * Z * Z * float :=
  (screen_time r, row_xn r, row_yn r, row_lap (base r),
   row_distance (base r)).

Lemma data_rows_of_driver `{DataFrameSort} (telemetry : list ScreenRow)
  (drv : string) :
  Permutation (data_rows (driver_arrays telemetry drv))
    (map screen_row_fields
       (filter (fun r => String.eqb (row_driver (base r)) drv) telemetry)).
Proof.
  unfold data_rows, driver_arrays.
  cbn [d_time d_xn d_yn d_lap d_distance].
  set (g := sort_values screen_time _).
  pose (d := mkScreenRow (mkRow "" NaN NaN NaN 0 NaN NaN) 0 0).
  rewrite length_map.
  rewrite (map_seq_rows g d _ screen_row_fields).
  - apply Permutation_map. apply sort_values_perm.
  - intros i Hi. unfold screen_row_fields.
    rewrite (nth_map_in screen_time g i d) by exact Hi.
    rewrite (nth_map_in row_xn g i d) by exact Hi.
    rewrite (nth_map_in row_yn g i d) by exact Hi.
    rewrite (nth_map_in (fun r => row_lap (base r)) g i d) by exact Hi.
    rewrite (nth_map_in (fun r => row_distance (base r)) g i d) by exact Hi.
    reflexivity.
Qed.

Lemma Permutation_flat_map_pointwise {A B : Type} (f g : A -> list B)
  (l : list A) :
  (forall a, In a l -> Permutation (f a) (g a)) ->
  Permutation (flat_map f l) (flat_map g l).
Proof.
  induction l as [| a l IH]; intro Hp; simpl; [constructor |].
  apply Permutation_app.
  - apply Hp. left. reflexivity.
  - apply IH. intros x Hx. apply Hp. right. exact Hx.
Qed.

(** X19.  The arrays prepared for the drivers split the frame: every row of
    the frame is row [i] of the arrays of exactly one driver, its own, and the
    time array of each driver is in ascending order, as the lookup by
    bisection needs. *)
Theorem driver_arrays_split_the_frame `{DataFrameSort} (telemetry : Frame)
  (session : Session) (v : Viewer) :
  viewer_setup telemetry session = Some v ->
  Permutation (flat_map (fun item => data_rows (snd item)) (driver_data v))
    (map screen_row_fields (telemetry_rows v))
  /\ (forall drv data,
        In (drv, data) (driver_data v) ->
        StronglySorted np_le (d_time data)
        /\ Permutation (data_rows data)
             (map screen_row_fields
                (filter (fun r => String.eqb (row_driver (base r)) drv)
                   (telemetry_rows v))))
  /\ length (telemetry_rows v) = length (rows telemetry).
Proof.
  intro Hv.
  destruct (viewer_setup_inv telemetry session v Hv)
    as (lap_df & _ & _ & Hdrivers & _ & Hbase & _ & _ & Hdata & _).
  split; [| split].
  - rewrite Hdata. rewrite flat_map_concat_map, map_map.
    rewrite <- flat_map_concat_map. cbn [snd].
    eapply perm_trans.
    + apply Permutation_flat_map_pointwise.
      intros drv _. apply data_rows_of_driver.
    + rewrite <- map_flat_map. apply Permutation_map.
      apply (group_by_perm (fun r => row_driver (base r))).
      * rewrite Hdrivers. apply unique_by_NoDup.
      * intros r Hr. rewrite Hdrivers.
        destruct (unique_by_complete [] (map row_driver (rows telemetry))
                    (row_driver (base r))) as [[] | Hu]; [| exact Hu].
        rewrite <- Hbase, map_map.
        apply (in_map (fun r => row_driver (base r))). exact Hr.
  - intros drv data Hin. rewrite Hdata in Hin.
    apply in_map_iff in Hin. destruct Hin as (d & Hd & _).
    injection Hd as <- <-. split.
    + apply driver_arrays_sorted.
    + apply data_rows_of_driver.
  - rewrite <- Hbase. symmetry. apply length_map.
Qed.

Lemma driver_arrays_split_the_frame_witness :
  length (telemetry_rows demo_viewer) = length (rows demo_frame).
Proof.
  exact (proj2 (proj2
           (@driver_arrays_split_the_frame StableSort demo_frame demo_session
              demo_viewer ltac:(vm_compute; reflexivity)))).
Defined.

(** ** helpers.fmt_time *)

Lemma round_half_even_near (q : Q) :
  inject_Z (round_half_even q) - (1 # 2) <= q
  /\ q <= inject_Z (round_half_even q) + (1 # 2).
Proof.
  unfold round_half_even.
  pose proof (Qfloor_le q) as Hlo. pose proof (Qlt_floor q) as Hhi.
  assert (Hup : inject_Z (Qfloor q + 1) == inject_Z (Qfloor q) + 1).
  { rewrite inject_Z_plus. reflexivity. }
  destruct (Qltb (q - inject_Z (Qfloor q)) (1 # 2)) eqn:E1.
  { apply Qltb_lt in E1. split; lra. }
  apply Qltb_ge in E1.
  destruct (Qltb (1 # 2) (q - inject_Z (Qfloor q))) eqn:E2.
  { split; lra. }
  apply Qltb_ge in E2.
  destruct (Z.even (Qfloor q)); split; lra.
Qed.

Lemma round_half_even_zero (q : Q) : q == 0 -> round_half_even q = 0%Z.
Proof.
  intro Hq. unfold round_half_even.
  assert (Hf : Qfloor q = 0%Z).
  { rewrite (Qfloor_comp q 0 Hq). reflexivity. }
  rewrite Hf.
  assert (E : Qltb (q - inject_Z 0) (1 # 2) = true).
  { apply Qltb_lt. change (inject_Z 0) with 0. lra. }
  rewrite E. reflexivity.
Qed.

Lemma Z_between_Q (z lo hi : Z) :
  inject_Z lo - (1 # 2) <= inject_Z z ->
  inject_Z z < inject_Z hi + (1 # 2) ->
  (lo <= z <= hi)%Z.
Proof.
  intros Hlo Hhi.
  assert (H1 : inject_Z (lo - 1) < inject_Z z).
  { rewrite inject_Z_sub. change (inject_Z 1) with 1. lra. }
  assert (H2 : inject_Z z < inject_Z (hi + 1)).
  { rewrite inject_Z_plus. change (inject_Z 1) with 1. lra. }
  rewrite <- Zlt_Qlt in H1, H2. lia.
Qed.

(** X20.  [fmt_time] shows 0:00.000 for every time that is not positive. For a
    time [q >= 0] the text is built from whole minutes and a number of
    milliseconds between 0 and 60000, which together are within half a
    millisecond of [q]; the seconds field is not carried over into the minutes
    when it rounds up to 60.000. *)
Theorem fmt_time_accuracy :
  (forall q, q <= 0 -> fmt_time (Fin q) = Some "0:00.000"%string)
  /\ (forall q, 0 <= q ->
      exists minutes millis,
        fmt_time (Fin q)
        = Some (str_of_Z minutes ++ ":"
                ++ zero_pad 2 (str_of_Z (millis / 1000)) ++ "."
                ++ zero_pad 3 (str_of_Z (millis mod 1000)))%string
        /\ (0 <= minutes)%Z /\ (0 <= millis <= 60000)%Z
        /\ inject_Z (60000 * minutes + millis) - (1 # 2) <= 1000 * q
        /\ 1000 * q <= inject_Z (60000 * minutes + millis) + (1 # 2))
  /\ fmt_time (Fin (599996 # 10000)) = Some "0:60.000"%string.
Proof.
  split; [| split].
  - intros q Hq. unfold fmt_time.
    destruct (flt (Fin q) (Fin 0)) eqn:E; [vm_compute; reflexivity |].
    apply flt_Fin_false in E.
    assert (Hq0 : q == 0) by lra.
    assert (Hmin : Qfloor (q / 60) = 0%Z).
    { assert (Hd : q / 60 == 0) by (rewrite Hq0; reflexivity).
      rewrite (Qfloor_comp _ 0 Hd). reflexivity. }
    rewrite Hmin. unfold format_06_3f.
    rewrite round_half_even_zero.
    + vm_compute. reflexivity.
    + change (inject_Z 0) with 0. rewrite Hq0. reflexivity.
  - intros q Hq. unfold fmt_time.
    assert (E : flt (Fin q) (Fin 0) = false).
    { simpl. apply Qltb_ge. exact Hq. }
    rewrite E. unfold format_06_3f.
    set (minutes := Qfloor (q / 60)).
    set (seconds := q - 60 * inject_Z minutes).
    set (millis := round_half_even (seconds * 1000)).
    exists minutes, millis. split; [reflexivity |].
    assert (Hx : q == 60 * (q / 60)) by (field).
    pose proof (Qfloor_le (q / 60)) as Hlo.
    pose proof (Qlt_floor (q / 60)) as Hhi.
    fold minutes in Hlo, Hhi.
    rewrite inject_Z_plus in Hhi. change (inject_Z 1) with 1 in Hhi.
    assert (Hsec : 0 <= seconds /\ seconds < 60) by (subst seconds; lra).
    destruct (round_half_even_near (seconds * 1000)) as (Hn1 & Hn2).
    fold millis in Hn1, Hn2.
    assert (Hmillis : (0 <= millis <= 60000)%Z).
    { apply Z_between_Q.
      - change (inject_Z 0) with 0. lra.
      - change (inject_Z 60000) with 60000. lra. }
    assert (Hminutes : (0 <= minutes)%Z).
    { subst minutes. change 0%Z with (Qfloor (inject_Z 0)).
      apply Qfloor_resp_le. change (inject_Z 0) with 0.
      apply Qle_shift_div_l; lra. }
    split; [exact Hminutes |]. split; [exact Hmillis |].
    rewrite inject_Z_plus, inject_Z_mult.
    change (inject_Z 60000) with 60000.
    subst seconds. split; lra.
  - vm_compute. reflexivity.
Qed.

(** ** Alignment of the status and message streams *)

Lemma fsub_np_le (c a b : float) :
  np_le a b -> np_le (fsub a c) (fsub b c).
Proof.
  unfold np_le.
  destruct c as [| r], a as [| p], b as [| q]; simpl; try congruence.
  rewrite !Qltb_ge. intro Hle. lra.
Qed.

Lemma StronglySorted_map {A B : Type} (R : A -> A -> Prop)
  (R' : B -> B -> Prop) (f : A -> B) (l : list A) :
  (forall a b, R a b -> R' (f a) (f b)) ->
  StronglySorted R l -> StronglySorted R' (map f l).
Proof.
  intros Hf Hs. induction Hs as [| a l Hs IH Hall]; simpl; constructor.
  - exact IH.
  - apply Forall_map. eapply Forall_impl; [| exact Hall].
    intros b Hb. apply Hf. exact Hb.
Qed.

Lemma align_stream_spec (abs_min : option float)
  (sd : list (float * string)) :
  StronglySorted np_le (map fst sd) ->
  StronglySorted np_le (fst (align_stream abs_min (Some sd)))
  /\ snd (align_stream abs_min (Some sd)) = map snd sd
  /\ (fst (align_stream abs_min (Some sd)) = []
      \/ length (fst (align_stream abs_min (Some sd)))
         = length (snd (align_stream abs_min (Some sd))))
  /\ (forall a, abs_min = Some a ->
        fst (align_stream abs_min (Some sd))
        = map (fun e => fsub e a) (map fst sd)).
Proof.
  intro Hs. unfold align_stream.
  destruct sd as [| x sd']; [simpl; repeat split; auto; constructor |].
  set (sd := x :: sd') in *. clearbody sd.
  destruct abs_min as [a |]; cbn [fst snd].
  - split; [| split; [| split]].
    + apply (StronglySorted_map np_le); [apply fsub_np_le | exact Hs].
    + reflexivity.
    + right. rewrite !length_map. reflexivity.
    + intros a' Ha. injection Ha as <-. reflexivity.
  - split; [| split; [| split]].
    + destruct (forallb isnan (map fst sd)); [constructor |].
      apply (StronglySorted_map np_le); [apply fsub_np_le | exact Hs].
    + reflexivity.
    + destruct (forallb isnan (map fst sd)); [left; reflexivity |].
      right. rewrite !length_map. reflexivity.
    + discriminate.
Qed.

Lemma viewer_setup_streams `{DataFrameSort} (telemetry : Frame)
  (session : Session) (v : Viewer) :
  viewer_setup telemetry session = Some v ->
  (status_times v, status_codes v)
  = align_stream (telemetry_abs_min_of telemetry) (status_data session)
  /\ (message_times v, messages v)
     = align_stream (telemetry_abs_min_of telemetry)
         (race_control_messages session).
Proof.
  unfold viewer_setup. intro Hv.
  destruct (laps session) as [lap_df |]; [| discriminate].
  destruct (total_laps_of lap_df) as [tl |]; [| discriminate].
  destruct (align_stream (telemetry_abs_min_of telemetry) (status_data session))
    as [sts scs].
  destruct (align_stream (telemetry_abs_min_of telemetry)
              (race_control_messages session)) as [mts mss].
  destruct (normalize_coords _ _ _ _ _) as [[nx ny] |]; [| discriminate].
  destruct (np_sort _) as [| t0 ts]; [discriminate |].
  injection Hv as <-. split; reflexivity.
Qed.

Lemma telemetry_abs_min_finite (telemetry : Frame) (a : float) :
  telemetry_abs_min_of telemetry = Some a -> finite a.
Proof.
  unfold telemetry_abs_min_of.
  destruct (has_abs_time telemetry); simpl; [| discriminate].
  destruct (existsb notna (map row_abs_time (rows telemetry))) eqn:E;
    [| discriminate].
  intro Ha. injection Ha as <-.
  apply existsb_exists in E. destruct E as (x & Hx & Hnotna).
  pose proof (series_min_spec (map row_abs_time (rows telemetry))) as Hspec.
  destruct (series_min (map row_abs_time (rows telemetry))) as [| m].
  - specialize (Hspec x Hx). subst x. discriminate.
  - eexists. reflexivity.
Qed.

(** X21.  The status stream and the message stream reach the loop in the order
    the session gives them: times in ascending order stay in ascending order,
    the codes and texts are unchanged, and there is one time per entry unless
    all times were dropped. When the telemetry carries absolute times, the
    offset taken off every time is a number. *)
Theorem streams_keep_their_order `{DataFrameSort} (telemetry : Frame)
  (session : Session) (v : Viewer) :
  viewer_setup telemetry session = Some v ->
  (forall sd,
      status_data session = Some sd ->
      StronglySorted np_le (map fst sd) ->
      StronglySorted np_le (status_times v)
      /\ status_codes v = map snd sd
      /\ (status_times v = []
          \/ length (status_times v) = length (status_codes v)))
  /\ (forall rc,
        race_control_messages session = Some rc ->
        StronglySorted np_le (map fst rc) ->
        StronglySorted np_le (message_times v)
        /\ messages v = map snd rc
        /\ (message_times v = []
            \/ length (message_times v) = length (messages v)))
  /\ (forall a,
        telemetry_abs_min_of telemetry = Some a ->
        exists qa,
          a = Fin qa
          /\ (forall sd, status_data session = Some sd ->
                status_times v = map (fun e => fsub e (Fin qa)) (map fst sd))
          /\ (forall rc, race_control_messages session = Some rc ->
                message_times v
                = map (fun e => fsub e (Fin qa)) (map fst rc))).
Proof.
  intro Hv.
  destruct (viewer_setup_streams telemetry session v Hv) as (Hst & Hms).
  assert (Hst1 : status_times v = fst (align_stream
                   (telemetry_abs_min_of telemetry) (status_data session)))
    by (rewrite <- Hst; reflexivity).
  assert (Hst2 : status_codes v = snd (align_stream
                   (telemetry_abs_min_of telemetry) (status_data session)))
    by (rewrite <- Hst; reflexivity).
  assert (Hms1 : message_times v = fst (align_stream
                   (telemetry_abs_min_of telemetry)
                   (race_control_messages session)))
    by (rewrite <- Hms; reflexivity).
  assert (Hms2 : messages v = snd (align_stream
                   (telemetry_abs_min_of telemetry)
                   (race_control_messages session)))
    by (rewrite <- Hms; reflexivity).
  split; [| split].
  - intros sd Hsd Hs. rewrite Hsd in Hst1, Hst2.
    destruct (align_stream_spec (telemetry_abs_min_of telemetry) sd Hs)
      as (H1 & H2 & H3 & _).
    rewrite Hst1, Hst2. split; [exact H1 |]. split; [exact H2 | exact H3].
  - intros rc Hrc Hs. rewrite Hrc in Hms1, Hms2.
    destruct (align_stream_spec (telemetry_abs_min_of telemetry) rc Hs)
      as (H1 & H2 & H3 & _).
    rewrite Hms1, Hms2. split; [exact H1 |]. split; [exact H2 | exact H3].
  - intros a Ha.
    destruct (telemetry_abs_min_finite telemetry a Ha) as (qa & ->).
    exists qa. split; [reflexivity |]. rewrite Ha in Hst1, Hms1. split.
    + intros sd Hsd. rewrite Hsd in Hst1. rewrite Hst1.
      destruct sd; reflexivity.
    + intros rc Hrc. rewrite Hrc in Hms1. rewrite Hms1.
      destruct rc; reflexivity.
Qed.

Lemma streams_keep_their_order_witness :
  StronglySorted np_le (status_times demo_viewer)
  /\ status_codes demo_viewer = ["1"; "4"]%string.
Proof.
  destruct (@streams_keep_their_order StableSort demo_frame demo_session
              demo_viewer ltac:(vm_compute; reflexivity))
    as (Hstatus & _).
  destruct (Hstatus [(Fin 1000, "1"%string); (Fin 1005, "4"%string)]
              eq_refl)
    as (Hs & Hc & _).
  - repeat constructor.
  - split; [exact Hs | exact Hc].
Defined.

(** ** helpers.get_telemetry_time_seconds *)

(** X22.  A result of [get_telemetry_time_seconds] has one time per sample of
    a telemetry that is not empty. A 'SessionTime' column of durations or
    numbers is used as it is, whatever the 'Time' column holds. Otherwise a
    'Time' column of durations is used as it is, and a 'Time' column of
    timestamps is taken relative to its first entry: the first time is 0 when
    that entry is a timestamp, and every time is NaN when it is missing. *)
Theorem telemetry_seconds_per_sample (tel : Telemetry) (ts : list float) :
  get_telemetry_time_seconds tel = Some ts ->
  samples tel <> []
  /\ length ts = length (samples tel)
  /\ ((SessionTime_col tel = Some timedelta64
       \/ SessionTime_col tel = Some numeric) ->
      ts = map SessionTime (samples tel))
  /\ (SessionTime_col tel <> Some timedelta64 ->
      SessionTime_col tel <> Some numeric ->
      (Time_col tel = Some timedelta64 /\ ts = map Time (samples tel))
      \/ (Time_col tel = Some datetime64
          /\ forall s0 rest,
              samples tel = s0 :: rest ->
              match Time s0 with
              | Fin q0 =>
                  ts = map (fun s => fsub (Time s) (Fin q0)) (samples tel)
                  /\ feq (hd NaN ts) (Fin 0)
              | NaN => Forall (fun t => t = NaN) ts
              end)).
Proof.
  intro Hts.
  assert (Hne : samples tel <> []).
  { apply (proj1 (time_seconds_converts tel)). congruence. }
  split; [exact Hne |].
  split.
  { destruct (time_seconds_map tel ts Hts) as (g & ->). apply length_map. }
  unfold get_telemetry_time_seconds, time_column_seconds in Hts.
  destruct (tel_empty tel); [discriminate |].
  split.
  - intros [Hc | Hc]; rewrite Hc in Hts; congruence.
  - intros Hn1 Hn2.
    assert (Hfall : match Time_col tel with
                    | Some timedelta64 => Some (map Time (samples tel))
                    | Some datetime64 =>
                        Some (map (fun s =>
                                     fsub (Time s)
                                       (hd NaN (map Time (samples tel))))
                                (samples tel))
                    | _ => None
                    end = Some ts).
    { destruct (SessionTime_col tel) as [[] |]; congruence. }
    destruct (Time_col tel) as [[] |]; try discriminate.
    + left. split; [reflexivity | congruence].
    + right. split; [reflexivity |].
      intros s0 rest Hs. rewrite Hs in Hfall.
      injection Hfall as <-. cbn [map hd].
      destruct (Time s0) as [| q0] eqn:E0.
      * constructor; [reflexivity |].
        apply Forall_forall. intros t Ht.
        apply in_map_iff in Ht. destruct Ht as (s & <- & _).
        destruct (Time s); reflexivity.
      * split; [rewrite Hs; cbn [map]; rewrite E0; reflexivity |].
        simpl. lra.
Qed.

(** A telemetry with timestamps only: 09:00:05, 09:00:07 as seconds of
    the day. *)
Definition stamped_telemetry : Telemetry :=
  mkTelemetry
    [mkSample (Fin 0) (Fin 0) NaN (Fin 32405) NaN (Fin 32405);
     mkSample (Fin 1) (Fin 0) NaN (Fin 32407) NaN (Fin 32407)]
    true true false None (Some datetime64).

Lemma telemetry_seconds_per_sample_witness :
  length [Fin (32405 - 32405); Fin (32407 - 32405)]
  = length (samples stamped_telemetry).
Proof.
  exact (proj1 (proj2
           (telemetry_seconds_per_sample stamped_telemetry
              [Fin (32405 - 32405); Fin (32407 - 32405)] eq_refl))).
Defined.

(** ** selector.F1Selector: the list of events *)

(** A row of the event schedule, by the columns [on_year_select] asks for
    ([None]: the row has no such column).  A round cell holds what [int()]
    makes of it, [None] when the conversion raises. *)
Record ScheduleRow : Type := mkScheduleRow {
  RoundNumber : option (option Z);
  Round_Number : option (option Z);
  roundNumber : option (option Z);
  OfficialName : option string;
  EventName : option string;
  Event_Name : option string
}.

(** [rn_val] of a row (selector.py lines 58-62). *)
Definition rn_val (row : ScheduleRow) : Z :=
  let rn :=
    match RoundNumber row with
    | Some c => c
    | None =>
        match Round_Number row with
        | Some c => c
        | None =>
            match roundNumber row with
            | Some c => c
            | None => Some 0%Z
            end
        end
    end in
  match rn with Some n => n | None => 0%Z end.

(** [name] of a row (line 64). *)
Definition event_name (row : ScheduleRow) : string :=
  match OfficialName row with
  | Some n => n
  | None =>
      match EventName row with
      | Some n => n
      | None =>
          match Event_Name row with
          | Some n => n
          | None => "Unknown"%string
          end
      end
  end.

(** [self.gps] after [on_year_select]; the schedule is [None] when
    [get_event_schedule] raises (an error box is shown, the list stays
    empty). *)
Definition on_year_select (sched : option (list ScheduleRow))
  : list (string * Z) :=
  match sched with
  | None => []
  | Some rows =>
      filter_map
        (fun row =>
           if (rn_val row >? 0)%Z then Some (event_name row, rn_val row)
           else None)
        rows
  end.

(** The texts put into the list box (lines 69-71). *)
Definition gp_list (gps : list (string * Z)) : list string :=
  map (fun g => (fst g ++ " (" ++ str_of_Z (snd g) ++ ")")%string) gps.

(** [launch] (lines 74-79): the event handed to [load_data]; [None] when
    the method returns at once.  [sel] is [curselection()], an index into
    the list box. *)
Definition launch (gps : list (string * Z)) (sel : list nat)
  : option (string * Z) :=
  match sel, gps with
  | [], _ => None
  | _, [] => None
  | i :: _, _ => nth_error gps i
  end.

Lemma on_year_select_In (sched : option (list ScheduleRow)) (name : string)
  (rnd : Z) :
  In (name, rnd) (on_year_select sched) <->
  exists rows row,
    sched = Some rows /\ In row rows
    /\ (0 < rn_val row)%Z /\ rn_val row = rnd /\ event_name row = name.
Proof.
  unfold on_year_select. destruct sched as [rows |].
  - rewrite filter_map_In. split.
    + intros (row & Hin & Hsel).
      destruct (Z.gtb_spec (rn_val row) 0) as [Hpos | Hle]; [| discriminate].
      injection Hsel as <- <-. exists rows, row.
      repeat split; [exact Hin | lia].
    + intros (rows' & row & Hs & Hin & Hpos & <- & <-).
      injection Hs as <-. exists row. split; [exact Hin |].
      destruct (Z.gtb_spec (rn_val row) 0); [reflexivity | lia].
  - split; [intros [] |]. intros (rows & row & Hs & _). discriminate.
Qed.

(** X23.  Only events with a positive round number can be loaded: whatever is
    selected, the event [launch] hands on is a row of the schedule with that
    name and round, and the round is positive; rows whose round is missing,
    unreadable or not positive are never offered. The list box shows one text
    per offered event, in schedule order. *)
Theorem only_numbered_rounds_offered (sched : option (list ScheduleRow))
  (sel : list nat) (name : string) (rnd : Z) :
  launch (on_year_select sched) sel = Some (name, rnd) ->
  (0 < rnd)%Z
  /\ (exists rows row,
         sched = Some rows /\ In row rows
         /\ rn_val row = rnd /\ event_name row = name)
  /\ length (gp_list (on_year_select sched))
     = length (on_year_select sched)
  /\ forall rows,
      sched = Some rows ->
      map snd (on_year_select sched)
      = filter (fun n => (n >? 0)%Z) (map rn_val rows).
Proof.
  intro Hl.
  assert (Hin : In (name, rnd) (on_year_select sched)).
  { unfold launch in Hl.
    destruct sel as [| i sel']; [discriminate |].
    destruct (on_year_select sched) as [| g gps] eqn:E; [discriminate |].
    apply nth_error_In in Hl. exact Hl. }
  apply on_year_select_In in Hin.
  destruct Hin as (rows & row & Hs & Hrow & Hpos & Hr & Hn).
  split; [lia |]. split; [exists rows, row; tauto |].
  split; [apply length_map |].
  intros rows' Hs'. rewrite Hs'. unfold on_year_select. clear.
  induction rows' as [| r rs IH]; [reflexivity |].
  simpl. destruct (rn_val r >? 0)%Z; simpl; rewrite IH; reflexivity.
Qed.

(** A schedule with a pre-season test (round 0) in front of a race. *)
Definition demo_schedule : list ScheduleRow :=
  [mkScheduleRow (Some (Some 0%Z)) None None (Some "Testing"%string)
     None None;
   mkScheduleRow (Some (Some 1%Z)) None None (Some "Grand Prix"%string)
     None None].

Lemma only_numbered_rounds_offered_witness :
  (0 < 1)%Z
  /\ gp_list (on_year_select (Some demo_schedule)) = ["Grand Prix (1)"%string].
Proof.
  split; [| vm_compute; reflexivity].
  exact (proj1 (only_numbered_rounds_offered (Some demo_schedule) [0%nat]
                  "Grand Prix"%string 1%Z eq_refl)).
Defined.
